(** * add_complete_campaigns_using_batch_job.py: a shallow embedding

    The script builds AdWords batch-job operations (Python dictionaries),
    uploads them and then polls the BatchJobService until a download URL
    shows up, sleeping with an exponential back-off between two polls.

    Python integers are [Z], Python strings are [string], Python lists are
    [list], dictionary literals are association lists in the order of the
    source.  The script talks to four collaborators that it does not
    define: the BatchJobService of the client, [random.randint],
    [uuid.uuid4] and the [BatchJobServiceIdGenerator].  One sequential run
    sees each of them as the sequence of the answers it gives, so a [World]
    holds, for each collaborator, the answers still to come, indexed by
    call.  Code runs in a monad that threads the world, may raise, and
    writes the events a test double would observe (service calls, log
    records, sleeps). *)

From Stdlib Require Import ZArith List String Ascii Bool Lia DecimalString.
From Stdlib Require DecimalZ DecimalPos.
Import ListNotations.

Local Open Scope string_scope.
Local Open Scope Z_scope.

(** ** Python values *)

(** The operations sent to the batch job are plain dictionaries. *)
#[warnings="-register-all"]
Inductive value : Type :=
| VInt (n : Z)
| VStr (s : string)
| VList (items : list value)
| VDict (entries : list (string * value)).

(** The exceptions that can come up: the builtin ones the script can
    trigger itself and whatever the client library raises. *)
Inductive exn : Type :=
| Exception (message : string)
| IndexError
| KeyError (key : string)
| TypeError
| TransportError (detail : string).

(** [container[key]] on a dictionary. *)
Fixpoint lookup (key : string) (entries : list (string * value)) : option value :=
  match entries with
  | [] => None
  | (k, v) :: rest => if String.eqb k key then Some v else lookup key rest
  end.

Definition subscript (container : value) (key : string) : exn + value :=
  match container with
  | VDict entries =>
      match lookup key entries with
      | Some v => inr v
      | None => inl (KeyError key)
      end
  | _ => inl TypeError
  end.

(** [a_list[0]] on a list. *)
Definition first_item {A : Type} (a_list : list A) : exn + A :=
  match a_list with
  | [] => inl IndexError
  | x :: _ => inr x
  end.

(** [range(stop)]: the integers [0 .. stop-1], empty when [stop <= 0]. *)
Definition range (stop : Z) : list Z :=
  map Z.of_nat (seq 0 (Z.to_nat stop)).

(** [x in range(stop)] for an integer [x]. *)
Definition in_range (x stop : Z) : bool :=
  (0 <=? x) && (x <? stop).

(** [s in a_tuple] for strings. *)
Definition in_tuple (s : string) (a_tuple : list string) : bool :=
  existsb (String.eqb s) a_tuple.

(** ['%s' % i] for an integer. *)
Definition str_of_int (i : Z) : string :=
  NilZero.string_of_int (Z.to_int i).

(** Reading a path of keys, as in [op['operand']['id']]; [None] when one of
    the subscripts would raise. *)
Fixpoint path (v : value) (keys : list string) : option value :=
  match keys with
  | [] => Some v
  | k :: rest =>
      match subscript v k with
      | inr v' => path v' rest
      | inl _ => None
      end
  end.

(** ** What the BatchJobService returns *)

(** The entries of a BatchJobService page are objects typed by the service:
    the selector asks for Id, Status and DownloadUrl, and the download URL
    is absent until the service has one. *)
Record TemporaryUrl : Type := { url : string }.

Record BatchJob : Type := {
  id : Z;
  status : string;
  downloadUrl : option TemporaryUrl
}.

Record Predicate : Type := {
  field : string;
  operator : string;
  values : list Z
}.

Record Selector : Type := {
  fields : list string;
  predicates : list Predicate
}.

(** ** Worlds, events and the monad *)

Record World : Type := {
  service_answers : nat -> exn + list BatchJob;
  randint_draws : nat -> Z;
  uuid4_draws : nat -> string;
  temporary_ids : nat -> Z
}.

Inductive Event : Type :=
| EvGet (selector : Selector) (answer : exn + list BatchJob)
| EvLogInfo (format : string) (args : list value)
| EvSleep (seconds : Z).

(** [OutOfFuel] is the outcome of a loop that was not given enough
    iterations; it is shown below never to be the outcome of the poller. *)
Inductive Outcome (A : Type) : Type :=
| Return (a : A)
| Raise (e : exn)
| OutOfFuel.

Arguments Return {A} a.
Arguments Raise {A} e.
Arguments OutOfFuel {A}.

Record Ran (A : Type) : Type := {
  outcome : Outcome A;
  world_after : World;
  events : list Event
}.

Arguments outcome {A} _.
Arguments world_after {A} _.
Arguments events {A} _.

Definition M (A : Type) : Type := World -> Ran A.

Definition ret {A : Type} (a : A) : M A :=
  fun w => {| outcome := Return a; world_after := w; events := [] |}.

Definition raise {A : Type} (e : exn) : M A :=
  fun w => {| outcome := Raise e; world_after := w; events := [] |}.

Definition out_of_fuel {A : Type} : M A :=
  fun w => {| outcome := OutOfFuel; world_after := w; events := [] |}.

Definition bind {A B : Type} (m : M A) (k : A -> M B) : M B :=
  fun w =>
    let r := m w in
    match outcome r with
    | Return a =>
        let r' := k a (world_after r) in
        {| outcome := outcome r';
           world_after := world_after r';
           events := events r ++ events r' |}
    | Raise e =>
        {| outcome := Raise e; world_after := world_after r; events := events r |}
    | OutOfFuel =>
        {| outcome := OutOfFuel; world_after := world_after r; events := events r |}
    end.

Notation "x <- m ;; k" := (bind m (fun x => k))
  (at level 61, m at next level, right associativity).
Notation "m ;; k" := (bind m (fun _ => k))
  (at level 61, right associativity).

(** A pure step that may raise. *)
Definition lift {A : Type} (r : exn + A) : M A :=
  match r with
  | inr a => ret a
  | inl e => raise e
  end.

(** [[body for x in xs]], the body evaluated from left to right. *)
Fixpoint for_each {A B : Type} (xs : list A) (body : A -> M B) : M (list B) :=
  match xs with
  | [] => ret []
  | x :: rest =>
      y <- body x ;;
      ys <- for_each rest body ;;
      ret (y :: ys)
  end.

(** [[body for x in xs for y in ys]]. *)
Definition for_each2 {A B C : Type} (xs : list A) (ys : list B)
    (body : A -> B -> M C) : M (list C) :=
  rows <- for_each xs (fun x => for_each ys (body x)) ;;
  ret (List.concat rows).

(** ** The collaborators *)

Definition next {A : Type} (answers : nat -> A) : nat -> A :=
  fun k => answers (S k).

(** The world once a collaborator has given its next answer. *)
Definition after_get (w : World) : World :=
  {| service_answers := next (service_answers w);
     randint_draws := randint_draws w;
     uuid4_draws := uuid4_draws w;
     temporary_ids := temporary_ids w |}.

Definition after_draw (w : World) : World :=
  {| service_answers := service_answers w;
     randint_draws := next (randint_draws w);
     uuid4_draws := uuid4_draws w;
     temporary_ids := temporary_ids w |}.

Definition after_uuid4 (w : World) : World :=
  {| service_answers := service_answers w;
     randint_draws := randint_draws w;
     uuid4_draws := next (uuid4_draws w);
     temporary_ids := temporary_ids w |}.

Definition after_GetId (w : World) : World :=
  {| service_answers := service_answers w;
     randint_draws := randint_draws w;
     uuid4_draws := uuid4_draws w;
     temporary_ids := next (temporary_ids w) |}.

(** [client.GetService('BatchJobService').get(selector)['entries']]: the
    next answer of the service, which is a page of entries or an error. *)
Definition BatchJobService_get (selector : Selector) : M (list BatchJob) :=
  fun w =>
    let answer := service_answers w 0%nat in
    {| outcome := match answer with
                  | inr entries => Return entries
                  | inl e => Raise e
                  end;
       world_after := after_get w;
       events := [EvGet selector answer] |}.

(** [random.randint(a, b)]; that the draw lies in [a .. b] is a hypothesis
    on the world where it matters. *)
Definition random_randint (a b : Z) : M Z :=
  fun w =>
    {| outcome := Return (randint_draws w 0%nat);
       world_after := after_draw w;
       events := [] |}.

(** [str(uuid.uuid4())]. *)
Definition uuid_uuid4 : M string :=
  fun w =>
    {| outcome := Return (uuid4_draws w 0%nat);
       world_after := after_uuid4 w;
       events := [] |}.

(** [batch_id_generator.GetId()]: the class comes from batch_job_util,
    which is not part of this script; nothing is assumed about the ids. *)
Definition GetId : M Z :=
  fun w =>
    {| outcome := Return (temporary_ids w 0%nat);
       world_after := after_GetId w;
       events := [] |}.

Definition logging_info (format : string) (args : list value) : M unit :=
  fun w =>
    {| outcome := Return tt; world_after := w;
       events := [EvLogInfo format args] |}.

Definition time_sleep (seconds : Z) : M unit :=
  fun w =>
    {| outcome := Return tt; world_after := w; events := [EvSleep seconds] |}.

(** ** The poller *)

Definition MAX_POLL_ATTEMPTS : Z := 5.

Definition PENDING_STATUSES : list string := ["ACTIVE"; "AWAITING_FILE"].

Definition GetBatchJob_selector (batch_job_id : Z) : Selector :=
  {| fields := ["Id"; "Status"; "DownloadUrl"];
     predicates := [ {| field := "Id";
                        operator := "EQUALS";
                        values := [batch_job_id] |} ] |}.

Definition GetBatchJob (batch_job_id : Z) : M BatchJob :=
  let selector := GetBatchJob_selector batch_job_id in
  entries <- BatchJobService_get selector ;;
  lift (first_item entries).

(** [30 * (2 ** poll_attempt) + (random.randint(0, 10000) / 1000)], where
    [/] divides two Python 2 integers and so rounds down. *)
Definition sleep_interval_of (poll_attempt draw : Z) : Z :=
  30 * (2 ^ poll_attempt) + draw / 1000.

Definition dquote : string := String (ascii_of_nat 34) "".

Definition not_ready_format : string :=
  "Batch Job not ready, sleeping for %s seconds.".

Definition ready_format : string :=
  "Batch Job with Id " ++ dquote ++ "%s" ++ dquote ++
  ", Status " ++ dquote ++ "%s" ++ dquote ++
  ", and DownloadUrl " ++ dquote ++ "%s" ++ dquote ++ " ready.".

Definition timeout_error : exn :=
  Exception "Batch Job not finished downloading. Try checking later.".

(** The [while] loop, one iteration per unit of fuel. *)
Fixpoint poll_loop (fuel : nat) (batch_job_id max_poll_attempts : Z)
    (batch_job : BatchJob) (poll_attempt : Z) : M string :=
  match fuel with
  | O => out_of_fuel
  | S fuel' =>
      if in_range poll_attempt max_poll_attempts
         && in_tuple (status batch_job) PENDING_STATUSES
      then
        draw <- random_randint 0 10000 ;;
        let sleep_interval := sleep_interval_of poll_attempt draw in
        logging_info not_ready_format [VInt sleep_interval] ;;
        time_sleep sleep_interval ;;
        batch_job <- GetBatchJob batch_job_id ;;
        let poll_attempt := poll_attempt + 1 in
        match downloadUrl batch_job with
        | Some download_url =>
            let url := url download_url in
            logging_info ready_format
              [VInt (id batch_job); VStr (status batch_job); VStr url] ;;
            ret url
        | None =>
            poll_loop fuel' batch_job_id max_poll_attempts batch_job poll_attempt
        end
      else raise timeout_error
  end.

Definition GetBatchJobDownloadUrlWhenReady_fuel (fuel : nat)
    (batch_job_id max_poll_attempts : Z) : M string :=
  batch_job <- GetBatchJob batch_job_id ;;
  poll_loop fuel batch_job_id max_poll_attempts batch_job 0.

(** The loop body runs at most [max_poll_attempts] times and the condition
    is tested once more. *)
Definition GetBatchJobDownloadUrlWhenReady
    (batch_job_id max_poll_attempts : Z) : M string :=
  GetBatchJobDownloadUrlWhenReady_fuel (S (Z.to_nat max_poll_attempts))
    batch_job_id max_poll_attempts.

(** ** The builders of operations *)

(** The functions below take the [batch_id_generator] of the script as the
    [temporary_ids] of the world. *)

Definition BuildBudgetOperations : M (list value) :=
  budget_uuid <- uuid_uuid4 ;;
  budget_id <- GetId ;;
  ret [ VDict [
    ("xsi_type", VStr "BudgetOperation");
    ("operand", VDict [
       ("name", VStr ("Batch budget #" ++ budget_uuid));
       ("budgetId", VInt budget_id);
       ("amount", VDict [("microAmount", VStr "50000000")]);
       ("deliveryMethod", VStr "STANDARD");
       ("period", VStr "DAILY") ]);
    ("operator", VStr "ADD") ] ].

Definition BuildCampaignOperations (budget_operations : list value)
    (number_of_campaigns : Z) : M (list value) :=
  budget_operation <- lift (first_item budget_operations) ;;
  budget_operand <- lift (subscript budget_operation "operand") ;;
  budget_id <- lift (subscript budget_operand "budgetId") ;;
  for_each (range number_of_campaigns) (fun _ =>
    campaign_uuid <- uuid_uuid4 ;;
    campaign_id <- GetId ;;
    ret (VDict [
      ("xsi_type", VStr "CampaignOperation");
      ("operand", VDict [
         ("name", VStr ("Batch Campaign #" ++ campaign_uuid));
         ("status", VStr "PAUSED");
         ("id", VInt campaign_id);
         ("advertisingChannelType", VStr "SEARCH");
         ("budget", VDict [("budgetId", budget_id)]);
         ("biddingStrategyConfiguration",
            VDict [("biddingStrategyType", VStr "MANUAL_CPC")]) ]);
      ("operator", VStr "ADD") ])).

Definition BuildAdGroupOperations (campaign_operations : list value)
    (number_of_adgroups : Z) : M (list value) :=
  for_each2 campaign_operations (range number_of_adgroups)
    (fun campaign_operation _ =>
      campaign_operand <- lift (subscript campaign_operation "operand") ;;
      campaign_id <- lift (subscript campaign_operand "id") ;;
      adgroup_id <- GetId ;;
      adgroup_uuid <- uuid_uuid4 ;;
      ret (VDict [
        ("xsi_type", VStr "AdGroupOperation");
        ("operand", VDict [
           ("campaignId", campaign_id);
           ("id", VInt adgroup_id);
           ("name", VStr ("Batch Ad Group #" ++ adgroup_uuid));
           ("biddingStrategyConfiguration", VDict [
              ("bids", VList [ VDict [
                 ("xsi_type", VStr "CpcBid");
                 ("bid", VDict [("microAmount", VInt 10000000)]) ] ]) ]) ]);
        ("operator", VStr "ADD") ])).

(** ['mars%s%s' % (i, '!!!' if i % 2 == 0 else '')]. *)
Definition keyword_text (i : Z) : string :=
  "mars" ++ str_of_int i ++ (if i mod 2 =? 0 then "!!!" else "").

Definition BuildAdGroupCriterionOperations (adgroup_operations : list value)
    (number_of_keywords : Z) : M (list value) :=
  for_each2 adgroup_operations (range number_of_keywords)
    (fun adgroup_operation i =>
      adgroup_operand <- lift (subscript adgroup_operation "operand") ;;
      adgroup_id <- lift (subscript adgroup_operand "id") ;;
      ret (VDict [
        ("xsi_type", VStr "AdGroupCriterionOperation");
        ("operand", VDict [
           ("xsi_type", VStr "BiddableAdGroupCriterion");
           ("adGroupId", adgroup_id);
           ("criterion", VDict [
              ("xsi_type", VStr "Keyword");
              ("text", VStr (keyword_text i));
              ("matchType", VStr "BROAD") ]) ]);
        ("operator", VStr "ADD") ])).

Definition BuildAdGroupAdOperations (adgroup_operations : list value)
    : M (list value) :=
  for_each adgroup_operations (fun adgroup_operation =>
    adgroup_operand <- lift (subscript adgroup_operation "operand") ;;
    adgroup_id <- lift (subscript adgroup_operand "id") ;;
    ret (VDict [
      ("xsi_type", VStr "AdGroupAdOperation");
      ("operand", VDict [
         ("adGroupId", adgroup_id);
         ("ad", VDict [
            ("xsi_type", VStr "TextAd");
            ("headline", VStr "Luxury Cruise to Mars");
            ("description1", VStr "Visit the Red Planet in style.");
            ("description2", VStr "Low-gravity fun for everyone!");
            ("displayUrl", VStr "www.example.com");
            ("finalUrls", VList [VStr "http://www.example.com/1"]) ]) ]);
      ("operator", VStr "ADD") ])).

Definition BuildCampaignCriterionOperations (campaign_operations : list value)
    : M (list value) :=
  for_each campaign_operations (fun campaign_operation =>
    campaign_operand <- lift (subscript campaign_operation "operand") ;;
    campaign_id <- lift (subscript campaign_operand "id") ;;
    ret (VDict [
      ("xsi_type", VStr "CampaignCriterionOperation");
      ("operand", VDict [
         ("xsi_type", VStr "NegativeCampaignCriterion");
         ("campaignId", campaign_id);
         ("criterion", VDict [
            ("xsi_type", VStr "Keyword");
            ("matchType", VStr "BROAD");
            ("text", VStr "venus") ]) ]);
      ("operator", VStr "ADD") ])).

(** BuildUploadUrlOperations hands each list of operations to the
    [batch_job_helper], a BatchJobHelper of batch_job_util, which is not
    part of this script: its two methods are parameters, and either may
    raise.  The generator made by [BatchJobServiceIdGenerator()] is the
    [temporary_ids] of the world. *)
Section UploadUrlOperations.

Variable GenerateRawRequestXML : list value -> string -> exn + string.
Variable ExtractOperations : string -> exn + string.

Definition BuildUploadUrlOperations
    (number_of_campaigns number_of_adgroups number_of_keywords : Z)
    : M (string * string * string * string * string * string) :=
  budget_operations <- BuildBudgetOperations ;;
  budget_request_xml <-
    lift (GenerateRawRequestXML budget_operations "BudgetService") ;;
  budget_operations_xml <- lift (ExtractOperations budget_request_xml) ;;
  campaign_operations <-
    BuildCampaignOperations budget_operations number_of_campaigns ;;
  campaign_request_xml <-
    lift (GenerateRawRequestXML campaign_operations "CampaignService") ;;
  campaign_operations_xml <- lift (ExtractOperations campaign_request_xml) ;;
  campaign_criterion_operations <-
    BuildCampaignCriterionOperations campaign_operations ;;
  campaign_criterion_request_xml <-
    lift (GenerateRawRequestXML campaign_criterion_operations
            "CampaignCriterionService") ;;
  campaign_criterion_operations_xml <-
    lift (ExtractOperations campaign_criterion_request_xml) ;;
  adgroup_operations <-
    BuildAdGroupOperations campaign_operations number_of_adgroups ;;
  adgroup_request_xml <-
    lift (GenerateRawRequestXML adgroup_operations "AdGroupService") ;;
  adgroup_operations_xml <- lift (ExtractOperations adgroup_request_xml) ;;
  adgroup_criterion_operations <-
    BuildAdGroupCriterionOperations adgroup_operations number_of_keywords ;;
  adgroup_criterion_request_xml <-
    lift (GenerateRawRequestXML adgroup_criterion_operations
            "AdGroupCriterionService") ;;
  adgroup_criterion_operations_xml <-
    lift (ExtractOperations adgroup_criterion_request_xml) ;;
  adgroup_ad_operations <- BuildAdGroupAdOperations adgroup_operations ;;
  adgroup_ad_request_xml <-
    lift (GenerateRawRequestXML adgroup_ad_operations "AdGroupAdService") ;;
  adgroup_ad_operations_xml <- lift (ExtractOperations adgroup_ad_request_xml) ;;
  ret (budget_operations_xml, campaign_operations_xml,
       campaign_criterion_operations_xml, adgroup_operations_xml,
       adgroup_criterion_operations_xml, adgroup_ad_operations_xml).

End UploadUrlOperations.

Definition NUMBER_OF_CAMPAIGNS_TO_ADD : Z := 2.
Definition NUMBER_OF_ADGROUPS_TO_ADD : Z := 2.
Definition NUMBER_OF_KEYWORDS_TO_ADD : Z := 5.

(** ** The driver *)

(** [main] also creates the job, uploads the operations and downloads the
    result.  The job that [mutate] returns is an object typed by the
    service, with an upload URL once the service has one. *)
Module Created.
Record t : Type := {
  id : Z;
  status : string;
  uploadUrl : option TemporaryUrl
}.
End Created.

(** Each of these three collaborators is called at most once by [main]: a
    session holds the one answer of each, beside the world of the poller
    and of the builders. *)
Record Session : Type := {
  session_world : World;
  mutate_answer : exn + list Created.t;
  upload_answer : exn + unit;
  urlopen_answer : exn + string
}.

Definition Operations_xml : Type :=
  (string * string * string * string * string * string)%type.

Inductive MainEvent : Type :=
| EvMutate (operations : list value)
| EvInfo (format : string) (args : list value)
| EvUpload (upload_url : string) (operations_xml : Operations_xml)
| EvWithin (e : Event)
| EvUrlopen (download_url : string).

Record MainRan (A : Type) : Type := {
  main_outcome : Outcome A;
  session_after : Session;
  main_events : list MainEvent
}.

Arguments main_outcome {A} _.
Arguments session_after {A} _.
Arguments main_events {A} _.

Definition N (A : Type) : Type := Session -> MainRan A.

Definition ret_N {A : Type} (a : A) : N A :=
  fun s => {| main_outcome := Return a; session_after := s;
              main_events := [] |}.

Definition bind_N {A B : Type} (m : N A) (k : A -> N B) : N B :=
  fun s =>
    let r := m s in
    match main_outcome r with
    | Return a =>
        let r' := k a (session_after r) in
        {| main_outcome := main_outcome r';
           session_after := session_after r';
           main_events := main_events r ++ main_events r' |}
    | Raise e =>
        {| main_outcome := Raise e; session_after := session_after r;
           main_events := main_events r |}
    | OutOfFuel =>
        {| main_outcome := OutOfFuel; session_after := session_after r;
           main_events := main_events r |}
    end.

Notation "x <~ m ;; k" := (bind_N m (fun x => k))
  (at level 61, m at next level, right associativity).
Notation "m ~;; k" := (bind_N m (fun _ => k))
  (at level 61, right associativity).

Definition lift_N {A : Type} (r : exn + A) : N A :=
  fun s => {| main_outcome := match r with
                              | inr a => Return a
                              | inl e => Raise e
                              end;
              session_after := s;
              main_events := [] |}.

(** Code of the poller and of the builders, run within [main]. *)
Definition within {A : Type} (m : M A) : N A :=
  fun s =>
    let r := m (session_world s) in
    {| main_outcome := outcome r;
       session_after := {| session_world := world_after r;
                           mutate_answer := mutate_answer s;
                           upload_answer := upload_answer s;
                           urlopen_answer := urlopen_answer s |};
       main_events := map EvWithin (events r) |}.

(** [batch_job_service.mutate(batch_job_operations)['value']]. *)
Definition BatchJobService_mutate (operations : list value)
    : N (list Created.t) :=
  fun s => {| main_outcome := match mutate_answer s with
                              | inr entries => Return entries
                              | inl e => Raise e
                              end;
              session_after := s;
              main_events := [EvMutate operations] |}.

Definition AddBatchJob : N Created.t :=
  let batch_job_operations :=
    [ VDict [("operand", VDict []); ("operator", VStr "ADD")] ] in
  entries <~ BatchJobService_mutate batch_job_operations ;;
  lift_N (first_item entries).

(** [batch_job['uploadUrl']['url']]. *)
Definition upload_url_of (batch_job : Created.t) : exn + string :=
  match Created.uploadUrl batch_job with
  | Some upload_url => inr (url upload_url)
  | None => inl (KeyError "uploadUrl")
  end.

Definition logging_info_N (format : string) (args : list value) : N unit :=
  fun s => {| main_outcome := Return tt; session_after := s;
              main_events := [EvInfo format args] |}.

(** [batch_job_helper.UploadBatchJobOperations(upload_url, *operations)]. *)
Definition UploadBatchJobOperations (upload_url : string)
    (operations : Operations_xml) : N unit :=
  fun s => {| main_outcome := match upload_answer s with
                              | inr _ => Return tt
                              | inl e => Raise e
                              end;
              session_after := s;
              main_events := [EvUpload upload_url operations] |}.

(** [urllib2.urlopen(download_url)] and the [read()] of the response. *)
Definition urlopen_read (download_url : string) : N string :=
  fun s => {| main_outcome := match urlopen_answer s with
                              | inr body => Return body
                              | inl e => Raise e
                              end;
              session_after := s;
              main_events := [EvUrlopen download_url] |}.

Definition created_format : string :=
  "Created BatchJob with ID " ++ dquote ++ "%d" ++ dquote ++
  ", status " ++ dquote ++ "%s" ++ dquote ++ ", and upload URL " ++
  dquote ++ "%s" ++ dquote.

Definition downloaded_format : string :=
  "Downloaded following response:" ++ String (ascii_of_nat 10) "%s".

Section Main.

Variable GenerateRawRequestXML : list value -> string -> exn + string.
Variable ExtractOperations : string -> exn + string.

Definition main
    (number_of_campaigns number_of_adgroups number_of_keywords : Z)
    : N unit :=
  batch_job <~ AddBatchJob ;;
  upload_url <~ lift_N (upload_url_of batch_job) ;;
  let batch_job_id := Created.id batch_job in
  logging_info_N created_format
    [VInt (Created.id batch_job); VStr (Created.status batch_job);
     VStr upload_url] ~;;
  operations <~
    within (BuildUploadUrlOperations GenerateRawRequestXML ExtractOperations
              number_of_campaigns number_of_adgroups number_of_keywords) ;;
  UploadBatchJobOperations upload_url operations ~;;
  download_url <~
    within (GetBatchJobDownloadUrlWhenReady batch_job_id MAX_POLL_ATTEMPTS) ;;
  response <~ urlopen_read download_url ;;
  logging_info_N downloaded_format [VStr response].

End Main.

(** ** Observations on a run *)

Definition is_get (e : Event) : bool :=
  match e with EvGet _ _ => true | _ => false end.

Definition is_sleep (e : Event) : bool :=
  match e with EvSleep _ => true | _ => false end.

(** How many times the job was fetched, and how many sleeps took place. *)
Definition fetch_count (trace : list Event) : nat :=
  List.length (filter is_get trace).

Definition sleep_count (trace : list Event) : nat :=
  List.length (filter is_sleep trace).

(** The durations of the sleeps, in order. *)
Fixpoint sleeps (trace : list Event) : list Z :=
  match trace with
  | [] => []
  | EvSleep seconds :: rest => seconds :: sleeps rest
  | _ :: rest => sleeps rest
  end.

(** What the [k]-th coming call of [GetBatchJob] gives (counting from 0). *)
Definition fetched (w : World) (k : nat) : exn + BatchJob :=
  match service_answers w k with
  | inr entries => first_item entries
  | inl e => inl e
  end.

Definition is_pending (batch_job : BatchJob) : bool :=
  in_tuple (status batch_job) PENDING_STATUSES.

Definition has_url (batch_job : BatchJob) (location : string) : Prop :=
  downloadUrl batch_job = Some {| url := location |}.

(** The [k]-th coming fetch reports a pending status and no download URL. *)
Definition still_pending (w : World) (k : nat) : Prop :=
  exists batch_job,
    fetched w k = inr batch_job /\ is_pending batch_job = true /\
    downloadUrl batch_job = None.

(** The [k]-th coming fetch carries the download URL [location]. *)
Definition located (w : World) (k : nat) (location : string) : Prop :=
  exists batch_job, fetched w k = inr batch_job /\ has_url batch_job location.

(** The [k]-th coming fetch reports a status that is no longer pending and
    carries the download URL [location]. *)
Definition ready (w : World) (k : nat) (location : string) : Prop :=
  exists batch_job,
    fetched w k = inr batch_job /\ is_pending batch_job = false /\
    has_url batch_job location.

(** The service gives a job a download URL only once its status is no
    longer pending. *)
Definition url_only_when_finished (w : World) : Prop :=
  forall k batch_job,
    fetched w k = inr batch_job -> is_pending batch_job = true ->
    downloadUrl batch_job = None.

(** The time a run spends sleeping, in seconds. *)
Definition total_sleep (trace : list Event) : Z :=
  fold_right Z.add 0 (sleeps trace).

(** What [GetBatchJob] makes of an answer of the service. *)
Definition fetch_result (answer : exn + list BatchJob) : exn + BatchJob :=
  match answer with
  | inr entries => first_item entries
  | inl e => inl e
  end.

(** [w'] is [w] once [n] temporary ids and [n] uuids have been taken and
    nothing else. *)
Definition advanced (n : nat) (w w' : World) : Prop :=
  (forall k, temporary_ids w' k = temporary_ids w (n + k)%nat) /\
  (forall k, uuid4_draws w' k = uuid4_draws w (n + k)%nat) /\
  service_answers w' = service_answers w /\
  randint_draws w' = randint_draws w.

(** The operation has an operand with the given temporary id. *)
Definition has_id (operation id_value : value) : Prop :=
  path operation ["operand"; "id"] = Some id_value.

(** The operation says what kind of operation it is and that it adds. *)
Definition tagged (xsi_type : string) (operation : value) : Prop :=
  path operation ["xsi_type"] = Some (VStr xsi_type) /\
  path operation ["operator"] = Some (VStr "ADD").

(** [c in s] for a character and a string. *)
Fixpoint contains_char (c : ascii) (s : string) : bool :=
  match s with
  | EmptyString => false
  | String a rest => Ascii.eqb a c || contains_char c rest
  end.

(** The value of a decimal digit, from its character code: ['0'] is 48. *)
Definition digit_value (c : ascii) : option Z :=
  let code := Z.of_nat (nat_of_ascii c) in
  if (48 <=? code) && (code <=? 57) then Some (code - 48) else None.

(** Reading a string of decimal digits from the left, starting from
    [acc]. *)
Fixpoint numeral_value (acc : Z) (s : string) : option Z :=
  match s with
  | EmptyString => Some acc
  | String c rest =>
      match digit_value c with
      | Some d => numeral_value (10 * acc + d) rest
      | None => None
      end
  end.

(** [s] is the decimal numeral of [i]: a non-empty string of decimal
    digits whose value is [i], without a leading zero (so '0', '7', '12',
    but neither '' nor '012'). *)
Definition decimal_numeral_of (i : Z) (s : string) : Prop :=
  s <> "" /\ numeral_value 0 s = Some i /\
  (forall rest, s = String "0" rest -> rest = "").

(** What the helper makes of a list of operations for a service. *)
Definition rendered (GenerateRawRequestXML : list value -> string -> exn + string)
    (ExtractOperations : string -> exn + string)
    (operations : list value) (service : string) (operations_xml : string)
    : Prop :=
  exists request_xml,
    GenerateRawRequestXML operations service = inr request_xml /\
    ExtractOperations request_xml = inr operations_xml.

(** [w'] has the same service and the same random draws to come as [w]. *)
Definition same_service (w w' : World) : Prop :=
  service_answers w' = service_answers w /\
  randint_draws w' = randint_draws w.

(** The session with another world. *)
Definition with_world (s : Session) (w : World) : Session :=
  {| session_world := w;
     mutate_answer := mutate_answer s;
     upload_answer := upload_answer s;
     urlopen_answer := urlopen_answer s |}.

(** The single operation that [AddBatchJob] sends. *)
Definition add_job_operations : list value :=
  [ VDict [("operand", VDict []); ("operator", VStr "ADD")] ].

(** The events of [main] that come from the poller. *)
Fixpoint events_within (trace : list MainEvent) : list Event :=
  match trace with
  | [] => []
  | EvWithin e :: rest => e :: events_within rest
  | _ :: rest => events_within rest
  end.

(** The URLs that [main] opens. *)
Fixpoint urls_opened (trace : list MainEvent) : list string :=
  match trace with
  | [] => []
  | EvUrlopen download_url :: rest => download_url :: urls_opened rest
  | _ :: rest => urls_opened rest
  end.

(** The uploads that [main] makes. *)
Fixpoint uploads (trace : list MainEvent) : list (string * Operations_xml) :=
  match trace with
  | [] => []
  | EvUpload upload_url operations :: rest =>
      (upload_url, operations) :: uploads rest
  | _ :: rest => uploads rest
  end.

(** The job that [AddBatchJob] gets from the service, when it gets one. *)
Definition created (s : Session) : exn + Created.t :=
  match mutate_answer s with
  | inr entries => first_item entries
  | inl e => inl e
  end.

(** ** Test doubles *)

(** A world that plays a script of service answers and then repeats a last
    answer for ever, with given draws for the jitter. *)
Definition scripted (script : list (exn + list BatchJob))
    (then_always : exn + list BatchJob) (draws : nat -> Z) : World :=
  {| service_answers := fun k => nth k script then_always;
     randint_draws := draws;
     uuid4_draws := fun k => "uuid-" ++ str_of_int (Z.of_nat k);
     temporary_ids := fun k => - Z.of_nat (S k) |}.

Definition job (job_status : string) (location : option string) : BatchJob :=
  {| id := 42;
     status := job_status;
     downloadUrl := match location with
                    | Some l => Some {| url := l |}
                    | None => None
                    end |}.

Definition answers (batch_job : BatchJob) : exn + list BatchJob :=
  inr [batch_job].

Definition pending_stub : exn + list BatchJob := answers (job "ACTIVE" None).

Definition ready_stub (location : string) : exn + list BatchJob :=
  answers (job "DONE" (Some location)).

Definition test_world : World := scripted [] pending_stub (fun _ => 0).

(** A session in which the job is created and uploaded to, and the
    download gives a response. *)
Definition created_job : Created.t :=
  {| Created.id := 42;
     Created.status := "AWAITING_FILE";
     Created.uploadUrl := Some {| url := "https://batch/upload" |} |}.

Definition session_of (w : World) : Session :=
  {| session_world := w;
     mutate_answer := inr [created_job];
     upload_answer := inr tt;
     urlopen_answer := inr "<mutateResponse/>" |}.

(** A helper that never fails: it only counts the operations. *)
Definition counting_GenerateRawRequestXML (operations : list value)
    (service : string) : exn + string :=
  inr (service ++ ":" ++ str_of_int (Z.of_nat (List.length operations))).

Definition plain_ExtractOperations (request_xml : string) : exn + string :=
  inr request_xml.

Definition returned {A : Type} (r : Ran (list A)) : list A :=
  match outcome r with
  | Return xs => xs
  | _ => []
  end.

(** The budget operation and the ad-group operations that the script itself
    builds, for 2 campaigns of 2 ad groups each. *)
Definition sample_budget_operations : list value :=
  Eval vm_compute in returned (BuildBudgetOperations test_world).

Definition sample_adgroup_operations : list value :=
  Eval vm_compute in
  returned ((budget_operations <- BuildBudgetOperations ;;
             campaign_operations <- BuildCampaignOperations budget_operations 2 ;;
             BuildAdGroupOperations campaign_operations 2) test_world).

(** ** The shape of a run *)

(** The three events of one sleep-and-fetch cycle of the loop. *)
Definition cycle_events (batch_job_id poll_attempt : Z) (w : World)
    : list Event :=
  let sleep_interval :=
    sleep_interval_of poll_attempt (randint_draws w 0%nat) in
  [ EvLogInfo not_ready_format [VInt sleep_interval];
    EvSleep sleep_interval;
    EvGet (GetBatchJob_selector batch_job_id) (service_answers w 0%nat) ].

(** The events the loop writes: sleep-and-fetch cycles, then possibly the
    record that announces the URL. *)
Inductive cycles : list Event -> Prop :=
| cycles_done : cycles []
| cycles_ready (format : string) (args : list value) :
    cycles [EvLogInfo format args]
| cycles_again (format : string) (args : list value) (seconds : Z)
    (selector : Selector) (answer : exn + list BatchJob) (rest : list Event) :
    cycles rest ->
    cycles (EvLogInfo format args :: EvSleep seconds
            :: EvGet selector answer :: rest).

(** * Properties *)

(** ** Running the monad *)

Lemma fetched_after_get (w : World) (k : nat) :
  fetched (after_get w) k = fetched w (S k).
Proof. reflexivity. Qed.

Lemma fetched_after_draw (w : World) (k : nat) :
  fetched (after_draw w) k = fetched w k.
Proof. reflexivity. Qed.

Lemma run_bind_return {A B : Type} (m : M A) (k : A -> M B) (w w1 : World)
    (a : A) (t : list Event) :
  m w = {| outcome := Return a; world_after := w1; events := t |} ->
  bind m k w =
  {| outcome := outcome (k a w1);
     world_after := world_after (k a w1);
     events := t ++ events (k a w1) |}.
Proof. unfold bind; intros ->; reflexivity. Qed.

Lemma run_bind_raise {A B : Type} (m : M A) (k : A -> M B) (w w1 : World)
    (e : exn) (t : list Event) :
  m w = {| outcome := Raise e; world_after := w1; events := t |} ->
  bind m k w = {| outcome := Raise e; world_after := w1; events := t |}.
Proof. unfold bind; intros ->; reflexivity. Qed.

Lemma GetBatchJob_run (batch_job_id : Z) (w : World) :
  GetBatchJob batch_job_id w =
  {| outcome := match fetched w 0 with
                | inr batch_job => Return batch_job
                | inl e => Raise e
                end;
     world_after := after_get w;
     events := [EvGet (GetBatchJob_selector batch_job_id)
                  (service_answers w 0%nat)] |}.
Proof.
  unfold GetBatchJob, bind, BatchJobService_get, fetched; simpl.
  destruct (service_answers w 0%nat) as [e | [ | entry entries]]; reflexivity.
Qed.

Lemma fetch_count_app (t1 t2 : list Event) :
  fetch_count (t1 ++ t2) = (fetch_count t1 + fetch_count t2)%nat.
Proof. unfold fetch_count. rewrite filter_app, length_app. reflexivity. Qed.

Lemma sleep_count_app (t1 t2 : list Event) :
  sleep_count (t1 ++ t2) = (sleep_count t1 + sleep_count t2)%nat.
Proof. unfold sleep_count. rewrite filter_app, length_app. reflexivity. Qed.

Lemma sleeps_app (t1 t2 : list Event) :
  sleeps (t1 ++ t2) = (sleeps t1 ++ sleeps t2)%list.
Proof.
  induction t1 as [ | e t1 IH]; simpl; [reflexivity | ].
  destruct e; simpl; rewrite IH; reflexivity.
Qed.

(** ** One turn of the loop *)

Section PollLoop.

Variables batch_job_id max_poll_attempts : Z.

Local Abbreviation loop fuel :=
  (poll_loop fuel batch_job_id max_poll_attempts) (only parsing).

Lemma poll_loop_exit fuel batch_job poll_attempt w :
  in_range poll_attempt max_poll_attempts && is_pending batch_job = false ->
  loop (S fuel) batch_job poll_attempt w = raise timeout_error w.
Proof.
  unfold is_pending; simpl; intros ->; reflexivity.
Qed.

Lemma poll_loop_turn fuel batch_job poll_attempt w :
  in_range poll_attempt max_poll_attempts && is_pending batch_job = true ->
  loop (S fuel) batch_job poll_attempt w =
  match fetched w 0 with
  | inl e =>
      {| outcome := Raise e;
         world_after := after_get (after_draw w);
         events := cycle_events batch_job_id poll_attempt w |}
  | inr fresh =>
      match downloadUrl fresh with
      | Some download_url =>
          {| outcome := Return (url download_url);
             world_after := after_get (after_draw w);
             events := cycle_events batch_job_id poll_attempt w ++
               [EvLogInfo ready_format
                  [VInt (id fresh); VStr (status fresh);
                   VStr (url download_url)]] |}
      | None =>
          let r := loop fuel fresh (poll_attempt + 1)
                     (after_get (after_draw w)) in
          {| outcome := outcome r;
             world_after := world_after r;
             events := cycle_events batch_job_id poll_attempt w ++ events r |}
      end
  end.
Proof.
  unfold is_pending; simpl; intros ->.
  erewrite run_bind_return by reflexivity.
  erewrite run_bind_return by reflexivity.
  erewrite run_bind_return by reflexivity.
  pose proof (GetBatchJob_run batch_job_id (after_draw w)) as Hget.
  rewrite fetched_after_draw in Hget.
  destruct (fetched w 0) as [e | fresh].
  - erewrite run_bind_raise by exact Hget. reflexivity.
  - erewrite run_bind_return by exact Hget.
    destruct (downloadUrl fresh) as [download_url | ]; reflexivity.
Qed.

Lemma in_range_true x stop :
  in_range x stop = true <-> 0 <= x < stop.
Proof. unfold in_range. rewrite andb_true_iff. lia. Qed.

Lemma turn_condition batch_job poll_attempt :
  in_range poll_attempt max_poll_attempts && is_pending batch_job = true <->
  (0 <= poll_attempt < max_poll_attempts) /\ is_pending batch_job = true.
Proof. rewrite andb_true_iff, in_range_true. tauto. Qed.

(** Whether the condition of the [while] holds, and the loop unfolded
    accordingly: one more turn, or the exit. *)
Ltac loop_cases Hc :=
  match goal with
  | |- context [poll_loop (S _) _ ?budget ?batch_job ?attempt _] =>
      destruct (in_range attempt budget && is_pending batch_job) eqn:Hc;
      [ rewrite !poll_loop_turn by exact Hc
      | rewrite !poll_loop_exit by exact Hc ]
  end.

Lemma fetch_count_cycle poll_attempt w :
  fetch_count (cycle_events batch_job_id poll_attempt w) = 1%nat.
Proof. reflexivity. Qed.

Lemma sleep_count_cycle poll_attempt w :
  sleep_count (cycle_events batch_job_id poll_attempt w) = 1%nat.
Proof. reflexivity. Qed.

(** *** Fuel *)

Lemma poll_loop_enough_fuel fuel : forall batch_job poll_attempt w,
  (Z.to_nat (max_poll_attempts - poll_attempt) < fuel)%nat ->
  outcome (loop fuel batch_job poll_attempt w) <> OutOfFuel.
Proof.
  induction fuel as [ | fuel IH]; intros batch_job poll_attempt w Hfuel;
    [lia | ].
  loop_cases Hc.
  - apply turn_condition in Hc as [Hrange _].
    destruct (fetched w 0) as [e | fresh]; [discriminate | ].
    destruct (downloadUrl fresh); [discriminate | ].
    simpl. apply IH. lia.
  - discriminate.
Qed.

Lemma poll_loop_fuel_irrelevant fuel : forall fuel' batch_job poll_attempt w,
  (Z.to_nat (max_poll_attempts - poll_attempt) < fuel)%nat ->
  (Z.to_nat (max_poll_attempts - poll_attempt) < fuel')%nat ->
  loop fuel batch_job poll_attempt w = loop fuel' batch_job poll_attempt w.
Proof.
  induction fuel as [ | fuel IH];
    intros fuel' batch_job poll_attempt w Hfuel Hfuel'; [lia | ].
  destruct fuel' as [ | fuel']; [lia | ].
  loop_cases Hc.
  - apply turn_condition in Hc as [Hrange _].
    destruct (fetched w 0) as [e | fresh]; [reflexivity | ].
    destruct (downloadUrl fresh); [reflexivity | ].
    rewrite (IH fuel') by lia. reflexivity.
  - reflexivity.
Qed.

(** *** Counting fetches and sleeps *)

Lemma poll_loop_counts fuel : forall batch_job poll_attempt w,
  let r := loop fuel batch_job poll_attempt w in
  sleep_count (events r) = fetch_count (events r) /\
  (fetch_count (events r) <= Z.to_nat (max_poll_attempts - poll_attempt))%nat.
Proof.
  induction fuel as [ | fuel IH]; intros batch_job poll_attempt w.
  { split; [reflexivity | apply Nat.le_0_l]. }
  cbv zeta.
  loop_cases Hc.
  - apply turn_condition in Hc as [Hrange _].
    destruct (fetched w 0) as [e | fresh]; cbn [events].
    { split; [reflexivity | ]. rewrite fetch_count_cycle. lia. }
    destruct (downloadUrl fresh); cbv zeta; cbn [events];
      rewrite fetch_count_app, sleep_count_app, fetch_count_cycle,
        sleep_count_cycle.
    { split; [reflexivity | ].
      change (fetch_count [EvLogInfo _ _]) with 0%nat. lia. }
    specialize (IH fresh (poll_attempt + 1) (after_get (after_draw w))).
    cbv zeta in IH. destruct IH as [IH1 IH2]. split; lia.
  - split; [reflexivity | apply Nat.le_0_l].
Qed.

(** *** The order of the events *)

Lemma poll_loop_cycles fuel : forall batch_job poll_attempt w,
  cycles (events (loop fuel batch_job poll_attempt w)).
Proof.
  induction fuel as [ | fuel IH]; intros batch_job poll_attempt w.
  { apply cycles_done. }
  loop_cases Hc.
  - destruct (fetched w 0) as [e | fresh]; simpl.
    { apply cycles_again, cycles_done. }
    destruct (downloadUrl fresh); simpl.
    + apply cycles_again, cycles_ready.
    + apply cycles_again, IH.
  - apply cycles_done.
Qed.

(** *** How the loop ends *)

Lemma poll_loop_ends fuel : forall batch_job poll_attempt w,
  (Z.to_nat (max_poll_attempts - poll_attempt) < fuel)%nat ->
  let r := loop fuel batch_job poll_attempt w in
  (exists location, outcome r = Return location) \/
  outcome r = Raise timeout_error \/
  (exists k e, (k < Z.to_nat (max_poll_attempts - poll_attempt))%nat /\
               fetched w k = inl e /\ outcome r = Raise e).
Proof.
  induction fuel as [ | fuel IH]; intros batch_job poll_attempt w Hfuel;
    [lia | ].
  cbv zeta.
  loop_cases Hc.
  - apply turn_condition in Hc as [Hrange _].
    destruct (fetched w 0) as [e | fresh] eqn:Hfetch; cbn [outcome].
    { right; right. exists 0%nat, e. repeat split; [lia | exact Hfetch]. }
    destruct (downloadUrl fresh) as [download_url | ]; cbv zeta;
      cbn [outcome].
    { left. eexists. reflexivity. }
    destruct (IH fresh (poll_attempt + 1) (after_get (after_draw w)))
      as [Hret | [Hout | (k & e & Hk & Hfail & Hraise)]];
      [lia | left; exact Hret | right; left; exact Hout | ].
    right; right. exists (S k), e. repeat split; [lia | exact Hfail | exact Hraise].
  - right; left. reflexivity.
Qed.

(** An error of the service ends the run at once, with that error. *)
Lemma poll_loop_transport fuel : forall batch_job poll_attempt w selector e,
  let r := loop fuel batch_job poll_attempt w in
  In (EvGet selector (inl e)) (events r) ->
  outcome r = Raise e /\
  exists before, events r = (before ++ [EvGet selector (inl e)])%list.
Proof.
  induction fuel as [ | fuel IH]; intros batch_job poll_attempt w selector e;
    cbv zeta.
  { intros []. }
  assert (Hcycle : forall entries,
    service_answers w 0%nat = inr entries ->
    ~ In (EvGet selector (inl e)) (cycle_events batch_job_id poll_attempt w)).
  { intros entries Hanswer. unfold cycle_events. rewrite Hanswer.
    intros [H | [H | [H | []]]]; discriminate. }
  loop_cases Hc.
  - unfold fetched.
    destruct (service_answers w 0%nat) as [e' | entries] eqn:Hanswer.
    + cbn [events outcome]. unfold cycle_events. rewrite Hanswer.
      intros [H | [H | [H | []]]]; try discriminate.
      injection H as -> ->. split; [reflexivity | ].
      eexists [_; _]. reflexivity.
    + specialize (Hcycle entries eq_refl).
      destruct (first_item entries) as [e' | fresh].
      { cbn [events]. intros H. contradiction. }
      destruct (downloadUrl fresh) as [download_url | ]; cbv zeta;
        cbn [events outcome]; intros H; apply in_app_or in H as [H | H];
        try contradiction.
      { destruct H as [H | []]. discriminate. }
      destruct (IH _ _ _ _ _ H) as [Hraise [before Hevents]].
      split; [exact Hraise | ].
      exists (cycle_events batch_job_id poll_attempt w ++ before)%list.
      rewrite Hevents, app_assoc. reflexivity.
  - intros [].
Qed.

(** *** When the loop returns *)

Lemma poll_loop_returns m : forall fuel batch_job poll_attempt w location,
  (Z.to_nat (max_poll_attempts - poll_attempt) < fuel)%nat ->
  is_pending batch_job = true ->
  0 <= poll_attempt ->
  poll_attempt + Z.of_nat m < max_poll_attempts ->
  (forall k, (k < m)%nat -> still_pending w k) ->
  located w m location ->
  let r := loop fuel batch_job poll_attempt w in
  outcome r = Return location /\
  fetch_count (events r) = S m /\ sleep_count (events r) = S m.
Proof.
  induction m as [ | m IH];
    intros fuel batch_job poll_attempt w location Hfuel Hpending Hpos Hmax
      Hbefore (found & Hfound & Hurl); cbv zeta.
  - destruct fuel as [ | fuel]; [lia | ].
    rewrite poll_loop_turn by (apply turn_condition; split; [lia | assumption]).
    rewrite Hfound, Hurl. cbn [outcome events url].
    rewrite fetch_count_app, sleep_count_app, fetch_count_cycle,
      sleep_count_cycle.
    repeat split.
  - destruct fuel as [ | fuel]; [lia | ].
    rewrite poll_loop_turn by (apply turn_condition; split; [lia | assumption]).
    destruct (Hbefore 0%nat) as (fresh & Hfresh & Hstill & Hnone); [lia | ].
    rewrite Hfresh, Hnone. cbv zeta; cbn [outcome events].
    rewrite fetch_count_app, sleep_count_app, fetch_count_cycle,
      sleep_count_cycle.
    destruct (IH fuel fresh (poll_attempt + 1) (after_get (after_draw w))
                location) as (Hret & Hfetches & Hsleeps);
      try lia; try assumption.
    + intros k Hk. apply (Hbefore (S k)). lia.
    + exists found. split; assumption.
    + rewrite Hret, Hfetches, Hsleeps. repeat split.
Qed.

Lemma poll_loop_returns_only fuel : forall batch_job poll_attempt w location,
  outcome (loop fuel batch_job poll_attempt w) = Return location ->
  is_pending batch_job = true /\
  exists m, 0 <= poll_attempt /\
            poll_attempt + Z.of_nat m < max_poll_attempts /\
            (forall k, (k < m)%nat -> still_pending w k) /\
            located w m location.
Proof.
  induction fuel as [ | fuel IH]; intros batch_job poll_attempt w location.
  { discriminate. }
  loop_cases Hc.
  - apply turn_condition in Hc as [Hrange Hpending].
    destruct (fetched w 0) as [e | fresh] eqn:Hfetch; [discriminate | ].
    destruct (downloadUrl fresh) as [[found] | ] eqn:Hurl; cbv zeta;
      cbn [outcome url].
    + intros [= <-]. split; [assumption | ].
      exists 0%nat. repeat split; try lia.
      exists fresh. split; assumption.
    + intros Hret. apply IH in Hret as [Hfresh (m & _ & Hmax & Hbefore & Hloc)].
      split; [assumption | ].
      exists (S m). repeat split; try lia; [ | exact Hloc].
      intros [ | k] Hk.
      * exists fresh. repeat split; assumption.
      * apply (Hbefore k). lia.
  - discriminate.
Qed.

(** *** When the loop gives up *)

Lemma poll_loop_times_out fuel : forall batch_job poll_attempt w,
  (Z.to_nat (max_poll_attempts - poll_attempt) < fuel)%nat ->
  0 <= poll_attempt ->
  is_pending batch_job = true ->
  (forall k, (k < Z.to_nat (max_poll_attempts - poll_attempt))%nat ->
             still_pending w k) ->
  let r := loop fuel batch_job poll_attempt w in
  outcome r = Raise timeout_error /\
  fetch_count (events r) = Z.to_nat (max_poll_attempts - poll_attempt) /\
  sleep_count (events r) = Z.to_nat (max_poll_attempts - poll_attempt).
Proof.
  induction fuel as [ | fuel IH];
    intros batch_job poll_attempt w Hfuel Hpos Hpending Hall; [lia | ].
  cbv zeta.
  loop_cases Hc.
  - apply turn_condition in Hc as [Hrange _].
    destruct (Hall 0%nat) as (fresh & Hfresh & Hstill & Hnone); [lia | ].
    rewrite Hfresh, Hnone. cbv zeta; cbn [outcome events].
    rewrite fetch_count_app, sleep_count_app, fetch_count_cycle,
      sleep_count_cycle.
    destruct (IH fresh (poll_attempt + 1) (after_get (after_draw w)))
      as (Hout & Hfetches & Hsleeps); try lia; try assumption.
    + intros k Hk. apply (Hall (S k)). lia.
    + rewrite Hout, Hfetches, Hsleeps. repeat split; lia.
  - rewrite andb_false_iff in Hc.
    assert (Hout : max_poll_attempts <= poll_attempt).
    { destruct Hc as [Hc | Hc]; [ | congruence].
      unfold in_range in Hc. rewrite andb_false_iff in Hc. lia. }
    replace (Z.to_nat (max_poll_attempts - poll_attempt)) with 0%nat by lia.
    repeat split.
Qed.

(** *** The sleeps of the loop *)

Lemma poll_loop_sleeps fuel : forall batch_job poll_attempt w i seconds,
  nth_error (sleeps (events (loop fuel batch_job poll_attempt w))) i
    = Some seconds ->
  seconds = sleep_interval_of (poll_attempt + Z.of_nat i) (randint_draws w i).
Proof.
  induction fuel as [ | fuel IH]; intros batch_job poll_attempt w i seconds.
  { destruct i; discriminate. }
  loop_cases Hc.
  - assert (Hhere : forall rest,
      nth_error (sleeps (cycle_events batch_job_id poll_attempt w ++ rest)) 0 = Some seconds ->
      seconds = sleep_interval_of (poll_attempt + 0) (randint_draws w 0%nat)).
    { intros rest [= <-]. rewrite Z.add_0_r. reflexivity. }
    destruct (fetched w 0) as [e | fresh].
    { cbn [events]. destruct i as [ | i]; [ | destruct i; discriminate].
      rewrite <- (app_nil_r (cycle_events batch_job_id poll_attempt w)). apply Hhere. }
    destruct (downloadUrl fresh) as [download_url | ]; cbv zeta; cbn [events].
    { destruct i as [ | i]; [apply Hhere | destruct i; discriminate]. }
    destruct i as [ | i]; [apply Hhere | ].
    change (sleeps (cycle_events batch_job_id poll_attempt w ++ ?rest))
      with (sleep_interval_of poll_attempt (randint_draws w 0%nat)
            :: sleeps rest).
    cbn [nth_error]. intros Hnth. apply IH in Hnth. rewrite Hnth.
    f_equal. lia.
  - destruct i; discriminate.
Qed.

End PollLoop.

(** ** The whole poller *)

Lemma poller_run_fuel (fuel : nat) (batch_job_id max_poll_attempts : Z)
    (w : World) :
  GetBatchJobDownloadUrlWhenReady_fuel fuel batch_job_id max_poll_attempts w =
  match fetched w 0 with
  | inl e =>
      {| outcome := Raise e;
         world_after := after_get w;
         events := [EvGet (GetBatchJob_selector batch_job_id)
                      (service_answers w 0%nat)] |}
  | inr batch_job =>
      let r := poll_loop fuel batch_job_id max_poll_attempts batch_job 0
                 (after_get w) in
      {| outcome := outcome r;
         world_after := world_after r;
         events := EvGet (GetBatchJob_selector batch_job_id)
                     (service_answers w 0%nat) :: events r |}
  end.
Proof.
  unfold GetBatchJobDownloadUrlWhenReady_fuel.
  pose proof (GetBatchJob_run batch_job_id w) as Hget.
  destruct (fetched w 0) as [e | batch_job].
  - erewrite run_bind_raise by exact Hget. reflexivity.
  - erewrite run_bind_return by exact Hget. reflexivity.
Qed.

Lemma poller_run (batch_job_id max_poll_attempts : Z) (w : World) :
  GetBatchJobDownloadUrlWhenReady batch_job_id max_poll_attempts w =
  match fetched w 0 with
  | inl e =>
      {| outcome := Raise e;
         world_after := after_get w;
         events := [EvGet (GetBatchJob_selector batch_job_id)
                      (service_answers w 0%nat)] |}
  | inr batch_job =>
      let r := poll_loop (S (Z.to_nat max_poll_attempts)) batch_job_id
                 max_poll_attempts batch_job 0 (after_get w) in
      {| outcome := outcome r;
         world_after := world_after r;
         events := EvGet (GetBatchJob_selector batch_job_id)
                     (service_answers w 0%nat) :: events r |}
  end.
Proof. apply poller_run_fuel. Qed.

Lemma enough_fuel (max_poll_attempts : Z) :
  (Z.to_nat (max_poll_attempts - 0) < S (Z.to_nat max_poll_attempts))%nat.
Proof. rewrite Z.sub_0_r. apply Nat.lt_succ_diag_r. Qed.

Lemma fetch_count_cons_get selector answer trace :
  fetch_count (EvGet selector answer :: trace) = S (fetch_count trace).
Proof. reflexivity. Qed.

Lemma sleep_count_cons_get selector answer trace :
  sleep_count (EvGet selector answer :: trace) = sleep_count trace.
Proof. reflexivity. Qed.

Lemma poller_ends (w : World) (batch_job_id max_poll_attempts : Z) :
  (forall k, (k <= Z.to_nat max_poll_attempts)%nat ->
             exists batch_job, fetched w k = inr batch_job) ->
  let r := GetBatchJobDownloadUrlWhenReady batch_job_id max_poll_attempts w in
  (exists location, outcome r = Return location) \/
  outcome r = Raise timeout_error.
Proof.
  intros Hanswers; cbv zeta. rewrite poller_run.
  destruct (Hanswers 0%nat) as [batch_job Hfirst]; [lia | ].
  rewrite Hfirst; cbv zeta; cbn [outcome].
  destruct (poll_loop_ends batch_job_id max_poll_attempts
              (S (Z.to_nat max_poll_attempts)) batch_job 0 (after_get w)
              (enough_fuel max_poll_attempts))
    as [Hret | [Hout | (k & e & Hk & Hfail & _)]];
    [left; exact Hret | right; exact Hout | exfalso].
  rewrite Z.sub_0_r in Hk. rewrite fetched_after_get in Hfail.
  destruct (Hanswers (S k)) as [j Hj]; [lia | congruence].
Qed.

(** *** Test doubles that stay pending *)

Lemma pending_stub_still_pending (script_draws : nat -> Z) (k : nat) :
  still_pending (scripted [] pending_stub script_draws) k.
Proof.
  exists (job "ACTIVE" None). unfold fetched; simpl.
  destruct k; repeat split.
Qed.

Lemma pending_stub_fetched (script_draws : nat -> Z) (k : nat) :
  fetched (scripted [] pending_stub script_draws) k = inr (job "ACTIVE" None).
Proof. unfold fetched; simpl. destruct k; reflexivity. Qed.

(** ** The first fetch *)

(** C4: when the fetch made before the loop already reports a status that is
    not pending, then whatever the attempt budget and whether or not that
    fetch carries a download URL, the loop body never runs (the run consists
    of that single fetch: no sleep, no further fetch) and the timeout error
    is raised. *)
Theorem first_fetch_not_pending_times_out
    (w : World) (batch_job_id max_poll_attempts : Z) (batch_job : BatchJob) :
  fetched w 0 = inr batch_job ->
  is_pending batch_job = false ->
  let r := GetBatchJobDownloadUrlWhenReady batch_job_id max_poll_attempts w in
  outcome r = Raise timeout_error /\
  events r = [EvGet (GetBatchJob_selector batch_job_id)
                (service_answers w 0%nat)] /\
  fetch_count (events r) = 1%nat /\ sleep_count (events r) = 0%nat.
Proof.
  intros Hfetch Hdone; cbv zeta.
  rewrite poller_run, Hfetch; cbv zeta.
  rewrite poll_loop_exit by (rewrite Hdone; apply andb_false_r).
  repeat split.
Qed.

Lemma first_fetch_not_pending_times_out_witness :
  let w := scripted [] (ready_stub "https://batch/result") (fun _ => 0) in
  let r := GetBatchJobDownloadUrlWhenReady 42 1 w in
  outcome r = Raise timeout_error /\
  events r = [EvGet (GetBatchJob_selector 42) (service_answers w 0%nat)] /\
  fetch_count (events r) = 1%nat /\ sleep_count (events r) = 0%nat.
Proof.
  exact (first_fetch_not_pending_times_out
           (scripted [] (ready_stub "https://batch/result") (fun _ => 0))
           42 1 (job "DONE" (Some "https://batch/result"))
           eq_refl eq_refl).
Defined.

(** C2, at N = 1: the stub is ready with a location on the very first
    fetch and the budget is 5, yet the poller raises the timeout error after
    that one fetch instead of returning the location. *)
Theorem ready_on_first_fetch_is_missed :
  let w := scripted [] (ready_stub "https://batch/result") (fun _ => 0) in
  let r := GetBatchJobDownloadUrlWhenReady 42 MAX_POLL_ATTEMPTS w in
  located w 0 "https://batch/result" /\
  outcome r = Raise timeout_error /\
  outcome r <> Return "https://batch/result" /\
  fetch_count (events r) = 1%nat.
Proof.
  cbv zeta. split.
  - exists (job "DONE" (Some "https://batch/result")). split; reflexivity.
  - repeat split. discriminate.
Qed.

(** For N >= 2 the poller does what C2 says: pending on the first N-1
    fetches, a location on the N-th, and a budget of at least N-1 turns. *)
Lemma ready_on_nth_fetch (w : World) (batch_job_id max_poll_attempts : Z)
    (n : nat) (location : string) :
  (2 <= n)%nat ->
  Z.of_nat n - 1 <= max_poll_attempts ->
  (exists batch_job, fetched w 0 = inr batch_job /\ is_pending batch_job = true) ->
  (forall k, (1 <= k < n - 1)%nat -> still_pending w k) ->
  located w (n - 1) location ->
  let r := GetBatchJobDownloadUrlWhenReady batch_job_id max_poll_attempts w in
  outcome r = Return location /\
  fetch_count (events r) = n /\ sleep_count (events r) = (n - 1)%nat.
Proof.
  intros Hn Hmax (batch_job & Hfirst & Hpending) Hbefore Hlocated; cbv zeta.
  rewrite poller_run, Hfirst; cbv zeta; cbn [outcome events].
  rewrite fetch_count_cons_get, sleep_count_cons_get.
  destruct (poll_loop_returns batch_job_id max_poll_attempts (n - 2)
              (S (Z.to_nat max_poll_attempts)) batch_job 0 (after_get w)
              location) as (Hret & Hfetches & Hsleeps);
    try assumption; try lia.
  - intros k Hk. destruct (Hbefore (S k)) as (j & Hj & Hrest); [lia | ].
    exists j. rewrite fetched_after_get. split; assumption.
  - destruct Hlocated as (j & Hj & Hurl). exists j.
    rewrite fetched_after_get. replace (S (n - 2)) with (n - 1)%nat by lia.
    split; assumption.
  - rewrite Hret, Hfetches, Hsleeps. repeat split; lia.
Qed.

(** Scenario A: budget 5, pending on fetches 1 to 4, ready on fetch 5. *)
Example scenario_A :
  let w := scripted [pending_stub; pending_stub; pending_stub; pending_stub]
             (ready_stub "https://batch/result") (fun _ => 0) in
  let r := GetBatchJobDownloadUrlWhenReady 42 5 w in
  outcome r = Return "https://batch/result" /\ fetch_count (events r) = 5%nat.
Proof. cbv zeta. split; reflexivity. Qed.

(** ** Running out of attempts *)

(** C3 as stated fails: with budget 3 and a stub that is always pending, the
    timeout comes after 4 fetches (the one before the loop and 3 in it),
    not 3. *)
Lemma always_pending_budget_3_fetches_4_times :
  let w := scripted [] pending_stub (fun _ => 0) in
  let r := GetBatchJobDownloadUrlWhenReady 42 3 w in
  (forall k, still_pending w k) /\
  outcome r = Raise timeout_error /\
  fetch_count (events r) = 4%nat /\
  fetch_count (events r) <> 3%nat.
Proof.
  cbv zeta. split; [apply pending_stub_still_pending | ].
  repeat split. discriminate.
Qed.

(** C3, amended: when the first fetch reports a pending status and each of
    the [B] fetches of the loop reports a pending status and no download
    URL, the poller raises the timeout error after exactly [B + 1] fetches
    and [B] sleeps, and returns nothing. *)
Theorem always_pending_times_out
    (w : World) (batch_job_id max_poll_attempts : Z) :
  0 <= max_poll_attempts ->
  (exists batch_job, fetched w 0 = inr batch_job /\ is_pending batch_job = true) ->
  (forall k, (1 <= k <= Z.to_nat max_poll_attempts)%nat -> still_pending w k) ->
  let r := GetBatchJobDownloadUrlWhenReady batch_job_id max_poll_attempts w in
  outcome r = Raise timeout_error /\
  (forall location, outcome r <> Return location) /\
  Z.of_nat (fetch_count (events r)) = max_poll_attempts + 1 /\
  Z.of_nat (sleep_count (events r)) = max_poll_attempts.
Proof.
  intros Hbudget (batch_job & Hfirst & Hpending) Hall; cbv zeta.
  rewrite poller_run, Hfirst; cbv zeta; cbn [outcome events].
  rewrite fetch_count_cons_get, sleep_count_cons_get.
  destruct (poll_loop_times_out batch_job_id max_poll_attempts
              (S (Z.to_nat max_poll_attempts)) batch_job 0 (after_get w))
    as (Hout & Hfetches & Hsleeps); try assumption; try lia.
  - intros k Hk. destruct (Hall (S k)) as (j & Hj & Hrest); [lia | ].
    exists j. rewrite fetched_after_get. split; assumption.
  - rewrite Hout, Hfetches, Hsleeps.
    repeat split; try lia. discriminate.
Qed.

Lemma always_pending_times_out_witness :
  let r := GetBatchJobDownloadUrlWhenReady 42 3
             (scripted [] pending_stub (fun _ => 0)) in
  outcome r = Raise timeout_error /\
  (forall location, outcome r <> Return location) /\
  Z.of_nat (fetch_count (events r)) = 3 + 1 /\
  Z.of_nat (sleep_count (events r)) = 3.
Proof.
  apply (always_pending_times_out (scripted [] pending_stub (fun _ => 0)) 42 3).
  - lia.
  - exists (job "ACTIVE" None). split; reflexivity.
  - intros k _. apply pending_stub_still_pending.
Defined.

(** ** Errors of the service *)

(** C7: when a fetch of the run raises (the service answers with an error
    [e]), the poller raises that same error [e] and that fetch is the last
    thing it does: the error is not caught, the fetch is not tried again,
    and the error is not replaced by the timeout error. *)
Theorem transport_error_propagates
    (w : World) (batch_job_id max_poll_attempts : Z)
    (selector : Selector) (e : exn) :
  let r := GetBatchJobDownloadUrlWhenReady batch_job_id max_poll_attempts w in
  In (EvGet selector (inl e)) (events r) ->
  outcome r = Raise e /\
  exists before, events r = (before ++ [EvGet selector (inl e)])%list.
Proof.
  cbv zeta. rewrite poller_run. unfold fetched.
  destruct (service_answers w 0%nat) as [e' | entries] eqn:Hanswer.
  - cbn [events outcome]. intros [H | []]. injection H as -> ->.
    split; [reflexivity | ]. exists []. reflexivity.
  - destruct (first_item entries) as [e' | batch_job]; cbv zeta;
      cbn [events outcome].
    + intros [H | []]. discriminate.
    + intros [H | H]; [discriminate | ].
      apply poll_loop_transport in H as [Hraise [before Hevents]].
      split; [exact Hraise | ].
      exists (EvGet (GetBatchJob_selector batch_job_id) (inr entries) :: before).
      rewrite Hevents. reflexivity.
Qed.

Lemma transport_error_propagates_witness :
  let w := scripted [pending_stub; inl (TransportError "connection reset")]
             pending_stub (fun _ => 0) in
  let r := GetBatchJobDownloadUrlWhenReady 42 5 w in
  outcome r = Raise (TransportError "connection reset") /\
  exists before,
    events r = (before ++ [EvGet (GetBatchJob_selector 42)
                             (inl (TransportError "connection reset"))])%list.
Proof.
  apply (transport_error_propagates
           (scripted [pending_stub; inl (TransportError "connection reset")]
              pending_stub (fun _ => 0)) 42 5).
  simpl. right; right; right; left. reflexivity.
Defined.

(** ** Termination and resources *)

(** C8: for a budget [M >= 0] and a service that answers every fetch with a
    job, the poller terminates (it never runs out of iterations, and more
    iterations change nothing), fetches at most [M + 1] times, sleeps at
    most [M] times, and ends by returning a location or by raising the
    timeout error. *)
Theorem poller_terminates (w : World) (batch_job_id max_poll_attempts : Z) :
  0 <= max_poll_attempts ->
  (forall k, (k <= Z.to_nat max_poll_attempts)%nat ->
             exists batch_job, fetched w k = inr batch_job) ->
  let r := GetBatchJobDownloadUrlWhenReady batch_job_id max_poll_attempts w in
  outcome r <> OutOfFuel /\
  (forall fuel, (Z.to_nat max_poll_attempts < fuel)%nat ->
     GetBatchJobDownloadUrlWhenReady_fuel fuel batch_job_id max_poll_attempts w
     = r) /\
  Z.of_nat (fetch_count (events r)) <= max_poll_attempts + 1 /\
  Z.of_nat (sleep_count (events r)) <= max_poll_attempts /\
  ((exists location, outcome r = Return location) \/
   outcome r = Raise timeout_error).
Proof.
  intros Hbudget Hanswers; cbv zeta.
  assert (Hsame : forall fuel, (Z.to_nat max_poll_attempts < fuel)%nat ->
    GetBatchJobDownloadUrlWhenReady_fuel fuel batch_job_id max_poll_attempts w
    = GetBatchJobDownloadUrlWhenReady batch_job_id max_poll_attempts w).
  { intros fuel Hfuel. rewrite poller_run, poller_run_fuel.
    destruct (fetched w 0) as [e | batch_job]; [reflexivity | ].
    rewrite (poll_loop_fuel_irrelevant batch_job_id max_poll_attempts fuel
               (S (Z.to_nat max_poll_attempts))); [reflexivity | | ];
      rewrite Z.sub_0_r; lia. }
  rewrite poller_run.
  destruct (Hanswers 0%nat) as [batch_job Hfirst]; [lia | ].
  rewrite Hfirst; cbv zeta; cbn [outcome events].
  rewrite fetch_count_cons_get, sleep_count_cons_get.
  pose proof (poll_loop_counts batch_job_id max_poll_attempts
                (S (Z.to_nat max_poll_attempts)) batch_job 0 (after_get w))
    as [Hsleeps Hfetches]. rewrite Z.sub_0_r in Hfetches.
  split; [apply poll_loop_enough_fuel, enough_fuel | ].
  split; [intros fuel Hfuel; rewrite Hsame, poller_run, Hfirst by exact Hfuel;
          reflexivity | ].
  split; [lia | ]. split; [lia | ].
  pose proof (poller_ends w batch_job_id max_poll_attempts Hanswers) as Hends.
  cbv zeta in Hends. rewrite poller_run, Hfirst in Hends. exact Hends.
Qed.

Lemma poller_terminates_witness :
  let w := scripted [pending_stub; pending_stub]
             (ready_stub "https://batch/result") (fun _ => 0) in
  let r := GetBatchJobDownloadUrlWhenReady 42 5 w in
  outcome r <> OutOfFuel /\
  (forall fuel, (Z.to_nat 5 < fuel)%nat ->
     GetBatchJobDownloadUrlWhenReady_fuel fuel 42 5 w = r) /\
  Z.of_nat (fetch_count (events r)) <= 5 + 1 /\
  Z.of_nat (sleep_count (events r)) <= 5 /\
  ((exists location, outcome r = Return location) \/
   outcome r = Raise timeout_error).
Proof.
  apply (poller_terminates
           (scripted [pending_stub; pending_stub]
              (ready_stub "https://batch/result") (fun _ => 0)) 42 5).
  - lia.
  - intros k _. unfold fetched; simpl.
    destruct k as [ | [ | [ | k]]]; eexists; reflexivity.
Defined.

(** ** The order of fetches and sleeps *)

Lemma cycles_head_not_get (trace : list Event) :
  cycles trace ->
  forall selector answer, nth_error trace 0 <> Some (EvGet selector answer).
Proof. intros [ | | ]; intros sel ans; discriminate. Qed.

Lemma cycles_sleep_then_get (trace : list Event) :
  cycles trace ->
  forall i seconds, nth_error trace i = Some (EvSleep seconds) ->
  exists selector answer, nth_error trace (S i) = Some (EvGet selector answer).
Proof.
  induction 1 as [ | format args | format args secs selector answer rest _ IH];
    intros i seconds.
  - destruct i; discriminate.
  - destruct i as [ | [ | i]]; discriminate.
  - destruct i as [ | [ | [ | i]]]; try discriminate.
    + intros _. exists selector, answer. reflexivity.
    + apply IH.
Qed.

Lemma cycles_get_then_no_get (trace : list Event) :
  cycles trace ->
  forall i selector answer selector' answer',
    nth_error trace i = Some (EvGet selector answer) ->
    nth_error trace (S i) <> Some (EvGet selector' answer').
Proof.
  induction 1 as [ | format args | format args secs sel ans rest Hrest IH];
    intros i selector answer selector' answer'.
  - destruct i; discriminate.
  - destruct i as [ | [ | i]]; discriminate.
  - destruct i as [ | [ | [ | i]]]; try discriminate.
    + intros _. apply (cycles_head_not_get rest Hrest).
    + apply IH.
Qed.

(** C6: the events of a run are an ordered list that begins with a fetch;
    each sleep is directly followed by a fetch, and that fetch is not
    directly followed by another one; so there is one sleep less than there
    are fetches, and every sleep comes before the last fetch. *)
Theorem sleeps_and_fetches_alternate
    (w : World) (batch_job_id max_poll_attempts : Z) :
  let trace :=
    events (GetBatchJobDownloadUrlWhenReady batch_job_id max_poll_attempts w) in
  (exists selector answer rest, trace = EvGet selector answer :: rest) /\
  (forall i seconds, nth_error trace i = Some (EvSleep seconds) ->
     exists selector answer,
       nth_error trace (S i) = Some (EvGet selector answer)) /\
  (forall i selector answer selector' answer',
     nth_error trace i = Some (EvGet selector answer) ->
     nth_error trace (S i) <> Some (EvGet selector' answer')) /\
  fetch_count trace = S (sleep_count trace) /\
  (forall i j selector answer seconds,
     nth_error trace i = Some (EvGet selector answer) ->
     (forall k selector' answer', (i < k)%nat ->
        nth_error trace k <> Some (EvGet selector' answer')) ->
     nth_error trace j = Some (EvSleep seconds) ->
     (j < i)%nat).
Proof.
  cbv zeta.
  assert (Hshape : exists rest,
    events (GetBatchJobDownloadUrlWhenReady batch_job_id max_poll_attempts w)
    = EvGet (GetBatchJob_selector batch_job_id) (service_answers w 0%nat)
      :: rest /\ cycles rest /\ sleep_count rest = fetch_count rest).
  { rewrite poller_run.
    destruct (fetched w 0) as [e | batch_job]; cbv zeta; cbn [events].
    - exists []. repeat split. apply cycles_done.
    - eexists. split; [reflexivity | ].
      split; [apply poll_loop_cycles | apply poll_loop_counts]. }
  destruct Hshape as (rest & -> & Hcycles & Hcounts).
  assert (Hnext : forall i seconds,
    nth_error (EvGet (GetBatchJob_selector batch_job_id)
                 (service_answers w 0%nat) :: rest) i
    = Some (EvSleep seconds) ->
    exists selector answer,
      nth_error (EvGet (GetBatchJob_selector batch_job_id)
                   (service_answers w 0%nat) :: rest) (S i)
      = Some (EvGet selector answer)).
  { intros [ | i] seconds; [discriminate | ].
    apply (cycles_sleep_then_get rest Hcycles). }
  split; [eexists _, _, _; reflexivity | ].
  split; [exact Hnext | ].
  split.
  { intros [ | i] selector answer selector' answer'.
    - intros _. apply (cycles_head_not_get rest Hcycles).
    - apply (cycles_get_then_no_get rest Hcycles). }
  split.
  { rewrite fetch_count_cons_get, sleep_count_cons_get, Hcounts. reflexivity. }
  intros i j selector answer seconds Hlast Hnone Hsleep.
  destruct (Nat.lt_ge_cases j i) as [Hlt | Hge]; [exact Hlt | exfalso].
  destruct (Hnext j seconds Hsleep) as (selector' & answer' & Hget).
  apply (Hnone (S j) selector' answer'); [lia | exact Hget].
Qed.

(** ** The back-off *)

(** C5 as stated fails: [random.randint(0, 10000)] may well draw 10000, and
    the jitter is then 10 seconds, outside of [0, 10); and a draw of 1999
    gives a jitter of 1 second, the milliseconds being dropped. *)
Lemma jitter_reaches_ten_seconds :
  let w := scripted [] pending_stub (fun _ => 10000) in
  let trace := events (GetBatchJobDownloadUrlWhenReady 42 5 w) in
  nth_error (sleeps trace) 0 = Some 40 /\
  ~ (0 <= 40 - 30 * 2 ^ 0 < 10) /\
  sleep_interval_of 0 10000 - 30 * 2 ^ 0 = 10 /\
  sleep_interval_of 0 1999 - 30 * 2 ^ 0 = 1.
Proof. cbv zeta. repeat split. intros [_ H]. discriminate H. Qed.

(** Which draws give which jitter: 1000 draws for each jitter from 0 to 9,
    and the single draw 10000 for the jitter 10. *)
Lemma jitter_of_draw (draw jitter : Z) :
  0 <= draw <= 10000 ->
  (draw / 1000 = jitter <-> 1000 * jitter <= draw < 1000 * jitter + 1000) /\
  (draw / 1000 = 10 <-> draw = 10000).
Proof.
  intros Hdraw. split; split; intros H; Z.div_mod_to_equations; lia.
Qed.

Lemma pow2_pos (n : nat) : 1 <= 2 ^ Z.of_nat n.
Proof.
  induction n as [ | n IH]; [simpl; lia | ].
  rewrite Nat2Z.inj_succ, Z.pow_succ_r by apply Nat2Z.is_nonneg. lia.
Qed.

(** C5, amended: the [i]-th sleep of a run (counting from 0) lasts
    [30 * 2^i + jitter] seconds, where the jitter is the draw of
    [random.randint(0, 10000)] divided by 1000 and rounded down, a whole
    number of seconds between 0 and 10, both included; hence each sleep is
    strictly longer than the one before, whatever the draws. *)
Theorem sleep_durations (w : World) (batch_job_id max_poll_attempts : Z) :
  (forall k, 0 <= randint_draws w k <= 10000) ->
  let trace :=
    events (GetBatchJobDownloadUrlWhenReady batch_job_id max_poll_attempts w) in
  forall i seconds,
    nth_error (sleeps trace) i = Some seconds ->
    (exists jitter,
       seconds = 30 * 2 ^ Z.of_nat i + jitter /\
       jitter = randint_draws w i / 1000 /\
       0 <= jitter <= 10) /\
    (forall seconds', nth_error (sleeps trace) (S i) = Some seconds' ->
       seconds < seconds').
Proof.
  intros Hdraws; cbv zeta.
  assert (Hjitter : forall k, 0 <= randint_draws w k / 1000 <= 10).
  { intros k. specialize (Hdraws k). split.
    - apply Z.div_pos; lia.
    - apply Z.div_le_upper_bound; lia. }
  assert (Hnth : forall i seconds,
    nth_error (sleeps (events (GetBatchJobDownloadUrlWhenReady batch_job_id
                                 max_poll_attempts w))) i = Some seconds ->
    seconds = 30 * 2 ^ Z.of_nat i + randint_draws w i / 1000).
  { intros i seconds. rewrite poller_run.
    destruct (fetched w 0) as [e | batch_job]; cbv zeta; cbn [events sleeps].
    - destruct i; discriminate.
    - intros H. apply poll_loop_sleeps in H. exact H. }
  intros i seconds Hi. split.
  - exists (randint_draws w i / 1000).
    split; [apply Hnth, Hi | split; [reflexivity | apply Hjitter]].
  - intros seconds' Hi'. apply Hnth in Hi, Hi'. subst seconds seconds'.
    rewrite Nat2Z.inj_succ, Z.pow_succ_r by apply Nat2Z.is_nonneg.
    pose proof (pow2_pos i). pose proof (Hjitter i). pose proof (Hjitter (S i)).
    lia.
Qed.

Lemma sleep_durations_witness :
  let w := scripted [] pending_stub (fun _ => 10000) in
  let trace := events (GetBatchJobDownloadUrlWhenReady 42 5 w) in
  (exists jitter,
     70 = 30 * 2 ^ Z.of_nat 1 + jitter /\
     jitter = randint_draws w 1 / 1000 /\
     0 <= jitter <= 10) /\
  (forall seconds', nth_error (sleeps trace) 2 = Some seconds' -> 70 < seconds').
Proof.
  apply (sleep_durations (scripted [] pending_stub (fun _ => 10000)) 42 5).
  - intros k. simpl. lia.
  - reflexivity.
Defined.

(** ** The contract of the poller *)

(** Where a job has a download URL only once it is no longer pending, and
    the first fetch leaves aside, the poller does what its contract says: it
    returns [location] exactly when, within the budget, the fetches before
    some re-fetch [m >= 1] report a pending status and re-fetch [m] reports
    a status that is no longer pending together with the URL [location];
    and when no fetch raises, every other run ends with the timeout
    error. *)
Lemma poller_contract_in_data_model (w : World)
    (batch_job_id max_poll_attempts : Z) :
  url_only_when_finished w ->
  let r := GetBatchJobDownloadUrlWhenReady batch_job_id max_poll_attempts w in
  (forall location,
     outcome r = Return location <->
     exists m, (1 <= m)%nat /\ Z.of_nat m <= max_poll_attempts /\
               (forall k, (k < m)%nat ->
                  exists batch_job,
                    fetched w k = inr batch_job /\
                    is_pending batch_job = true) /\
               ready w m location) /\
  ((forall k, (k <= Z.to_nat max_poll_attempts)%nat ->
              exists batch_job, fetched w k = inr batch_job) ->
   (exists location, outcome r = Return location) \/
   outcome r = Raise timeout_error).
Proof.
  intros Hmodel; cbv zeta. split; [ | apply poller_ends].
  intros location. split.
  - rewrite poller_run.
    destruct (fetched w 0) as [e | batch_job] eqn:Hfirst; [discriminate | ].
    cbv zeta; cbn [outcome]. intros Hret.
    apply poll_loop_returns_only
      in Hret as [Hpending (m & _ & Hmax & Hbefore & Hlocated)].
    exists (S m). split; [lia | ]. split; [lia | ]. split.
    + intros k Hk. destruct k as [ | k].
      * exists batch_job. split; [exact Hfirst | exact Hpending].
      * destruct (Hbefore k) as (j & Hj & Hstatus & _); [lia | ].
        exists j. rewrite <- fetched_after_get. split; assumption.
    + destruct Hlocated as (j & Hj & Hurl).
      rewrite fetched_after_get in Hj. exists j.
      split; [exact Hj | ]. split; [ | exact Hurl].
      destruct (is_pending j) eqn:Hstatus; [ | reflexivity].
      unfold has_url in Hurl.
      rewrite (Hmodel _ _ Hj Hstatus) in Hurl. discriminate Hurl.
  - intros (m & Hm & Hmax & Hbefore & (j & Hj & _ & Hurl)).
    apply (ready_on_nth_fetch w batch_job_id max_poll_attempts (S m));
      try lia.
    + apply (Hbefore 0%nat). lia.
    + intros k Hk. destruct (Hbefore k) as (b & Hb & Hstatus); [lia | ].
      exists b. split; [exact Hb | ]. split; [exact Hstatus | ].
      apply (Hmodel _ _ Hb Hstatus).
    + replace (S m - 1)%nat with m by lia. exists j. split; assumption.
Qed.

(** C1 fails on the code at scenario C.  With a budget of 1 and a first
    fetch that already reports the status DONE and a download URL, the
    fetched status is no longer pending and a location is present, yet the
    poller raises the timeout error after that one fetch and returns
    nothing.  The very same job is returned when it comes at the second
    fetch. *)
Theorem ready_first_fetch_breaks_contract :
  let location := "https://batch/result" in
  let w := scripted [] (ready_stub location) (fun _ => 0) in
  let r := GetBatchJobDownloadUrlWhenReady 42 1 w in
  let w' := scripted [pending_stub] (ready_stub location) (fun _ => 0) in
  url_only_when_finished w /\
  ready w 0 location /\
  outcome r = Raise timeout_error /\
  (forall l, outcome r <> Return l) /\
  fetch_count (events r) = 1%nat /\
  sleep_count (events r) = 0%nat /\
  ready w' 1 location /\
  outcome (GetBatchJobDownloadUrlWhenReady 42 1 w') = Return location.
Proof.
  cbv zeta. split.
  { intros k batch_job Hfetch Hstatus. unfold fetched in Hfetch.
    destruct k as [ | k]; injection Hfetch as <-; discriminate Hstatus. }
  split.
  { exists (job "DONE" (Some "https://batch/result")).
    split; [reflexivity | split; reflexivity]. }
  split; [reflexivity | ]. split; [discriminate | ].
  split; [reflexivity | ]. split; [reflexivity | ]. split.
  - exists (job "DONE" (Some "https://batch/result")).
    split; [reflexivity | split; reflexivity].
  - reflexivity.
Qed.

(** ** List comprehensions *)

Lemma outcome_bind_return {A B : Type} (m : M A) (k : A -> M B) (w : World)
    (a : A) :
  outcome (m w) = Return a ->
  outcome (bind m k w) = outcome (k a (world_after (m w))).
Proof. unfold bind; intros ->; reflexivity. Qed.

Lemma outcome_lift_inr {A B : Type} (r : exn + A) (a : A) (k : A -> M B)
    (w : World) :
  r = inr a -> outcome (bind (lift r) k w) = outcome (k a w).
Proof. intros ->; reflexivity. Qed.

(** A body that always returns makes the comprehension return, item by
    item. *)
Lemma for_each_Forall2 {A B : Type} (P : A -> B -> Prop) (body : A -> M B)
    (xs : list A) :
  (forall x w, In x xs -> exists y, outcome (body x w) = Return y /\ P x y) ->
  forall w, exists ys,
    outcome (for_each xs body w) = Return ys /\ Forall2 P xs ys.
Proof.
  induction xs as [ | x xs IH]; intros Hbody w.
  - exists []. split; [reflexivity | constructor].
  - destruct (Hbody x w (or_introl eq_refl)) as (y & Hy & HP).
    simpl. rewrite (outcome_bind_return _ _ _ _ Hy).
    destruct (IH (fun x' w' Hin => Hbody x' w' (or_intror Hin))
                (world_after (body x w))) as (ys & Hys & HPs).
    rewrite (outcome_bind_return _ _ _ _ Hys).
    exists (y :: ys). split; [reflexivity | constructor; assumption].
Qed.

Lemma Forall2_nth_error_left {A B : Type} (P : A -> B -> Prop)
    (xs : list A) (ys : list B) :
  Forall2 P xs ys ->
  forall i x, nth_error xs i = Some x ->
  exists y, nth_error ys i = Some y /\ P x y.
Proof.
  induction 1 as [ | x0 y0 xs ys HP _ IH]; intros i x.
  - destruct i; discriminate.
  - destruct i as [ | i]; simpl.
    + intros [= <-]. exists y0. split; [reflexivity | exact HP].
    + apply IH.
Qed.

Lemma length_range (stop : Z) : List.length (range stop) = Z.to_nat stop.
Proof. unfold range. rewrite length_map, length_seq. reflexivity. Qed.

Lemma nth_error_range (stop : Z) (i : nat) :
  (i < Z.to_nat stop)%nat -> nth_error (range stop) i = Some (Z.of_nat i).
Proof.
  intros Hi. unfold range.
  rewrite nth_error_map, nth_error_seq.
  destruct (Nat.ltb_spec i (Z.to_nat stop)) as [_ | Hge]; [reflexivity | lia].
Qed.

Lemma length_concat_rows {A : Type} (n : nat) (rows : list (list A)) :
  Forall (fun row => List.length row = n) rows ->
  List.length (List.concat rows) = (List.length rows * n)%nat.
Proof.
  induction 1 as [ | row rows Hrow _ IH]; [reflexivity | ].
  simpl. rewrite length_app, Hrow, IH. reflexivity.
Qed.

Lemma nth_error_concat_rows {A : Type} (n : nat) (rows : list (list A)) :
  Forall (fun row => List.length row = n) rows ->
  forall a i row, nth_error rows a = Some row -> (i < n)%nat ->
  nth_error (List.concat rows) (a * n + i) = nth_error row i.
Proof.
  induction 1 as [ | row0 rows Hrow0 _ IH]; intros a i row.
  - destruct a; discriminate.
  - destruct a as [ | a]; simpl.
    + intros [= <-] Hi. apply nth_error_app1. lia.
    + intros Ha Hi. rewrite nth_error_app2 by lia.
      replace (n + a * n + i - List.length row0)%nat with (a * n + i)%nat
        by lia.
      apply IH; assumption.
Qed.

Lemma even_mod_2 (i : Z) : (i mod 2 =? 0) = Z.even i.
Proof.
  destruct (Z.even i) eqn:Heven.
  - apply Z.even_spec in Heven as [m ->].
    rewrite Z.mul_comm, Z.mod_mul by lia. reflexivity.
  - assert (Hodd : Z.odd i = true) by (rewrite <- Z.negb_even, Heven; reflexivity).
    apply Z.odd_spec in Hodd as [m ->].
    rewrite Z.mul_comm, Z.add_comm, Z.mod_add by lia. reflexivity.
Qed.

Lemma Forall2_right {A B : Type} (Q : B -> Prop) (xs : list A) (ys : list B) :
  Forall2 (fun _ y => Q y) xs ys -> Forall Q ys.
Proof. induction 1; constructor; assumption. Qed.

Lemma Forall2_rows_length {A B C : Type} (P : A -> B -> C -> Prop)
    (xs : list A) (ys : list B) (rows : list (list C)) :
  Forall2 (fun x row => Forall2 (P x) ys row) xs rows ->
  Forall (fun row => List.length row = List.length ys) rows.
Proof.
  induction 1 as [ | x row xs rows Hrow _ IH]; [constructor | ].
  constructor; [ | exact IH].
  apply Forall2_length in Hrow. symmetry. exact Hrow.
Qed.

Lemma path_two (v : value) (k1 k2 : string) (found : value) :
  path v [k1; k2] = Some found ->
  exists inner, subscript v k1 = inr inner /\ subscript inner k2 = inr found.
Proof.
  simpl. destruct (subscript v k1) as [e | inner]; [discriminate | ].
  destruct (subscript inner k2) as [e | v2] eqn:Hinner; [discriminate | ].
  intros [= <-]. exists inner. split; [reflexivity | exact Hinner].
Qed.

(** ** The builders *)

(** C9: for a number of campaigns [n >= 0] and a list of budget operations
    whose first element has a budgetId, BuildCampaignOperations returns
    exactly [n] operations, and the budget.budgetId of each of them is that
    budgetId. *)
Theorem campaigns_share_the_budget (w : World) (budget_operations : list value)
    (number_of_campaigns : Z) (first_operation : value) (others : list value)
    (budget_id : value) :
  budget_operations = first_operation :: others ->
  path first_operation ["operand"; "budgetId"] = Some budget_id ->
  0 <= number_of_campaigns ->
  exists campaign_operations,
    outcome (BuildCampaignOperations budget_operations number_of_campaigns w)
    = Return campaign_operations /\
    Z.of_nat (List.length campaign_operations) = number_of_campaigns /\
    Forall (fun campaign_operation =>
              path campaign_operation ["operand"; "budget"; "budgetId"]
              = Some budget_id)
           campaign_operations.
Proof.
  intros -> Hpath Hn.
  apply path_two in Hpath as (operand & Hoperand & Hbudget).
  unfold BuildCampaignOperations.
  rewrite (outcome_lift_inr _ first_operation) by reflexivity.
  rewrite (outcome_lift_inr _ operand) by exact Hoperand.
  rewrite (outcome_lift_inr _ budget_id) by exact Hbudget.
  match goal with
  | |- context [for_each ?xs ?body w] =>
      destruct (for_each_Forall2
                  (fun (_ : Z) campaign_operation =>
                     path campaign_operation ["operand"; "budget"; "budgetId"]
                     = Some budget_id) body xs) with (w := w)
        as (campaign_operations & Hreturn & Hall)
  end.
  { intros x w' _. eexists. split; reflexivity. }
  exists campaign_operations. split; [exact Hreturn | ]. split.
  - apply Forall2_length in Hall. rewrite <- Hall, length_range. lia.
  - apply (Forall2_right _ _ _ Hall).
Qed.

(** ** Decimal numerals *)

Lemma nzhead_not_D0 (d l : Decimal.uint) : Decimal.nzhead d <> Decimal.D0 l.
Proof. induction d; simpl; try discriminate. exact IHd. Qed.

Lemma to_uint_head (p : positive) (l : Decimal.uint) :
  Pos.to_uint p <> Decimal.D0 l.
Proof.
  intros H.
  pose proof (DecimalPos.Unsigned.to_of (Pos.to_uint p)) as Hnorm.
  rewrite DecimalPos.Unsigned.of_to in Hnorm. cbn [N.to_uint] in Hnorm.
  rewrite H in Hnorm at 2. unfold Decimal.unorm in Hnorm. cbn [Decimal.nzhead] in Hnorm.
  destruct (Decimal.nzhead l) eqn:Hl.
  - rewrite Hnorm in H. injection H as <-.
    apply (DecimalPos.Unsigned.to_uint_nonzero p). exact Hnorm.
  - rewrite H in Hnorm. injection Hnorm as Hnorm. rewrite <- Hnorm in Hl.
    apply (nzhead_not_D0 _ _ Hl).
  - rewrite H in Hnorm; discriminate.
  - rewrite H in Hnorm; discriminate.
  - rewrite H in Hnorm; discriminate.
  - rewrite H in Hnorm; discriminate.
  - rewrite H in Hnorm; discriminate.
  - rewrite H in Hnorm; discriminate.
  - rewrite H in Hnorm; discriminate.
  - rewrite H in Hnorm; discriminate.
  - rewrite H in Hnorm; discriminate.
Qed.

(** Evaluating [digit_value] at a given character. *)
Ltac digit_of_char :=
  match goal with
  | |- context [digit_value ?c] =>
      let v := eval vm_compute in (digit_value c) in
      change (digit_value c) with v; cbv iota
  end.

Lemma numeral_value_acc (d : Decimal.uint) : forall acc : positive,
  numeral_value (Zpos acc) (NilEmpty.string_of_uint d)
  = Some (Zpos (Pos.of_uint_acc d acc)).
Proof.
  induction d; intros acc;
    cbn [NilEmpty.string_of_uint numeral_value Pos.of_uint_acc];
    [reflexivity | ..]; digit_of_char;
    match goal with
    | |- numeral_value ?z _ = Some (Zpos (Pos.of_uint_acc _ ?q)) =>
        replace z with (Zpos q) by lia
    end; apply IHd.
Qed.

(** ['%s' % i] is the decimal numeral of [i], for [i >= 0]. *)
Lemma str_of_int_numeral (i : Z) : 0 <= i -> decimal_numeral_of i (str_of_int i).
Proof.
  intros Hi. destruct i as [ | p | p]; [ | | lia].
  { split; [discriminate | ]. split; [reflexivity | ].
    intros rest [= <-]. reflexivity. }
  unfold str_of_int. cbn [Z.to_int NilZero.string_of_int].
  pose proof (DecimalPos.Unsigned.of_to p) as Hvalue.
  pose proof (to_uint_head p) as Hhead.
  pose proof (DecimalPos.Unsigned.to_uint_nonnil p) as Hnil.
  unfold NilZero.string_of_uint.
  destruct (Pos.to_uint p) as [ | l | l | l | l | l | l | l | l | l | l];
    [ contradiction Hnil; reflexivity
    | contradiction (Hhead l); reflexivity
    | .. ];
    (split; [discriminate | ]);
    (split; [ | intros rest; discriminate ]);
    cbn [Pos.of_uint] in Hvalue; injection Hvalue as <-;
    cbn [NilEmpty.string_of_uint numeral_value]; digit_of_char;
    apply (numeral_value_acc l).
Qed.

Lemma numeral_digits (s : string) : forall acc v,
  numeral_value acc s = Some v -> exists d, NilEmpty.string_of_uint d = s.
Proof.
  induction s as [ | c s IH]; intros acc v H.
  { exists Decimal.Nil. reflexivity. }
  cbn [numeral_value] in H.
  destruct (digit_value c) as [k | ] eqn:Hc; [ | discriminate H].
  destruct (IH _ _ H) as [d <-].
  destruct c as [[] [] [] [] [] [] [] []];
    vm_compute in Hc; try discriminate Hc;
    first [ exists (Decimal.D0 d); reflexivity
          | exists (Decimal.D1 d); reflexivity
          | exists (Decimal.D2 d); reflexivity
          | exists (Decimal.D3 d); reflexivity
          | exists (Decimal.D4 d); reflexivity
          | exists (Decimal.D5 d); reflexivity
          | exists (Decimal.D6 d); reflexivity
          | exists (Decimal.D7 d); reflexivity
          | exists (Decimal.D8 d); reflexivity
          | exists (Decimal.D9 d); reflexivity ].
Qed.

(** The decimal numeral of an integer is one string only. *)
Lemma decimal_numeral_unique (i : Z) (s : string) :
  decimal_numeral_of i s -> s = str_of_int i.
Proof.
  intros (Hnonempty & Hvalue & Hzero).
  destruct (numeral_digits _ _ _ Hvalue) as [d <-].
  destruct d as [ | l | l | l | l | l | l | l | l | l | l];
    [ contradiction Hnonempty; reflexivity
    | assert (Hl : NilEmpty.string_of_uint l = "")
        by (apply Hzero; reflexivity);
      destruct l; try discriminate Hl;
      injection Hvalue as <-; reflexivity
    | .. ];
    cbn [NilEmpty.string_of_uint numeral_value] in Hvalue;
    match type of Hvalue with
    | context [digit_value ?c] =>
        let v := eval vm_compute in (digit_value c) in
        change (digit_value c) with v in Hvalue; cbv iota in Hvalue
    end;
    change (10 * 0 + ?k) with k in Hvalue;
    rewrite (numeral_value_acc l) in Hvalue; injection Hvalue as <-;
    unfold str_of_int; cbn [Z.to_int NilZero.string_of_int];
    match goal with
    | |- NilEmpty.string_of_uint ?d
         = NilZero.string_of_uint (Pos.to_uint ?p) =>
        change (Pos.to_uint p) with (N.to_uint (Pos.of_uint d));
        rewrite DecimalPos.Unsigned.to_of; reflexivity
    end.
Qed.

(** C10: for ad-group operations that each have an operand id and a number
    of keywords [n >= 0], BuildAdGroupCriterionOperations returns
    [len(adgroup_operations) * n] operations; the one at position
    [a * n + i], for the [a]-th ad group and [i < n], has the id of that ad
    group as adGroupId, and its text is ['mars'] followed by the decimal
    numeral of [i] (['mars0'], ['mars1'], ...), followed by ['!!!'] exactly
    when [i] is even. *)
Theorem keyword_operations (w : World) (adgroup_operations : list value)
    (number_of_keywords : Z) :
  0 <= number_of_keywords ->
  (forall adgroup_operation, In adgroup_operation adgroup_operations ->
     exists adgroup_id, path adgroup_operation ["operand"; "id"] = Some adgroup_id) ->
  exists criterion_operations,
    outcome (BuildAdGroupCriterionOperations adgroup_operations
               number_of_keywords w)
    = Return criterion_operations /\
    Z.of_nat (List.length criterion_operations)
    = Z.of_nat (List.length adgroup_operations) * number_of_keywords /\
    forall a i adgroup_operation,
      nth_error adgroup_operations a = Some adgroup_operation ->
      (i < Z.to_nat number_of_keywords)%nat ->
      exists criterion_operation,
        nth_error criterion_operations (a * Z.to_nat number_of_keywords + i)
        = Some criterion_operation /\
        path criterion_operation ["operand"; "adGroupId"]
        = path adgroup_operation ["operand"; "id"] /\
        exists digits,
          decimal_numeral_of (Z.of_nat i) digits /\
          path criterion_operation ["operand"; "criterion"; "text"]
          = Some (VStr ("mars" ++ digits ++
                        (if Z.even (Z.of_nat i) then "!!!" else ""))).
Proof.
  intros Hn Hids.
  set (made := fun (adgroup_operation : value) (i : Z) (made_operation : value) =>
    path made_operation ["operand"; "adGroupId"]
    = path adgroup_operation ["operand"; "id"] /\
    path made_operation ["operand"; "criterion"; "text"]
    = Some (VStr (keyword_text i))).
  unfold BuildAdGroupCriterionOperations, for_each2.
  match goal with
  | |- context [for_each adgroup_operations ?body] =>
      destruct (for_each_Forall2
                  (fun adgroup_operation row =>
                     Forall2 (made adgroup_operation)
                       (range number_of_keywords) row)
                  body adgroup_operations) with (w := w)
        as (rows & Hreturn & Hrows)
  end.
  { intros adgroup_operation w' Hin.
    destruct (Hids adgroup_operation Hin) as [adgroup_id Hid].
    apply for_each_Forall2. intros i w'' _.
    unfold made. rewrite Hid.
    apply path_two in Hid as (operand & Hoperand & Hid).
    rewrite (outcome_lift_inr _ operand) by exact Hoperand.
    rewrite (outcome_lift_inr _ adgroup_id) by exact Hid.
    eexists. split; [reflexivity | split; reflexivity]. }
  rewrite (outcome_bind_return _ _ _ _ Hreturn).
  exists (List.concat rows). split; [reflexivity | ].
  assert (Hlengths : Forall (fun row => List.length row
                                        = Z.to_nat number_of_keywords) rows).
  { rewrite <- length_range. apply (Forall2_rows_length _ _ _ _ Hrows). }
  split.
  - rewrite (length_concat_rows _ _ Hlengths).
    apply Forall2_length in Hrows. rewrite <- Hrows. lia.
  - intros a i adgroup_operation Ha Hi.
    destruct (Forall2_nth_error_left _ _ _ Hrows a adgroup_operation Ha)
      as (row & Hrow & Hmade).
    destruct (Forall2_nth_error_left _ _ _ Hmade i (Z.of_nat i)
                (nth_error_range _ _ Hi))
      as (criterion_operation & Hnth & Hgroup & Htext).
    exists criterion_operation.
    rewrite (nth_error_concat_rows _ _ Hlengths a i row Hrow Hi).
    split; [exact Hnth | ]. split; [exact Hgroup | ].
    exists (str_of_int (Z.of_nat i)).
    split; [apply str_of_int_numeral, Nat2Z.is_nonneg | ].
    rewrite Htext. unfold keyword_text. rewrite even_mod_2. reflexivity.
Qed.

Lemma campaigns_share_the_budget_witness :
  exists campaign_operations,
    outcome (BuildCampaignOperations sample_budget_operations 2 test_world)
    = Return campaign_operations /\
    Z.of_nat (List.length campaign_operations) = 2 /\
    Forall (fun campaign_operation =>
              path campaign_operation ["operand"; "budget"; "budgetId"]
              = Some (VInt (-1)))
           campaign_operations.
Proof.
  apply (campaigns_share_the_budget test_world sample_budget_operations 2
           (hd (VInt 0) sample_budget_operations)
           (tl sample_budget_operations) (VInt (-1)));
    [reflexivity | reflexivity | lia].
Defined.

Lemma keyword_operations_witness :
  exists criterion_operations,
    outcome (BuildAdGroupCriterionOperations sample_adgroup_operations 5
               test_world)
    = Return criterion_operations /\
    Z.of_nat (List.length criterion_operations)
    = Z.of_nat (List.length sample_adgroup_operations) * 5 /\
    forall a i adgroup_operation,
      nth_error sample_adgroup_operations a = Some adgroup_operation ->
      (i < Z.to_nat 5)%nat ->
      exists criterion_operation,
        nth_error criterion_operations (a * Z.to_nat 5 + i)
        = Some criterion_operation /\
        path criterion_operation ["operand"; "adGroupId"]
        = path adgroup_operation ["operand"; "id"] /\
        exists digits,
          decimal_numeral_of (Z.of_nat i) digits /\
          path criterion_operation ["operand"; "criterion"; "text"]
          = Some (VStr ("mars" ++ digits ++
                        (if Z.even (Z.of_nat i) then "!!!" else ""))).
Proof.
  apply (keyword_operations test_world sample_adgroup_operations 5).
  - lia.
  - intros adgroup_operation Hin.
    repeat (destruct Hin as [<- | Hin]; [eexists; reflexivity | ]).
    destruct Hin.
Defined.

Example keyword_texts :
  map keyword_text (range 5) = ["mars0!!!"; "mars1"; "mars2!!!"; "mars3"; "mars4!!!"]
  /\ keyword_text 10 = "mars10!!!" /\ keyword_text 11 = "mars11".
Proof. repeat split. Qed.

Example numerals :
  decimal_numeral_of 0 "0" /\ decimal_numeral_of 12 "12" /\
  ~ decimal_numeral_of 12 "012" /\ ~ decimal_numeral_of 0 "" .
Proof.
  split; [ | split; [ | split ]].
  - split; [discriminate | split; [reflexivity | intros rest [= <-]; reflexivity]].
  - split; [discriminate | split; [reflexivity | intros rest; discriminate]].
  - intros (_ & _ & H). discriminate (H "12" eq_refl).
  - intros (H & _). apply H. reflexivity.
Qed.

(** Without a budget operation there is nothing to take the budgetId
    from. *)
Example no_budget_operation (w : World) (number_of_campaigns : Z) :
  outcome (BuildCampaignOperations [] number_of_campaigns w) = Raise IndexError.
Proof. reflexivity. Qed.

(** The ad-group operations that BuildAdGroupOperations returns are among
    those BuildAdGroupCriterionOperations accepts. *)
Example sample_adgroup_operations_ids :
  map (fun adgroup_operation => path adgroup_operation ["operand"; "id"])
      sample_adgroup_operations
  = [Some (VInt (-4)); Some (VInt (-5)); Some (VInt (-6)); Some (VInt (-7))].
Proof. reflexivity. Qed.

(** * Further properties of the poller *)

Ltac poll_cases Hc :=
  match goal with
  | |- context [poll_loop (S _) _ ?budget ?batch_job ?attempt _] =>
      destruct (in_range attempt budget && is_pending batch_job) eqn:Hc;
      [ rewrite !poll_loop_turn by exact Hc
      | rewrite !poll_loop_exit by exact Hc ]
  end.

Lemma fetched_is_fetch_result (w : World) (k : nat) :
  fetched w k = fetch_result (service_answers w k).
Proof. reflexivity. Qed.

Lemma fetched_inr (w : World) (k : nat) (batch_job : BatchJob) :
  fetched w k = inr batch_job ->
  exists others, service_answers w k = inr (batch_job :: others).
Proof.
  unfold fetched. destruct (service_answers w k) as [e | [ | entry others]];
    try discriminate.
  intros [= <-]. exists others. reflexivity.
Qed.

(** ** Budgets that allow no attempt *)

(** X1: with [max_poll_attempts <= 0] the job is fetched once and, whatever
    that fetch reports, the run is over: the timeout error is raised with no
    sleep and no second fetch. *)
Theorem nonpositive_budget_fetches_once
    (w : World) (batch_job_id max_poll_attempts : Z) (batch_job : BatchJob) :
  max_poll_attempts <= 0 ->
  fetched w 0 = inr batch_job ->
  let r := GetBatchJobDownloadUrlWhenReady batch_job_id max_poll_attempts w in
  outcome r = Raise timeout_error /\
  events r = [EvGet (GetBatchJob_selector batch_job_id)
                (service_answers w 0%nat)].
Proof.
  intros Hbudget Hfetch; cbv zeta.
  rewrite poller_run, Hfetch; cbv zeta.
  rewrite poll_loop_exit; [split; reflexivity | ].
  apply andb_false_intro1. unfold in_range. apply andb_false_intro2. lia.
Qed.

Lemma nonpositive_budget_fetches_once_witness :
  let w := scripted [] (answers (job "ACTIVE" (Some "https://batch/result")))
             (fun _ => 0) in
  let r := GetBatchJobDownloadUrlWhenReady 42 0 w in
  outcome r = Raise timeout_error /\
  events r = [EvGet (GetBatchJob_selector 42) (service_answers w 0%nat)].
Proof.
  apply (nonpositive_budget_fetches_once
           (scripted [] (answers (job "ACTIVE" (Some "https://batch/result")))
              (fun _ => 0))
           42 0 (job "ACTIVE" (Some "https://batch/result"))).
  - lia.
  - reflexivity.
Defined.

(** ** Fetches that fail *)

Lemma poll_loop_failed_fetch (batch_job_id max_poll_attempts : Z) fuel :
  forall batch_job poll_attempt w selector answer e,
  fetch_result answer = inl e ->
  let r := poll_loop fuel batch_job_id max_poll_attempts batch_job
             poll_attempt w in
  In (EvGet selector answer) (events r) ->
  outcome r = Raise e /\
  exists before, events r = (before ++ [EvGet selector answer])%list.
Proof.
  induction fuel as [ | fuel IH];
    intros batch_job poll_attempt w selector answer e Hfail; cbv zeta.
  { intros []. }
  poll_cases Hc; [ | intros []].
  rewrite fetched_is_fetch_result.
  assert (Hcycle :
    In (EvGet selector answer) (cycle_events batch_job_id poll_attempt w) ->
    answer = service_answers w 0%nat).
  { intros [H | [H | [H | []]]]; try discriminate.
    injection H as _ <-. reflexivity. }
  destruct (fetch_result (service_answers w 0%nat)) as [e' | fresh] eqn:Hhere.
  - cbn [events outcome]. intros H. apply Hcycle in H as Hanswer.
    subst answer. split; [congruence | ].
    exists [EvLogInfo not_ready_format
              [VInt (sleep_interval_of poll_attempt (randint_draws w 0%nat))];
            EvSleep (sleep_interval_of poll_attempt (randint_draws w 0%nat))].
    destruct H as [H | [H | [H | []]]]; try discriminate.
    injection H as <-. reflexivity.
  - destruct (downloadUrl fresh) as [download_url | ]; cbv zeta;
      cbn [events outcome]; intros H; apply in_app_or in H as [H | H].
    + apply Hcycle in H. congruence.
    + destruct H as [H | []]. discriminate.
    + apply Hcycle in H. congruence.
    + destruct (IH _ _ _ _ _ _ Hfail H) as [Hraise [before Hevents]].
      split; [exact Hraise | ].
      exists (cycle_events batch_job_id poll_attempt w ++ before)%list.
      rewrite Hevents, app_assoc. reflexivity.
Qed.

(** X2: when the service answers a fetch with a page that has no entry,
    [GetBatchJob] raises IndexError; the poller lets it through and that
    fetch is the last thing it does. *)
Theorem empty_page_raises_IndexError
    (w : World) (batch_job_id max_poll_attempts : Z) (selector : Selector) :
  let r := GetBatchJobDownloadUrlWhenReady batch_job_id max_poll_attempts w in
  In (EvGet selector (inr [])) (events r) ->
  outcome r = Raise IndexError /\
  exists before, events r = (before ++ [EvGet selector (inr [])])%list.
Proof.
  cbv zeta. rewrite poller_run, fetched_is_fetch_result.
  destruct (fetch_result (service_answers w 0%nat)) as [e | batch_job] eqn:Hfirst;
    cbv zeta; cbn [events outcome].
  - intros [H | []]. injection H as -> Hanswer. rewrite Hanswer in Hfirst.
    injection Hfirst as <-. rewrite Hanswer.
    split; [reflexivity | exists []; reflexivity].
  - intros [H | H].
    + injection H as _ Hanswer. rewrite Hanswer in Hfirst. discriminate.
    + apply (poll_loop_failed_fetch _ _ _ _ _ _ _ (inr []) IndexError eq_refl)
        in H as [Hraise [before Hevents]].
      split; [exact Hraise | ].
      exists (EvGet (GetBatchJob_selector batch_job_id)
                (service_answers w 0%nat) :: before).
      rewrite Hevents. reflexivity.
Qed.

Lemma empty_page_raises_IndexError_witness :
  let w := scripted [pending_stub; pending_stub] (inr []) (fun _ => 0) in
  let r := GetBatchJobDownloadUrlWhenReady 42 5 w in
  outcome r = Raise IndexError /\
  exists before,
    events r = (before ++ [EvGet (GetBatchJob_selector 42) (inr [])])%list.
Proof.
  apply (empty_page_raises_IndexError
           (scripted [pending_stub; pending_stub] (inr []) (fun _ => 0)) 42 5).
  simpl. do 6 right. left. reflexivity.
Defined.

(** ** Jobs that finish without a download URL *)

Lemma poll_loop_finished_without_url (batch_job_id max_poll_attempts : Z) m :
  forall fuel batch_job poll_attempt w finished,
  (Z.to_nat (max_poll_attempts - poll_attempt) < fuel)%nat ->
  is_pending batch_job = true ->
  0 <= poll_attempt ->
  poll_attempt + Z.of_nat m < max_poll_attempts ->
  (forall k, (k < m)%nat -> still_pending w k) ->
  fetched w m = inr finished ->
  is_pending finished = false ->
  downloadUrl finished = None ->
  let r := poll_loop fuel batch_job_id max_poll_attempts batch_job
             poll_attempt w in
  outcome r = Raise timeout_error /\
  fetch_count (events r) = S m /\ sleep_count (events r) = S m.
Proof.
  induction m as [ | m IH];
    intros fuel batch_job poll_attempt w finished Hfuel Hpending Hpos Hmax
      Hbefore Hfetch Hdone Hnone; cbv zeta;
    (destruct fuel as [ | fuel]; [lia | ]);
    rewrite poll_loop_turn by (apply turn_condition; split; [lia | assumption]).
  - rewrite Hfetch, Hnone. cbv zeta; cbn [outcome events].
    destruct fuel as [ | fuel]; [lia | ].
    rewrite poll_loop_exit by (rewrite Hdone; apply andb_false_r).
    repeat split.
  - destruct (Hbefore 0%nat) as (fresh & Hfresh & Hstill & Hfresh_none);
      [lia | ].
    rewrite Hfresh, Hfresh_none. cbv zeta; cbn [outcome events].
    rewrite fetch_count_app, sleep_count_app, fetch_count_cycle,
      sleep_count_cycle.
    destruct (IH fuel fresh (poll_attempt + 1) (after_get (after_draw w))
                finished) as (Hout & Hfetches & Hsleeps);
      try assumption; try lia.
    + intros k Hk. apply (Hbefore (S k)). lia.
    + rewrite Hout, Hfetches, Hsleeps. repeat split.
Qed.

(** X3: when the first fetch reports a pending status, the fetches
    [1 .. m-1] report a pending status and no URL, and fetch [m], within the
    budget, reports a status that is not pending and no URL (a job that was
    cancelled, say), the poller stops there: it raises the timeout error
    after [m + 1] fetches and [m] sleeps and leaves the rest of the budget
    unused. *)
Theorem finished_without_url_stops_polling
    (w : World) (batch_job_id max_poll_attempts : Z) (m : nat)
    (finished : BatchJob) :
  (1 <= m)%nat ->
  Z.of_nat m <= max_poll_attempts ->
  (exists batch_job, fetched w 0 = inr batch_job /\ is_pending batch_job = true) ->
  (forall k, (1 <= k < m)%nat -> still_pending w k) ->
  fetched w m = inr finished ->
  is_pending finished = false ->
  downloadUrl finished = None ->
  let r := GetBatchJobDownloadUrlWhenReady batch_job_id max_poll_attempts w in
  outcome r = Raise timeout_error /\
  fetch_count (events r) = S m /\ sleep_count (events r) = m.
Proof.
  intros Hm Hmax (batch_job & Hfirst & Hpending) Hbefore Hfetch Hdone Hnone;
    cbv zeta.
  rewrite poller_run, Hfirst; cbv zeta; cbn [outcome events].
  rewrite fetch_count_cons_get, sleep_count_cons_get.
  destruct (poll_loop_finished_without_url batch_job_id max_poll_attempts
              (m - 1) (S (Z.to_nat max_poll_attempts)) batch_job 0
              (after_get w) finished) as (Hout & Hfetches & Hsleeps);
    try assumption; try lia.
  - intros k Hk. destruct (Hbefore (S k)) as (j & Hj & Hrest); [lia | ].
    exists j. rewrite fetched_after_get. split; assumption.
  - rewrite fetched_after_get. replace (S (m - 1)) with m by lia.
    exact Hfetch.
  - rewrite Hout, Hfetches, Hsleeps. repeat split; lia.
Qed.

Lemma finished_without_url_stops_polling_witness :
  let w := scripted [pending_stub; pending_stub]
             (answers (job "CANCELED" None)) (fun _ => 0) in
  let r := GetBatchJobDownloadUrlWhenReady 42 5 w in
  outcome r = Raise timeout_error /\
  fetch_count (events r) = 3%nat /\ sleep_count (events r) = 2%nat.
Proof.
  apply (finished_without_url_stops_polling
           (scripted [pending_stub; pending_stub]
              (answers (job "CANCELED" None)) (fun _ => 0))
           42 5 2 (job "CANCELED" None)).
  - lia.
  - lia.
  - exists (job "ACTIVE" None). split; reflexivity.
  - intros k Hk. assert (k = 1%nat) as -> by lia.
    exists (job "ACTIVE" None). repeat split.
  - reflexivity.
  - reflexivity.
  - reflexivity.
Defined.

(** ** A larger budget *)

Lemma poll_loop_larger_budget (batch_job_id : Z) fuel :
  forall fuel' max_poll_attempts larger batch_job poll_attempt w location,
  outcome (poll_loop fuel batch_job_id max_poll_attempts batch_job
             poll_attempt w) = Return location ->
  max_poll_attempts <= larger ->
  (Z.to_nat (larger - poll_attempt) < fuel')%nat ->
  poll_loop fuel' batch_job_id larger batch_job poll_attempt w
  = poll_loop fuel batch_job_id max_poll_attempts batch_job poll_attempt w.
Proof.
  induction fuel as [ | fuel IH];
    intros fuel' max_poll_attempts larger batch_job poll_attempt w location.
  { discriminate. }
  destruct (in_range poll_attempt max_poll_attempts && is_pending batch_job)
    eqn:Hc.
  - intros Hret Hlarger Hfuel.
    destruct fuel' as [ | fuel']; [lia | ].
    pose proof Hc as Hc'. apply turn_condition in Hc' as [Hrange Hpending].
    rewrite (poll_loop_turn batch_job_id larger)
      by (apply turn_condition; split; [lia | assumption]).
    rewrite (poll_loop_turn batch_job_id max_poll_attempts) in Hret |- *
      by exact Hc.
    destruct (fetched w 0) as [e | fresh]; [reflexivity | ].
    destruct (downloadUrl fresh) as [download_url | ]; [reflexivity | ].
    cbv zeta in Hret |- *; cbn [outcome] in Hret.
    rewrite (IH fuel' max_poll_attempts larger fresh (poll_attempt + 1)
               (after_get (after_draw w)) location Hret Hlarger) by lia.
    reflexivity.
  - rewrite poll_loop_exit by exact Hc. discriminate.
Qed.

(** X4: a run that returns a URL is not changed by a larger budget: with
    any [larger >= max_poll_attempts] the poller returns the same URL after
    the same events. *)
Theorem larger_budget_same_result
    (w : World) (batch_job_id max_poll_attempts larger : Z)
    (location : string) :
  outcome (GetBatchJobDownloadUrlWhenReady batch_job_id max_poll_attempts w)
  = Return location ->
  max_poll_attempts <= larger ->
  GetBatchJobDownloadUrlWhenReady batch_job_id larger w
  = GetBatchJobDownloadUrlWhenReady batch_job_id max_poll_attempts w.
Proof.
  rewrite !poller_run.
  destruct (fetched w 0) as [e | batch_job]; [reflexivity | ].
  cbv zeta; cbn [outcome]. intros Hret Hlarger.
  rewrite (poll_loop_larger_budget batch_job_id
             (S (Z.to_nat max_poll_attempts)) (S (Z.to_nat larger))
             max_poll_attempts larger batch_job 0 (after_get w) location
             Hret Hlarger); [reflexivity | ].
  apply enough_fuel.
Qed.

Lemma larger_budget_same_result_witness :
  let w := scripted [pending_stub; pending_stub]
             (ready_stub "https://batch/result") (fun _ => 0) in
  GetBatchJobDownloadUrlWhenReady 42 9 w
  = GetBatchJobDownloadUrlWhenReady 42 2 w.
Proof.
  apply (larger_budget_same_result
           (scripted [pending_stub; pending_stub]
              (ready_stub "https://batch/result") (fun _ => 0))
           42 2 9 "https://batch/result").
  - reflexivity.
  - lia.
Defined.

(** ** The time spent sleeping *)

Lemma total_sleep_app (t1 t2 : list Event) :
  total_sleep (t1 ++ t2) = total_sleep t1 + total_sleep t2.
Proof.
  unfold total_sleep. rewrite sleeps_app.
  induction (sleeps t1) as [ | d ds IH]; simpl; lia.
Qed.

Lemma draw_jitter (draw : Z) : 0 <= draw <= 10000 -> 0 <= draw / 1000 <= 10.
Proof. intros Hdraw. Z.div_mod_to_equations. lia. Qed.

Lemma poll_loop_total_sleep (batch_job_id max_poll_attempts : Z) fuel :
  forall batch_job poll_attempt w,
  0 <= poll_attempt ->
  (forall k, 0 <= randint_draws w k <= 10000) ->
  let r := poll_loop fuel batch_job_id max_poll_attempts batch_job
             poll_attempt w in
  let turns := Z.of_nat (sleep_count (events r)) in
  30 * 2 ^ poll_attempt * (2 ^ turns - 1) <= total_sleep (events r)
  <= 30 * 2 ^ poll_attempt * (2 ^ turns - 1) + 10 * turns.
Proof.
  induction fuel as [ | fuel IH]; intros batch_job poll_attempt w Hpos Hdraws;
    cbv zeta.
  { change (2 ^ Z.of_nat _) with 1. change (total_sleep _) with 0. lia. }
  assert (Hcycle : total_sleep (cycle_events batch_job_id poll_attempt w)
                   = 30 * 2 ^ poll_attempt + randint_draws w 0%nat / 1000).
  { unfold total_sleep, cycle_events, sleep_interval_of. simpl. lia. }
  pose proof (draw_jitter _ (Hdraws 0%nat)) as Hjitter.
  assert (Hone : forall rest,
    sleep_count rest = 0%nat -> total_sleep rest = 0 ->
    30 * 2 ^ poll_attempt
      * (2 ^ Z.of_nat (sleep_count
                         (cycle_events batch_job_id poll_attempt w ++ rest))
         - 1)
    <= total_sleep (cycle_events batch_job_id poll_attempt w ++ rest)
    <= 30 * 2 ^ poll_attempt
         * (2 ^ Z.of_nat (sleep_count
                            (cycle_events batch_job_id poll_attempt w ++ rest))
            - 1)
       + 10 * Z.of_nat (sleep_count
                          (cycle_events batch_job_id poll_attempt w ++ rest))).
  { intros rest Hcount Htotal.
    rewrite sleep_count_app, total_sleep_app, sleep_count_cycle, Hcount,
      Htotal, Hcycle.
    change (2 ^ Z.of_nat (1 + 0)) with 2. lia. }
  poll_cases Hc;
    [ | change (2 ^ Z.of_nat _) with 1; change (total_sleep _) with 0; lia].
  destruct (fetched w 0) as [e | fresh]; cbn [events].
  { rewrite <- (app_nil_r (cycle_events batch_job_id poll_attempt w)).
    apply Hone; reflexivity. }
  destruct (downloadUrl fresh) as [download_url | ]; cbv zeta; cbn [events].
  { apply Hone; reflexivity. }
  specialize (IH fresh (poll_attempt + 1) (after_get (after_draw w))).
  cbv zeta in IH.
  rewrite sleep_count_app, total_sleep_app, sleep_count_cycle, Hcycle.
  set (rest := events (poll_loop fuel batch_job_id max_poll_attempts fresh
                         (poll_attempt + 1) (after_get (after_draw w)))) in *.
  assert (IH' := IH ltac:(lia) (fun k => Hdraws (S k))). clear IH.
  clear Hone. rewrite Nat2Z.inj_add, Z.pow_add_r by lia.
  rewrite Z.pow_add_r in IH' by lia.
  change (2 ^ Z.of_nat 1) with 2. change (2 ^ 1) with 2 in IH'.
  assert (Hpow : 0 < 2 ^ poll_attempt) by (apply Z.pow_pos_nonneg; lia).
  assert (Hturns : 1 <= 2 ^ Z.of_nat (sleep_count rest)) by apply pow2_pos.
  nia.
Qed.

(** X5: when [random.randint(0, 10000)] keeps to its range, a run with [k]
    sleeps has slept between [30 * (2^k - 1)] and [30 * (2^k - 1) + 10 * k]
    seconds in all; with a budget [M >= 0] that is at most
    [30 * (2^M - 1) + 10 * M] seconds (980 seconds for the default budget
    of 5). *)
Theorem total_sleep_bounds (w : World) (batch_job_id max_poll_attempts : Z) :
  (forall k, 0 <= randint_draws w k <= 10000) ->
  0 <= max_poll_attempts ->
  let trace :=
    events (GetBatchJobDownloadUrlWhenReady batch_job_id max_poll_attempts w) in
  let turns := Z.of_nat (sleep_count trace) in
  30 * (2 ^ turns - 1) <= total_sleep trace <= 30 * (2 ^ turns - 1) + 10 * turns
  /\ total_sleep trace
     <= 30 * (2 ^ max_poll_attempts - 1) + 10 * max_poll_attempts.
Proof.
  intros Hdraws Hbudget; cbv zeta.
  rewrite poller_run.
  destruct (fetched w 0) as [e | batch_job]; cbv zeta; cbn [events].
  { change (total_sleep [_]) with 0. change (sleep_count [_]) with 0%nat.
    assert (0 < 2 ^ max_poll_attempts) by (apply Z.pow_pos_nonneg; lia).
    change (2 ^ Z.of_nat 0) with 1. lia. }
  pose proof (poll_loop_total_sleep batch_job_id max_poll_attempts
                (S (Z.to_nat max_poll_attempts)) batch_job 0 (after_get w)
                (Z.le_refl 0) Hdraws) as Hloop.
  pose proof (poll_loop_counts batch_job_id max_poll_attempts
                (S (Z.to_nat max_poll_attempts)) batch_job 0 (after_get w))
    as [Hsleeps Hfetches].
  cbv zeta in Hloop. rewrite Z.sub_0_r in Hfetches.
  set (rest := events (poll_loop (S (Z.to_nat max_poll_attempts)) batch_job_id
                         max_poll_attempts batch_job 0 (after_get w))) in *.
  change (total_sleep (?e :: rest)) with (total_sleep rest).
  rewrite sleep_count_cons_get.
  change (2 ^ 0) with 1 in Hloop.
  split; [lia | ].
  assert (Hturns : Z.of_nat (sleep_count rest) <= max_poll_attempts) by lia.
  assert (Hpow : 2 ^ Z.of_nat (sleep_count rest) <= 2 ^ max_poll_attempts)
    by (apply Z.pow_le_mono_r; lia).
  lia.
Qed.

Lemma total_sleep_bounds_witness :
  let w := scripted [] pending_stub (fun _ => 10000) in
  let trace := events (GetBatchJobDownloadUrlWhenReady 42 MAX_POLL_ATTEMPTS w) in
  let turns := Z.of_nat (sleep_count trace) in
  30 * (2 ^ turns - 1) <= total_sleep trace <= 30 * (2 ^ turns - 1) + 10 * turns
  /\ total_sleep trace <= 30 * (2 ^ MAX_POLL_ATTEMPTS - 1) + 10 * MAX_POLL_ATTEMPTS.
Proof.
  apply (total_sleep_bounds (scripted [] pending_stub (fun _ => 10000)) 42
           MAX_POLL_ATTEMPTS).
  - intros k. simpl. lia.
  - unfold MAX_POLL_ATTEMPTS. lia.
Defined.

(** The bound is reached: an always-pending job and draws of 10000 make the
    default budget sleep 980 seconds. *)
Example worst_case_sleep :
  total_sleep (events (GetBatchJobDownloadUrlWhenReady 42 MAX_POLL_ATTEMPTS
                         (scripted [] pending_stub (fun _ => 10000))))
  = 980.
Proof. reflexivity. Qed.

(** ** What is logged *)

Lemma poll_loop_sleeps_logged (batch_job_id max_poll_attempts : Z) fuel :
  forall batch_job poll_attempt w i seconds,
  let trace := events (poll_loop fuel batch_job_id max_poll_attempts batch_job
                         poll_attempt w) in
  nth_error trace i = Some (EvSleep seconds) ->
  exists i', i = S i' /\
    nth_error trace i' = Some (EvLogInfo not_ready_format [VInt seconds]).
Proof.
  induction fuel as [ | fuel IH]; intros batch_job poll_attempt w i seconds;
    cbv zeta.
  { destruct i; discriminate. }
  poll_cases Hc; [ | destruct i; discriminate].
  assert (Hhere : forall rest,
    (forall i', nth_error rest i' = Some (EvSleep seconds) ->
       exists i'', i' = S i'' /\
         nth_error rest i'' = Some (EvLogInfo not_ready_format [VInt seconds])) ->
    nth_error (cycle_events batch_job_id poll_attempt w ++ rest) i
    = Some (EvSleep seconds) ->
    exists i', i = S i' /\
      nth_error (cycle_events batch_job_id poll_attempt w ++ rest) i'
      = Some (EvLogInfo not_ready_format [VInt seconds])).
  { intros rest Hrest. unfold cycle_events. cbn [app].
    destruct i as [ | [ | [ | i]]]; cbn [nth_error]; try discriminate.
    - intros [= <-]. exists 0%nat. split; reflexivity.
    - intros H. destruct (Hrest i H) as (i'' & -> & Hlog).
      exists (S (S (S i''))). split; [reflexivity | exact Hlog]. }
  assert (Hnone : forall rest : list Event,
    (forall e, In e rest -> is_sleep e = false) ->
    forall i', nth_error rest i' = Some (EvSleep seconds) ->
      exists i'', i' = S i'' /\
        nth_error rest i'' = Some (EvLogInfo not_ready_format [VInt seconds])).
  { intros rest Hrest i' H. apply nth_error_In in H. apply Hrest in H.
    discriminate. }
  destruct (fetched w 0) as [e | fresh]; cbn [events].
  { rewrite <- (app_nil_r (cycle_events batch_job_id poll_attempt w)).
    apply Hhere, Hnone. intros e' []. }
  destruct (downloadUrl fresh) as [download_url | ]; cbv zeta; cbn [events].
  - apply Hhere, Hnone. intros e' [<- | []]. reflexivity.
  - apply Hhere. intros i'. apply IH.
Qed.

(** X6: every sleep of a run comes right after the log record that
    announces it, and the record gives the very duration of the sleep. *)
Theorem sleeps_are_announced (w : World) (batch_job_id max_poll_attempts : Z) :
  let trace :=
    events (GetBatchJobDownloadUrlWhenReady batch_job_id max_poll_attempts w) in
  forall i seconds,
    nth_error trace i = Some (EvSleep seconds) ->
    exists i', i = S i' /\
      nth_error trace i' = Some (EvLogInfo not_ready_format [VInt seconds]).
Proof.
  cbv zeta. rewrite poller_run.
  destruct (fetched w 0) as [e | batch_job]; cbv zeta; cbn [events];
    intros [ | i] seconds; cbn [nth_error]; try discriminate.
  - destruct i; discriminate.
  - intros H. apply poll_loop_sleeps_logged in H as (i' & -> & Hlog).
    exists (S i'). split; [reflexivity | exact Hlog].
Qed.

Lemma sleeps_are_announced_witness :
  let trace := events (GetBatchJobDownloadUrlWhenReady 42 5
                         (scripted [] pending_stub (fun _ => 2500))) in
  exists i', 2%nat = S i' /\
    nth_error trace i' = Some (EvLogInfo not_ready_format [VInt 32]).
Proof.
  apply (sleeps_are_announced (scripted [] pending_stub (fun _ => 2500)) 42 5
           2 32).
  reflexivity.
Defined.

Lemma poll_loop_returned_url (batch_job_id max_poll_attempts : Z) fuel :
  forall batch_job poll_attempt w location,
  let r := poll_loop fuel batch_job_id max_poll_attempts batch_job
             poll_attempt w in
  outcome r = Return location ->
  exists before last others,
    events r
    = (before ++ [EvGet (GetBatchJob_selector batch_job_id) (inr (last :: others));
                  EvLogInfo ready_format
                    [VInt (id last); VStr (status last); VStr location]])%list
    /\ has_url last location.
Proof.
  induction fuel as [ | fuel IH]; intros batch_job poll_attempt w location;
    cbv zeta.
  { discriminate. }
  poll_cases Hc; [ | discriminate].
  destruct (fetched w 0) as [e | fresh] eqn:Hfetch; [discriminate | ].
  apply fetched_inr in Hfetch as [others Hanswer].
  destruct (downloadUrl fresh) as [[found] | ] eqn:Hurl; cbv zeta;
    cbn [outcome events url].
  - intros [= <-].
    exists [EvLogInfo not_ready_format
              [VInt (sleep_interval_of poll_attempt (randint_draws w 0%nat))];
            EvSleep (sleep_interval_of poll_attempt (randint_draws w 0%nat))],
      fresh, others.
    unfold cycle_events. rewrite Hanswer. split; [reflexivity | exact Hurl].
  - intros Hret. apply IH in Hret as (before & last & others' & Hevents & Hlast).
    exists (cycle_events batch_job_id poll_attempt w ++ before)%list, last,
      others'.
    rewrite Hevents, app_assoc. split; [reflexivity | exact Hlast].
Qed.

(** X7: when the poller returns a URL, the run ends with a fetch of a job
    that carries this URL, followed by the log record that names the id, the
    status and the URL of that job; the URL of an earlier fetch is never
    returned. *)
Theorem returned_url_is_last_fetched
    (w : World) (batch_job_id max_poll_attempts : Z) (location : string) :
  let r := GetBatchJobDownloadUrlWhenReady batch_job_id max_poll_attempts w in
  outcome r = Return location ->
  exists before last others,
    events r
    = (before ++ [EvGet (GetBatchJob_selector batch_job_id) (inr (last :: others));
                  EvLogInfo ready_format
                    [VInt (id last); VStr (status last); VStr location]])%list
    /\ has_url last location.
Proof.
  cbv zeta. rewrite poller_run.
  destruct (fetched w 0) as [e | batch_job]; [discriminate | ].
  cbv zeta; cbn [outcome events]. intros Hret.
  apply poll_loop_returned_url in Hret
    as (before & last & others & Hevents & Hlast).
  exists (EvGet (GetBatchJob_selector batch_job_id) (service_answers w 0%nat)
          :: before), last, others.
  rewrite Hevents. split; [reflexivity | exact Hlast].
Qed.

Lemma returned_url_is_last_fetched_witness :
  let w := scripted [pending_stub; pending_stub]
             (ready_stub "https://batch/result") (fun _ => 0) in
  let r := GetBatchJobDownloadUrlWhenReady 42 5 w in
  exists before last others,
    events r
    = (before ++ [EvGet (GetBatchJob_selector 42) (inr (last :: others));
                  EvLogInfo ready_format
                    [VInt (id last); VStr (status last);
                     VStr "https://batch/result"]])%list
    /\ has_url last "https://batch/result".
Proof.
  apply (returned_url_is_last_fetched
           (scripted [pending_stub; pending_stub]
              (ready_stub "https://batch/result") (fun _ => 0))
           42 5 "https://batch/result").
  reflexivity.
Defined.

(** ** What the poller uses *)

Lemma poll_loop_uses (batch_job_id max_poll_attempts : Z) fuel :
  forall batch_job poll_attempt w,
  let r := poll_loop fuel batch_job_id max_poll_attempts batch_job
             poll_attempt w in
  (forall k, service_answers (world_after r) k
             = service_answers w (fetch_count (events r) + k)%nat) /\
  (forall k, randint_draws (world_after r) k
             = randint_draws w (sleep_count (events r) + k)%nat) /\
  uuid4_draws (world_after r) = uuid4_draws w /\
  temporary_ids (world_after r) = temporary_ids w /\
  Forall (fun e => forall selector answer,
            e = EvGet selector answer ->
            selector = GetBatchJob_selector batch_job_id)
         (events r).
Proof.
  induction fuel as [ | fuel IH]; intros batch_job poll_attempt w; cbv zeta.
  { repeat split. constructor. }
  assert (Hcycle : Forall (fun e => forall selector answer,
                     e = EvGet selector answer ->
                     selector = GetBatchJob_selector batch_job_id)
                     (cycle_events batch_job_id poll_attempt w)).
  { repeat constructor; try discriminate. intros selector answer [= <- _].
    reflexivity. }
  poll_cases Hc; [ | repeat split; constructor].
  destruct (fetched w 0) as [e | fresh]; cbn [events world_after].
  { repeat split. exact Hcycle. }
  destruct (downloadUrl fresh) as [download_url | ]; cbv zeta;
    cbn [events world_after].
  { repeat split. apply Forall_app. split; [exact Hcycle | ].
    repeat constructor. discriminate. }
  destruct (IH fresh (poll_attempt + 1) (after_get (after_draw w)))
    as (Hanswers & Hdraws & Huuids & Hids & Hselectors).
  rewrite fetch_count_app, sleep_count_app, fetch_count_cycle,
    sleep_count_cycle.
  repeat split.
  - intros k. rewrite Hanswers. reflexivity.
  - intros k. rewrite Hdraws. reflexivity.
  - rewrite Huuids. reflexivity.
  - rewrite Hids. reflexivity.
  - apply Forall_app. split; assumption.
Qed.

(** X8: the poller takes exactly one answer of the service per fetch and
    one draw of [random.randint] per sleep, and it leaves the id generator
    and [uuid.uuid4] alone. *)
Theorem poller_uses_one_answer_per_fetch
    (w : World) (batch_job_id max_poll_attempts : Z) :
  let r := GetBatchJobDownloadUrlWhenReady batch_job_id max_poll_attempts w in
  (forall k, service_answers (world_after r) k
             = service_answers w (fetch_count (events r) + k)%nat) /\
  (forall k, randint_draws (world_after r) k
             = randint_draws w (sleep_count (events r) + k)%nat) /\
  uuid4_draws (world_after r) = uuid4_draws w /\
  temporary_ids (world_after r) = temporary_ids w.
Proof.
  cbv zeta. rewrite poller_run.
  destruct (fetched w 0) as [e | batch_job]; cbv zeta;
    cbn [events world_after].
  { repeat split. }
  destruct (poll_loop_uses batch_job_id max_poll_attempts
              (S (Z.to_nat max_poll_attempts)) batch_job 0 (after_get w))
    as (Hanswers & Hdraws & Huuids & Hids & _).
  rewrite fetch_count_cons_get, sleep_count_cons_get.
  repeat split.
  - intros k. rewrite Hanswers. reflexivity.
  - intros k. rewrite Hdraws. reflexivity.
  - rewrite Huuids. reflexivity.
  - rewrite Hids. reflexivity.
Qed.

(** X9: every fetch of a run asks the service for the job with the given
    id and for nothing else: the selector has the fields Id, Status and
    DownloadUrl and the single predicate [Id EQUALS batch_job_id]. *)
Theorem every_fetch_selects_the_job
    (w : World) (batch_job_id max_poll_attempts : Z) :
  let r := GetBatchJobDownloadUrlWhenReady batch_job_id max_poll_attempts w in
  forall selector answer,
    In (EvGet selector answer) (events r) ->
    fields selector = ["Id"; "Status"; "DownloadUrl"] /\
    predicates selector
    = [ {| field := "Id"; operator := "EQUALS"; values := [batch_job_id] |} ].
Proof.
  cbv zeta. intros selector answer Hin.
  assert (Hselector : selector = GetBatchJob_selector batch_job_id).
  { revert Hin. rewrite poller_run.
    destruct (fetched w 0) as [e | batch_job]; cbv zeta; cbn [events].
    - intros [[= <- _] | []]. reflexivity.
    - intros [[= <- _] | Hin]; [reflexivity | ].
      destruct (poll_loop_uses batch_job_id max_poll_attempts
                  (S (Z.to_nat max_poll_attempts)) batch_job 0 (after_get w))
        as (_ & _ & _ & _ & Hselectors).
      rewrite Forall_forall in Hselectors.
      apply (Hselectors _ Hin selector answer eq_refl). }
  subst selector. split; reflexivity.
Qed.

Lemma every_fetch_selects_the_job_witness :
  let selector := GetBatchJob_selector 42 in
  fields selector = ["Id"; "Status"; "DownloadUrl"] /\
  predicates selector
  = [ {| field := "Id"; operator := "EQUALS"; values := [42] |} ].
Proof.
  apply (every_fetch_selects_the_job (scripted [] pending_stub (fun _ => 0))
           42 5 (GetBatchJob_selector 42) pending_stub).
  simpl. left. reflexivity.
Defined.

(** * Further properties of the builders *)

(** ** More on list comprehensions *)

Lemma world_after_bind_return {A B : Type} (m : M A) (k : A -> M B) (w : World)
    (a : A) :
  outcome (m w) = Return a ->
  world_after (bind m k w) = world_after (k a (world_after (m w))).
Proof. unfold bind; intros ->; reflexivity. Qed.

Lemma outcome_bind_inv {A B : Type} (m : M A) (k : A -> M B) (w : World)
    (b : B) :
  outcome (bind m k w) = Return b ->
  exists a, outcome (m w) = Return a /\
            outcome (k a (world_after (m w))) = Return b.
Proof.
  unfold bind. destruct (outcome (m w)) as [a | e | ]; try discriminate.
  intros H. exists a. split; [reflexivity | exact H].
Qed.

Lemma world_after_bind_kept {A B : Type} (m : M A) (k : A -> M B) (w : World) :
  world_after (m w) = w ->
  (forall a, world_after (k a w) = w) ->
  world_after (bind m k w) = w.
Proof.
  unfold bind. intros Hm Hk.
  destruct (outcome (m w)) as [a | e | ]; cbn [world_after];
    rewrite ?Hm; auto.
Qed.

Lemma world_after_lift {A : Type} (r : exn + A) (w : World) :
  world_after (lift r w) = w.
Proof. destruct r; reflexivity. Qed.

Lemma advanced_refl (w : World) : advanced 0 w w.
Proof. repeat split. Qed.

(** A comprehension whose body returns for each item, given an invariant
    of the world that the body keeps. *)
Lemma for_each_invariant {A B : Type} (body : A -> M B)
    (I : nat -> World -> Prop) (P : nat -> A -> B -> Prop) (xs : list A) :
  forall offset w,
  (forall i x w', nth_error xs i = Some x -> I (offset + i)%nat w' ->
     exists y, outcome (body x w') = Return y /\ P (offset + i)%nat x y /\
               I (offset + S i)%nat (world_after (body x w'))) ->
  I offset w ->
  exists ys,
    outcome (for_each xs body w) = Return ys /\
    I (offset + List.length xs)%nat (world_after (for_each xs body w)) /\
    List.length ys = List.length xs /\
    forall i x, nth_error xs i = Some x ->
      exists y, nth_error ys i = Some y /\ P (offset + i)%nat x y.
Proof.
  induction xs as [ | x xs IH]; intros offset w Hbody Hstart.
  - exists []. cbn [for_each ret outcome world_after List.length].
    rewrite Nat.add_0_r. repeat split; try assumption.
    intros i x' H. destruct i; discriminate.
  - destruct (Hbody 0%nat x w eq_refl) as (y & Hy & HP & Hnext).
    { rewrite Nat.add_0_r. exact Hstart. }
    rewrite Nat.add_0_r in HP.
    destruct (IH (S offset) (world_after (body x w))) as (ys & Hys & Hend & Hlen & Hnth).
    { intros i x' w' Hi HI.
      destruct (Hbody (S i) x' w' Hi) as (y' & Hy' & HP' & Hnext').
      - rewrite Nat.add_succ_r. exact HI.
      - exists y'. rewrite !Nat.add_succ_r in *. repeat split; assumption. }
    { rewrite Nat.add_1_r in Hnext. exact Hnext. }
    exists (y :: ys). cbn [for_each].
    rewrite (outcome_bind_return _ _ _ _ Hy), (world_after_bind_return _ _ _ _ Hy).
    rewrite (outcome_bind_return _ _ _ _ Hys),
      (world_after_bind_return _ _ _ _ Hys).
    cbn [ret outcome world_after List.length].
    rewrite Nat.add_succ_r. repeat split; try assumption.
    + rewrite Hlen. reflexivity.
    + intros [ | i] x' Hi; cbn [nth_error] in *.
      * injection Hi as <-. exists y. rewrite Nat.add_0_r.
        split; [reflexivity | exact HP].
      * destruct (Hnth i x' Hi) as (y' & Hy' & HP').
        exists y'. rewrite Nat.add_succ_r. split; assumption.
Qed.

(** What a comprehension returns was returned by its body, item by item. *)
Lemma for_each_outputs {A B : Type} (body : A -> M B) (xs : list A) :
  forall w ys,
  outcome (for_each xs body w) = Return ys ->
  Forall2 (fun x y => exists w', outcome (body x w') = Return y) xs ys.
Proof.
  induction xs as [ | x xs IH]; intros w ys; cbn [for_each].
  - intros [= <-]. constructor.
  - intros H. apply outcome_bind_inv in H as (y & Hy & H).
    apply outcome_bind_inv in H as (ys' & Hys' & H).
    injection H as <-. constructor; [exists w; exact Hy | ].
    apply (IH _ _ Hys').
Qed.

Lemma for_each_kept {A B : Type} (body : A -> M B) (xs : list A) :
  (forall x w, world_after (body x w) = w) ->
  forall w, world_after (for_each xs body w) = w.
Proof.
  intros Hbody. induction xs as [ | x xs IH]; intros w; cbn [for_each].
  - reflexivity.
  - apply world_after_bind_kept; [apply Hbody | ].
    intros y. apply world_after_bind_kept; [apply IH | reflexivity].
Qed.

(** The same for a comprehension with two [for] clauses: the item for the
    [a]-th [x] and the [i]-th [y] is at position [a * len(ys) + i]. *)
Lemma for_each2_invariant {A B C : Type} (body : A -> B -> M C)
    (J : nat -> World -> Prop) (Q : nat -> A -> B -> C -> Prop)
    (xs : list A) (ys : list B) (w : World) :
  let n := List.length ys in
  (forall a i x y w', nth_error xs a = Some x -> nth_error ys i = Some y ->
     J (a * n + i)%nat w' ->
     exists c, outcome (body x y w') = Return c /\ Q (a * n + i)%nat x y c /\
               J (a * n + S i)%nat (world_after (body x y w'))) ->
  J 0%nat w ->
  exists cs,
    outcome (for_each2 xs ys body w) = Return cs /\
    J (List.length xs * n)%nat (world_after (for_each2 xs ys body w)) /\
    List.length cs = (List.length xs * n)%nat /\
    forall a i x y, nth_error xs a = Some x -> nth_error ys i = Some y ->
      exists c, nth_error cs (a * n + i) = Some c /\ Q (a * n + i)%nat x y c.
Proof.
  intros n Hbody Hstart.
  destruct (for_each_invariant (fun x => for_each ys (body x))
              (fun a w' => J (a * n)%nat w')
              (fun a x row =>
                 List.length row = n /\
                 forall i y, nth_error ys i = Some y ->
                   exists c, nth_error row i = Some c /\
                             Q (a * n + i)%nat x y c)
              xs 0%nat w) as (rows & Hrows & Hend & Hlen & Hnth).
  { intros a x w' Ha HJ. cbn [Nat.add] in *.
    destruct (for_each_invariant (body x) J (fun k y c => Q k x y c) ys
                (a * n)%nat w') as (row & Hrow & Hrow_end & Hrow_len & Hrow_nth).
    - intros i y w'' Hi HJ'. apply (Hbody a i x y w'' Ha Hi HJ').
    - exact HJ.
    - exists row. split; [exact Hrow | ]. split; [split | ].
      + exact Hrow_len.
      + exact Hrow_nth.
      + replace (S a * n)%nat with (a * n + List.length ys)%nat
          by (subst n; lia).
        exact Hrow_end. }
  { exact Hstart. }
  cbn [Nat.add] in *.
  assert (Hlengths : Forall (fun row => List.length row = n) rows).
  { apply Forall_forall. intros row Hin.
    apply In_nth_error in Hin as [a Ha].
    assert (Hsome : nth_error xs a <> None).
    { apply nth_error_Some. rewrite <- Hlen. apply nth_error_Some.
      rewrite Ha. discriminate. }
    destruct (nth_error xs a) as [x | ] eqn:Hx; [ | contradiction].
    destruct (Hnth a x Hx) as (row' & Hrow' & Hlength & _).
    congruence. }
  exists (List.concat rows). unfold for_each2.
  rewrite (outcome_bind_return _ _ _ _ Hrows),
    (world_after_bind_return _ _ _ _ Hrows).
  cbn [ret outcome world_after].
  split; [reflexivity | ]. split; [exact Hend | ]. split.
  - rewrite (length_concat_rows _ _ Hlengths), Hlen. reflexivity.
  - intros a i x y Ha Hi.
    destruct (Hnth a x Ha) as (row & Hrow & _ & Hitems).
    destruct (Hitems i y Hi) as (c & Hc & HQ).
    exists c. split; [ | exact HQ].
    rewrite (nth_error_concat_rows _ _ Hlengths a i row Hrow); [exact Hc | ].
    apply nth_error_Some. rewrite Hi. discriminate.
Qed.

Lemma advanced_step (n : nat) (w w' : World) :
  advanced n w w' ->
  advanced (n + 1) w (after_uuid4 (after_GetId w')) /\
  advanced (n + 1) w (after_GetId (after_uuid4 w')) /\
  temporary_ids w' 0%nat = temporary_ids w n /\
  uuid4_draws w' 0%nat = uuid4_draws w n.
Proof.
  intros (Hids & Huuids & Hanswers & Hdraws).
  assert (Hnext_id : forall k,
    temporary_ids w' (S k) = temporary_ids w (n + 1 + k)%nat).
  { intros k. rewrite Hids. f_equal. lia. }
  assert (Hnext_uuid : forall k,
    uuid4_draws w' (S k) = uuid4_draws w (n + 1 + k)%nat).
  { intros k. rewrite Huuids. f_equal. lia. }
  split; [ | split; [ | split]].
  - split; [exact Hnext_id | ]. split; [exact Hnext_uuid | ].
    split; assumption.
  - split; [exact Hnext_id | ]. split; [exact Hnext_uuid | ].
    split; assumption.
  - rewrite Hids, Nat.add_0_r. reflexivity.
  - rewrite Huuids, Nat.add_0_r. reflexivity.
Qed.

Lemma world_after_lift_inr {A B : Type} (r : exn + A) (a : A) (k : A -> M B)
    (w : World) :
  r = inr a -> world_after (bind (lift r) k w) = world_after (k a w).
Proof. intros ->; reflexivity. Qed.

(** ** The campaigns *)

(** X10: given a budget operation with a budgetId, BuildCampaignOperations
    gives the [i]-th campaign the [i]-th next id of the generator and the
    name ['Batch Campaign #'] followed by the [i]-th next uuid; it takes
    [n] ids and [n] uuids and nothing else, where [n] is
    [number_of_campaigns], or 0 when that is negative. *)
Theorem campaigns_take_the_next_ids (w : World) (budget_operations : list value)
    (number_of_campaigns : Z) (first_operation : value) (others : list value)
    (budget_id : value) :
  budget_operations = first_operation :: others ->
  path first_operation ["operand"; "budgetId"] = Some budget_id ->
  let r := BuildCampaignOperations budget_operations number_of_campaigns w in
  let n := Z.to_nat number_of_campaigns in
  exists campaign_operations,
    outcome r = Return campaign_operations /\
    List.length campaign_operations = n /\
    advanced n w (world_after r) /\
    forall i, (i < n)%nat ->
      exists campaign_operation,
        nth_error campaign_operations i = Some campaign_operation /\
        has_id campaign_operation (VInt (temporary_ids w i)) /\
        path campaign_operation ["operand"; "name"]
        = Some (VStr ("Batch Campaign #" ++ uuid4_draws w i)).
Proof.
  intros -> Hpath; cbv zeta.
  apply path_two in Hpath as (operand & Hoperand & Hbudget).
  unfold BuildCampaignOperations.
  rewrite (outcome_lift_inr _ first_operation),
    (world_after_lift_inr _ first_operation) by reflexivity.
  rewrite (outcome_lift_inr _ operand), (world_after_lift_inr _ operand)
    by exact Hoperand.
  rewrite (outcome_lift_inr _ budget_id), (world_after_lift_inr _ budget_id)
    by exact Hbudget.
  match goal with
  | |- context [for_each ?xs ?body w] =>
      destruct (for_each_invariant body
                  (fun i w' => advanced i w w')
                  (fun i (_ : Z) campaign_operation =>
                     has_id campaign_operation (VInt (temporary_ids w i)) /\
                     path campaign_operation ["operand"; "name"]
                     = Some (VStr ("Batch Campaign #" ++ uuid4_draws w i)))
                  xs 0%nat w)
        as (campaign_operations & Hreturn & Hend & Hlength & Hnth)
  end.
  { intros i x w' _ Hadvanced. cbn [Nat.add] in *.
    destruct (advanced_step i w w' Hadvanced) as (_ & Hnext & Hid & Huuid).
    eexists. split; [reflexivity | ]. split; [split | ].
    - unfold has_id. cbn. rewrite Hid. reflexivity.
    - cbn. rewrite Huuid. reflexivity.
    - rewrite <- Nat.add_1_r. exact Hnext. }
  { apply advanced_refl. }
  rewrite length_range in *. cbn [Nat.add] in *.
  exists campaign_operations.
  split; [exact Hreturn | ]. split; [exact Hlength | ]. split; [exact Hend | ].
  intros i Hi.
  destruct (Hnth i (Z.of_nat i) (nth_error_range _ _ Hi))
    as (campaign_operation & Hhere & Hid & Hname).
  exists campaign_operation. repeat split; assumption.
Qed.

Lemma campaigns_take_the_next_ids_witness :
  let r := BuildCampaignOperations sample_budget_operations 2 test_world in
  exists campaign_operations,
    outcome r = Return campaign_operations /\
    List.length campaign_operations = Z.to_nat 2 /\
    advanced (Z.to_nat 2) test_world (world_after r) /\
    forall i, (i < Z.to_nat 2)%nat ->
      exists campaign_operation,
        nth_error campaign_operations i = Some campaign_operation /\
        has_id campaign_operation (VInt (temporary_ids test_world i)) /\
        path campaign_operation ["operand"; "name"]
        = Some (VStr ("Batch Campaign #" ++ uuid4_draws test_world i)).
Proof.
  apply (campaigns_take_the_next_ids test_world sample_budget_operations 2
           (hd (VInt 0) sample_budget_operations)
           (tl sample_budget_operations) (VInt (-1)));
    reflexivity.
Defined.

Lemma outcome_lift_inl {A B : Type} (r : exn + A) (e : exn) (k : A -> M B)
    (w : World) :
  r = inl e -> bind (lift r) k w = raise e w.
Proof. intros ->; reflexivity. Qed.

(** X11: BuildCampaignOperations looks up the budgetId before anything
    else.  It raises IndexError for an empty list of budget operations,
    KeyError or TypeError when the first one has no operand.budgetId, in
    both cases whatever [number_of_campaigns] is and without taking an id
    or a uuid; and it raises in no other case. *)
Theorem campaign_builder_checks_the_budget_first
    (w : World) (budget_operations : list value) (number_of_campaigns : Z) :
  let r := BuildCampaignOperations budget_operations number_of_campaigns w in
  (budget_operations = [] -> outcome r = Raise IndexError) /\
  (forall first_operation others,
     budget_operations = first_operation :: others ->
     path first_operation ["operand"; "budgetId"] = None ->
     outcome r = Raise TypeError \/ outcome r = Raise (KeyError "operand") \/
     outcome r = Raise (KeyError "budgetId")) /\
  (forall e, outcome r = Raise e ->
     world_after r = w /\
     match budget_operations with
     | [] => True
     | first_operation :: _ =>
         path first_operation ["operand"; "budgetId"] = None
     end) /\
  outcome r <> OutOfFuel.
Proof.
  cbv zeta. unfold BuildCampaignOperations.
  destruct budget_operations as [ | first_operation others].
  { split; [reflexivity | ].
    split; [intros first_operation others H; discriminate H | ].
    split; [intros e _; split; [reflexivity | exact I] | discriminate]. }
  assert (Hkeys : forall v key e, subscript v key = inl e ->
                    e = TypeError \/ e = KeyError key).
  { intros v key e. unfold subscript.
    destruct v as [ | | | entries]; try (intros [= <-]; left; reflexivity).
    destruct (lookup key entries); [discriminate | ].
    intros [= <-]. right. reflexivity. }
  rewrite (outcome_lift_inr _ first_operation),
    (world_after_lift_inr _ first_operation) by reflexivity.
  cbn [path].
  destruct (subscript first_operation "operand") as [e | operand] eqn:Hoperand.
  { rewrite (outcome_lift_inl _ e) by reflexivity.
    cbn [raise outcome world_after].
    split; [discriminate | ].
    split; [intros _ _ _ _; apply Hkeys in Hoperand as [-> | ->]; auto | ].
    split; [intros e' _; split; reflexivity | discriminate]. }
  rewrite (outcome_lift_inr _ operand), (world_after_lift_inr _ operand)
    by reflexivity.
  destruct (subscript operand "budgetId") as [e | budget_id] eqn:Hbudget.
  { rewrite (outcome_lift_inl _ e) by reflexivity.
    cbn [raise outcome world_after].
    split; [discriminate | ].
    split; [intros _ _ _ _; apply Hkeys in Hbudget as [-> | ->]; auto | ].
    split; [intros e' _; split; reflexivity | discriminate]. }
  rewrite (outcome_lift_inr _ budget_id), (world_after_lift_inr _ budget_id)
    by reflexivity.
  match goal with
  | |- context [for_each ?xs ?body w] =>
      destruct (for_each_invariant body (fun _ _ => True)
                  (fun _ _ _ => True) xs 0%nat w) as (ops & Hreturn & _)
  end.
  { intros i x w' _ _. eexists. repeat split. }
  { exact I. }
  rewrite Hreturn.
  split; [discriminate | ].
  split; [ | split; [intros e H; discriminate H | discriminate]].
  intros first_operation' others' [= <- _] Hnone.
  cbn [path] in Hnone. rewrite Hoperand, Hbudget in Hnone. discriminate Hnone.
Qed.

(** ** The ad groups *)

(** X12: for campaign operations that each have an operand id,
    BuildAdGroupOperations returns [len(campaign_operations) * n] ad groups,
    [n] being [number_of_adgroups] (0 when negative); the ad group at
    position [a * n + i] belongs to the [a]-th campaign and has the
    [(a * n + i)]-th next id of the generator; as many ids and uuids are
    taken as ad groups are made. *)
Theorem adgroups_take_the_next_ids (w : World) (campaign_operations : list value)
    (number_of_adgroups : Z) :
  (forall campaign_operation, In campaign_operation campaign_operations ->
     exists campaign_id, has_id campaign_operation campaign_id) ->
  let r := BuildAdGroupOperations campaign_operations number_of_adgroups w in
  let n := Z.to_nat number_of_adgroups in
  exists adgroup_operations,
    outcome r = Return adgroup_operations /\
    List.length adgroup_operations = (List.length campaign_operations * n)%nat /\
    advanced (List.length campaign_operations * n) w (world_after r) /\
    forall a i campaign_operation,
      nth_error campaign_operations a = Some campaign_operation ->
      (i < n)%nat ->
      exists adgroup_operation,
        nth_error adgroup_operations (a * n + i) = Some adgroup_operation /\
        path adgroup_operation ["operand"; "campaignId"]
        = path campaign_operation ["operand"; "id"] /\
        has_id adgroup_operation (VInt (temporary_ids w (a * n + i))) /\
        path adgroup_operation ["operand"; "name"]
        = Some (VStr ("Batch Ad Group #" ++ uuid4_draws w (a * n + i))).
Proof.
  intros Hids; cbv zeta. unfold BuildAdGroupOperations.
  match goal with
  | |- context [for_each2 ?xs ?ys ?body w] =>
      destruct (for_each2_invariant body
                  (fun k w' => advanced k w w')
                  (fun k campaign_operation (_ : Z) adgroup_operation =>
                     path adgroup_operation ["operand"; "campaignId"]
                     = path campaign_operation ["operand"; "id"] /\
                     has_id adgroup_operation (VInt (temporary_ids w k)) /\
                     path adgroup_operation ["operand"; "name"]
                     = Some (VStr ("Batch Ad Group #" ++ uuid4_draws w k)))
                  xs ys w)
        as (adgroup_operations & Hreturn & Hend & Hlength & Hnth)
  end.
  { intros a i campaign_operation y w' Ha _ Hadvanced.
    destruct (Hids campaign_operation (nth_error_In _ _ Ha))
      as [campaign_id Hid].
    unfold has_id in Hid. rewrite Hid.
    apply path_two in Hid as (operand & Hoperand & Hid).
    rewrite (outcome_lift_inr _ operand), (world_after_lift_inr _ operand)
      by exact Hoperand.
    rewrite (outcome_lift_inr _ campaign_id),
      (world_after_lift_inr _ campaign_id) by exact Hid.
    destruct (advanced_step _ w w' Hadvanced) as (Hnext & _ & Hhere & Huuid).
    eexists. split; [reflexivity | ]. split; [split; [ | split] | ].
    - reflexivity.
    - unfold has_id. cbn. rewrite Hhere. reflexivity.
    - cbn. rewrite Huuid. reflexivity.
    - rewrite <- Nat.add_1_r, Nat.add_assoc. exact Hnext. }
  { apply advanced_refl. }
  rewrite length_range in *.
  exists adgroup_operations.
  split; [exact Hreturn | ]. split; [exact Hlength | ]. split; [exact Hend | ].
  intros a i campaign_operation Ha Hi.
  apply (Hnth a i campaign_operation (Z.of_nat i) Ha (nth_error_range _ _ Hi)).
Qed.

Lemma adgroups_take_the_next_ids_witness :
  let campaign_operations :=
    returned (BuildCampaignOperations sample_budget_operations 2 test_world) in
  let r := BuildAdGroupOperations campaign_operations 2 test_world in
  let n := Z.to_nat 2 in
  exists adgroup_operations,
    outcome r = Return adgroup_operations /\
    List.length adgroup_operations = (List.length campaign_operations * n)%nat /\
    advanced (List.length campaign_operations * n) test_world (world_after r) /\
    forall a i campaign_operation,
      nth_error campaign_operations a = Some campaign_operation ->
      (i < n)%nat ->
      exists adgroup_operation,
        nth_error adgroup_operations (a * n + i) = Some adgroup_operation /\
        path adgroup_operation ["operand"; "campaignId"]
        = path campaign_operation ["operand"; "id"] /\
        has_id adgroup_operation (VInt (temporary_ids test_world (a * n + i))) /\
        path adgroup_operation ["operand"; "name"]
        = Some (VStr ("Batch Ad Group #" ++ uuid4_draws test_world (a * n + i))).
Proof.
  apply (adgroups_take_the_next_ids test_world
           (returned (BuildCampaignOperations sample_budget_operations 2
                        test_world)) 2).
  intros campaign_operation Hin.
  vm_compute in Hin.
  repeat (destruct Hin as [<- | Hin]; [eexists; reflexivity | ]).
  destruct Hin.
Defined.

(** ** When a comprehension raises *)

Lemma Forall2_In_left {A B : Type} (P : A -> B -> Prop) (xs : list A)
    (ys : list B) :
  Forall2 P xs ys -> forall x, In x xs -> exists y, In y ys /\ P x y.
Proof.
  induction 1 as [ | x0 y0 xs ys HP _ IH]; intros x; [intros [] | ].
  intros [<- | Hin].
  - exists y0. split; [left; reflexivity | exact HP].
  - destruct (IH x Hin) as (y & Hy & HPy). exists y.
    split; [right; exact Hy | exact HPy].
Qed.

Lemma for_each_returns_iff {A B : Type} (body : A -> M B) (ok : A -> Prop)
    (xs : list A) (w : World) :
  (forall x w', (exists y, outcome (body x w') = Return y) <-> ok x) ->
  (exists ys, outcome (for_each xs body w) = Return ys) <->
  (forall x, In x xs -> ok x).
Proof.
  intros Hbody. split.
  - intros [ys Hys] x Hin. apply for_each_outputs in Hys.
    destruct (Forall2_In_left _ _ _ Hys x Hin) as (y & _ & w' & Hy).
    apply (Hbody x w'). exists y. exact Hy.
  - intros Hok.
    destruct (for_each_invariant body (fun _ _ => True) (fun _ _ _ => True)
                xs 0%nat w) as (ys & Hys & _).
    + intros i x w' Hi _. apply nth_error_In in Hi.
      destruct (proj2 (Hbody x w') (Hok x Hi)) as [y Hy].
      exists y. repeat split. exact Hy.
    + exact I.
    + exists ys. exact Hys.
Qed.

Lemma for_each2_returns_iff {A B C : Type} (body : A -> B -> M C)
    (ok : A -> Prop) (xs : list A) (ys : list B) (w : World) :
  (forall x y w', (exists c, outcome (body x y w') = Return c) <-> ok x) ->
  (exists cs, outcome (for_each2 xs ys body w) = Return cs) <->
  (ys = [] \/ forall x, In x xs -> ok x).
Proof.
  intros Hbody. unfold for_each2. split.
  - intros [cs Hcs]. apply outcome_bind_inv in Hcs as (rows & Hrows & _).
    destruct ys as [ | y ys]; [left; reflexivity | right].
    assert (Hinner : forall x w',
      (exists row, outcome (for_each (y :: ys) (body x) w') = Return row)
      <-> ok x).
    { intros x w'. split.
      + intros [row Hrow]. cbn [for_each] in Hrow.
        apply outcome_bind_inv in Hrow as (c & Hc & _).
        apply (Hbody x y w'). exists c. exact Hc.
      + intros Hok.
        apply (for_each_returns_iff (body x) (fun _ => ok x) (y :: ys) w').
        * intros y' w''. apply Hbody.
        * intros _ _. exact Hok. }
    exact (proj1 (for_each_returns_iff _ ok xs w Hinner)
             (ex_intro _ rows Hrows)).
  - intros Hcases.
    assert (Hrows : exists rows,
      outcome (for_each xs (fun x => for_each ys (body x)) w) = Return rows).
    { apply (for_each_returns_iff _ (fun x => ys = [] \/ ok x)).
      - intros x w'. split.
        + intros [row Hrow]. destruct ys as [ | y ys]; [left; reflexivity | ].
          right. cbn [for_each] in Hrow.
          apply outcome_bind_inv in Hrow as (c & Hc & _).
          apply (Hbody x y w'). exists c. exact Hc.
        + intros [-> | Hok]; [exists []; reflexivity | ].
          apply (for_each_returns_iff (body x) (fun _ => ok x) ys w').
          * intros y' w''. apply Hbody.
          * intros _ _. exact Hok.
      - intros x Hin. destruct Hcases as [-> | Hok]; [left | right]; auto. }
    destruct Hrows as [rows Hrows].
    exists (List.concat rows).
    rewrite (outcome_bind_return _ _ _ _ Hrows). reflexivity.
Qed.

(** With nothing to iterate on in the second [for] clause the body is
    never run. *)
Lemma for_each2_no_inner {A B C : Type} (body : A -> B -> M C) (xs : list A)
    (w : World) :
  outcome (for_each2 xs [] body w) = Return [] /\
  world_after (for_each2 xs [] body w) = w.
Proof.
  assert (Hrows :
    outcome (for_each xs (fun x => for_each [] (body x)) w)
    = Return (map (fun _ => []) xs) /\
    world_after (for_each xs (fun x => for_each [] (body x)) w) = w).
  { induction xs as [ | x xs [IHout IHworld]]; [split; reflexivity | ].
    cbn [for_each map].
    rewrite (outcome_bind_return (ret []) _ w [] eq_refl),
      (world_after_bind_return (ret []) _ w [] eq_refl).
    cbn [ret world_after].
    rewrite (outcome_bind_return _ _ _ _ IHout),
      (world_after_bind_return _ _ _ _ IHout).
    split; [reflexivity | exact IHworld]. }
  destruct Hrows as [Hout Hworld]. unfold for_each2.
  rewrite (outcome_bind_return _ _ _ _ Hout),
    (world_after_bind_return _ _ _ _ Hout).
  cbn [ret outcome world_after]. split; [ | exact Hworld].
  f_equal. clear. induction xs as [ | x xs IH]; [reflexivity | exact IH].
Qed.

(** A body that looks up [operand.id] and then cannot fail returns exactly
    for the operations that have such an id. *)
Lemma lookup_id_then {B : Type} (k : value -> M B) (operation : value)
    (w : World) :
  (forall id_value w', exists y, outcome (k id_value w') = Return y) ->
  (exists y,
     outcome ((operand <- lift (subscript operation "operand") ;;
               id_value <- lift (subscript operand "id") ;;
               k id_value) w) = Return y) <->
  (exists id_value, has_id operation id_value).
Proof.
  intros Hk. unfold has_id. cbn [path].
  destruct (subscript operation "operand") as [e | operand].
  { split; intros [y H]; discriminate H. }
  rewrite (outcome_lift_inr _ operand) by reflexivity.
  destruct (subscript operand "id") as [e | id_value].
  { split; intros [y H]; discriminate H. }
  rewrite (outcome_lift_inr _ id_value) by reflexivity.
  split; [intros _; exists id_value; reflexivity | intros _; apply Hk].
Qed.

Lemma range_nil (stop : Z) : range stop = [] <-> stop <= 0.
Proof.
  unfold range. split.
  - intros H. apply (f_equal (@List.length Z)) in H.
    rewrite length_map, length_seq in H. simpl in H. lia.
  - intros H. replace (Z.to_nat stop) with 0%nat by lia. reflexivity.
Qed.

(** X13: BuildAdGroupOperations returns exactly when no ad group is asked
    for ([number_of_adgroups <= 0]) or every campaign operation has an
    operand id; with no ad group asked for it returns the empty list
    whatever the campaign operations are. *)
Theorem adgroup_builder_returns_iff (w : World)
    (campaign_operations : list value) (number_of_adgroups : Z) :
  let r := BuildAdGroupOperations campaign_operations number_of_adgroups w in
  ((exists adgroup_operations, outcome r = Return adgroup_operations) <->
   (number_of_adgroups <= 0 \/
    forall campaign_operation, In campaign_operation campaign_operations ->
      exists campaign_id, has_id campaign_operation campaign_id)) /\
  (number_of_adgroups <= 0 -> outcome r = Return [] /\ world_after r = w).
Proof.
  cbv zeta. split.
  - rewrite <- range_nil. unfold BuildAdGroupOperations.
    apply for_each2_returns_iff. intros x y w'.
    apply lookup_id_then. intros id_value w''. eexists. reflexivity.
  - intros Hnone. apply range_nil in Hnone.
    unfold BuildAdGroupOperations. rewrite Hnone.
    apply for_each2_no_inner.
Qed.

Lemma lookup_id_then_inv {B : Type} (k : value -> M B) (operation : value)
    (w : World) (y : B) :
  outcome ((operand <- lift (subscript operation "operand") ;;
            id_value <- lift (subscript operand "id") ;;
            k id_value) w) = Return y ->
  exists id_value, has_id operation id_value /\
                   outcome (k id_value w) = Return y.
Proof.
  unfold has_id. cbn [path].
  destruct (subscript operation "operand") as [e | operand];
    [discriminate | ].
  rewrite (outcome_lift_inr _ operand) by reflexivity.
  destruct (subscript operand "id") as [e | id_value]; [discriminate | ].
  rewrite (outcome_lift_inr _ id_value) by reflexivity.
  intros H. exists id_value. split; [reflexivity | exact H].
Qed.

Lemma lookup_id_then_kept {B : Type} (k : value -> M B) (operation : value)
    (w : World) :
  (forall id_value, world_after (k id_value w) = w) ->
  world_after ((operand <- lift (subscript operation "operand") ;;
                id_value <- lift (subscript operand "id") ;;
                k id_value) w) = w.
Proof.
  intros Hk. apply world_after_bind_kept; [apply world_after_lift | ].
  intros operand. apply world_after_bind_kept; [apply world_after_lift | ].
  exact Hk.
Qed.

Lemma for_each2_kept {A B C : Type} (body : A -> B -> M C) (xs : list A)
    (ys : list B) :
  (forall x y w, world_after (body x y w) = w) ->
  forall w, world_after (for_each2 xs ys body w) = w.
Proof.
  intros Hbody w. unfold for_each2.
  apply world_after_bind_kept; [ | reflexivity].
  apply for_each_kept. intros x w'. apply for_each_kept. apply Hbody.
Qed.

Lemma Forall2_In_right {A B : Type} (P : A -> B -> Prop) (xs : list A)
    (ys : list B) :
  Forall2 P xs ys -> forall y, In y ys -> exists x, In x xs /\ P x y.
Proof.
  induction 1 as [ | x0 y0 xs ys HP _ IH]; intros y; [intros [] | ].
  intros [<- | Hin].
  - exists x0. split; [left; reflexivity | exact HP].
  - destruct (IH y Hin) as (x & Hx & HPx). exists x.
    split; [right; exact Hx | exact HPx].
Qed.

Lemma for_each2_outputs {A B C : Type} (body : A -> B -> M C) (xs : list A)
    (ys : list B) (w : World) (cs : list C) :
  outcome (for_each2 xs ys body w) = Return cs ->
  Forall (fun c => exists x y w', In x xs /\ In y ys /\
                                  outcome (body x y w') = Return c) cs.
Proof.
  unfold for_each2. intros H.
  apply outcome_bind_inv in H as (rows & Hrows & H). injection H as <-.
  apply for_each_outputs in Hrows.
  apply Forall_forall. intros c Hc.
  apply in_concat in Hc as (row & Hrow & Hc).
  destruct (Forall2_In_right _ _ _ Hrows row Hrow) as (x & Hx & w' & Hinner).
  apply for_each_outputs in Hinner.
  destruct (Forall2_In_right _ _ _ Hinner c Hc) as (y & Hy & w'' & Hbody).
  exists x, y, w''. repeat split; assumption.
Qed.

(** ** The keywords *)

(** X14: BuildAdGroupCriterionOperations takes no id and no uuid, whatever
    it is given and whether it returns or raises; and it returns exactly
    when no keyword is asked for ([number_of_keywords <= 0]) or every
    ad-group operation has an operand id. *)
Theorem keyword_builder_returns_iff (w : World)
    (adgroup_operations : list value) (number_of_keywords : Z) :
  let r := BuildAdGroupCriterionOperations adgroup_operations
             number_of_keywords w in
  world_after r = w /\
  ((exists criterion_operations, outcome r = Return criterion_operations) <->
   (number_of_keywords <= 0 \/
    forall adgroup_operation, In adgroup_operation adgroup_operations ->
      exists adgroup_id, has_id adgroup_operation adgroup_id)).
Proof.
  cbv zeta. unfold BuildAdGroupCriterionOperations. split.
  - apply for_each2_kept. intros x y w'.
    apply lookup_id_then_kept. reflexivity.
  - rewrite <- range_nil. apply for_each2_returns_iff. intros x y w'.
    apply lookup_id_then. intros id_value w''. eexists. reflexivity.
Qed.

(** ** The text ads and the negative keywords *)

(** X15: BuildAdGroupAdOperations returns exactly when every ad-group
    operation has an operand id; it then gives one text ad per ad group, in
    the same order, each with the id of its ad group as adGroupId and with
    the same headline; and it takes no id and no uuid. *)
Theorem one_text_ad_per_adgroup (w : World) (adgroup_operations : list value) :
  let r := BuildAdGroupAdOperations adgroup_operations w in
  world_after r = w /\
  ((exists ad_operations, outcome r = Return ad_operations) <->
   (forall adgroup_operation, In adgroup_operation adgroup_operations ->
      exists adgroup_id, has_id adgroup_operation adgroup_id)) /\
  (forall ad_operations, outcome r = Return ad_operations ->
     List.length ad_operations = List.length adgroup_operations /\
     forall a adgroup_operation,
       nth_error adgroup_operations a = Some adgroup_operation ->
       exists ad_operation,
         nth_error ad_operations a = Some ad_operation /\
         path ad_operation ["operand"; "adGroupId"]
         = path adgroup_operation ["operand"; "id"] /\
         path ad_operation ["operand"; "ad"; "xsi_type"]
         = Some (VStr "TextAd") /\
         path ad_operation ["operand"; "ad"; "headline"]
         = Some (VStr "Luxury Cruise to Mars")).
Proof.
  cbv zeta. unfold BuildAdGroupAdOperations. split; [ | split].
  - apply for_each_kept. intros x w'. apply lookup_id_then_kept. reflexivity.
  - apply for_each_returns_iff. intros x w'.
    apply lookup_id_then. intros id_value w''. eexists. reflexivity.
  - intros ad_operations Hreturn. apply for_each_outputs in Hreturn.
    split; [symmetry; apply (Forall2_length Hreturn) | ].
    intros a adgroup_operation Ha.
    destruct (Forall2_nth_error_left _ _ _ Hreturn a adgroup_operation Ha)
      as (ad_operation & Hnth & w' & Hbody).
    exists ad_operation. split; [exact Hnth | ].
    apply lookup_id_then_inv in Hbody as (adgroup_id & Hid & Hbody).
    injection Hbody as <-. unfold has_id in Hid. rewrite Hid.
    repeat split.
Qed.

(** X16: BuildCampaignCriterionOperations returns exactly when every
    campaign operation has an operand id; it then gives one negative
    keyword ['venus'] per campaign, in the same order, each with the id of
    its campaign as campaignId; and it takes no id and no uuid. *)
Theorem one_negative_keyword_per_campaign
    (w : World) (campaign_operations : list value) :
  let r := BuildCampaignCriterionOperations campaign_operations w in
  world_after r = w /\
  ((exists criterion_operations, outcome r = Return criterion_operations) <->
   (forall campaign_operation, In campaign_operation campaign_operations ->
      exists campaign_id, has_id campaign_operation campaign_id)) /\
  (forall criterion_operations, outcome r = Return criterion_operations ->
     List.length criterion_operations = List.length campaign_operations /\
     forall a campaign_operation,
       nth_error campaign_operations a = Some campaign_operation ->
       exists criterion_operation,
         nth_error criterion_operations a = Some criterion_operation /\
         path criterion_operation ["operand"; "campaignId"]
         = path campaign_operation ["operand"; "id"] /\
         path criterion_operation ["operand"; "xsi_type"]
         = Some (VStr "NegativeCampaignCriterion") /\
         path criterion_operation ["operand"; "criterion"; "text"]
         = Some (VStr "venus")).
Proof.
  cbv zeta. unfold BuildCampaignCriterionOperations. split; [ | split].
  - apply for_each_kept. intros x w'. apply lookup_id_then_kept. reflexivity.
  - apply for_each_returns_iff. intros x w'.
    apply lookup_id_then. intros id_value w''. eexists. reflexivity.
  - intros criterion_operations Hreturn. apply for_each_outputs in Hreturn.
    split; [symmetry; apply (Forall2_length Hreturn) | ].
    intros a campaign_operation Ha.
    destruct (Forall2_nth_error_left _ _ _ Hreturn a campaign_operation Ha)
      as (criterion_operation & Hnth & w' & Hbody).
    exists criterion_operation. split; [exact Hnth | ].
    apply lookup_id_then_inv in Hbody as (campaign_id & Hid & Hbody).
    injection Hbody as <-. unfold has_id in Hid. rewrite Hid.
    repeat split.
Qed.

(** ** The type tags *)

Lemma returned_Forall {A : Type} (P : A -> Prop) (r : Ran (list A)) :
  (forall ys, outcome r = Return ys -> Forall P ys) ->
  Forall P (returned r).
Proof.
  unfold returned. intros H.
  destruct (outcome r) as [ys | e | ]; [apply H; reflexivity | | ]; constructor.
Qed.

Lemma for_each_outputs_Forall {A B : Type} (P : B -> Prop) (body : A -> M B)
    (xs : list A) (w : World) (ys : list B) :
  (forall x w' y, outcome (body x w') = Return y -> P y) ->
  outcome (for_each xs body w) = Return ys -> Forall P ys.
Proof.
  intros Hbody H. apply for_each_outputs in H.
  induction H as [ | x y xs ys [w' Hy] _ IH]; constructor;
    [apply (Hbody x w' y Hy) | exact IH].
Qed.

(** X17: each of the six builders marks every operation it returns with the
    xsi_type of its kind of operation and with the operator ADD, as a batch
    job, which mixes operations of several kinds, needs. *)
Theorem every_operation_is_tagged (w : World) (operations : list value)
    (count : Z) :
  Forall (tagged "BudgetOperation") (returned (BuildBudgetOperations w)) /\
  Forall (tagged "CampaignOperation")
    (returned (BuildCampaignOperations operations count w)) /\
  Forall (tagged "CampaignCriterionOperation")
    (returned (BuildCampaignCriterionOperations operations w)) /\
  Forall (tagged "AdGroupOperation")
    (returned (BuildAdGroupOperations operations count w)) /\
  Forall (tagged "AdGroupCriterionOperation")
    (returned (BuildAdGroupCriterionOperations operations count w)) /\
  Forall (tagged "AdGroupAdOperation")
    (returned (BuildAdGroupAdOperations operations w)).
Proof.
  repeat apply conj.
  - repeat constructor.
  - apply returned_Forall. intros ys. unfold BuildCampaignOperations.
    intros H.
    apply outcome_bind_inv in H as (first_operation & _ & H).
    apply outcome_bind_inv in H as (operand & _ & H).
    apply outcome_bind_inv in H as (budget_id & _ & H).
    revert H. apply for_each_outputs_Forall.
    intros x w' y Hy. cbn in Hy. injection Hy as <-. split; reflexivity.
  - apply returned_Forall. intros ys. unfold BuildCampaignCriterionOperations.
    apply for_each_outputs_Forall. intros x w' y Hy.
    apply lookup_id_then_inv in Hy as (id_value & _ & Hy).
    injection Hy as <-. split; reflexivity.
  - apply returned_Forall. intros ys. unfold BuildAdGroupOperations.
    intros H. apply for_each2_outputs in H.
    revert H. apply Forall_impl.
    intros y (x & i & w' & _ & _ & Hy).
    apply lookup_id_then_inv in Hy as (id_value & _ & Hy).
    cbn in Hy. injection Hy as <-. split; reflexivity.
  - apply returned_Forall. intros ys. unfold BuildAdGroupCriterionOperations.
    intros H. apply for_each2_outputs in H.
    revert H. apply Forall_impl.
    intros y (x & i & w' & _ & _ & Hy).
    apply lookup_id_then_inv in Hy as (id_value & _ & Hy).
    injection Hy as <-. split; reflexivity.
  - apply returned_Forall. intros ys. unfold BuildAdGroupAdOperations.
    apply for_each_outputs_Forall. intros x w' y Hy.
    apply lookup_id_then_inv in Hy as (id_value & _ & Hy).
    injection Hy as <-. split; reflexivity.
Qed.

(** ** The texts of the keywords *)

Lemma contains_char_app (c : ascii) (s1 s2 : string) :
  contains_char c (s1 ++ s2) = contains_char c s1 || contains_char c s2.
Proof.
  induction s1 as [ | a s1 IH]; [reflexivity | ].
  simpl. rewrite IH. apply orb_assoc.
Qed.

Lemma string_length_app (s1 s2 : string) :
  String.length (s1 ++ s2) = (String.length s1 + String.length s2)%nat.
Proof. induction s1 as [ | a s1 IH]; simpl; [ | rewrite IH]; reflexivity. Qed.

Lemma string_app_inv_tail (s1 s2 tail : string) :
  (s1 ++ tail = s2 ++ tail)%string -> s1 = s2.
Proof.
  revert s2. induction s1 as [ | a s1 IH]; intros [ | b s2] H.
  - reflexivity.
  - apply (f_equal String.length) in H. simpl in H.
    rewrite string_length_app in H. lia.
  - apply (f_equal String.length) in H. simpl in H.
    rewrite string_length_app in H. lia.
  - simpl in H. injection H as -> H. f_equal. apply IH, H.
Qed.

Lemma no_bang_in_digits (d : Decimal.uint) :
  contains_char "!" (NilEmpty.string_of_uint d) = false.
Proof. induction d; simpl; assumption || reflexivity. Qed.

Lemma no_bang_in_str_of_int (i : Z) : contains_char "!" (str_of_int i) = false.
Proof.
  unfold str_of_int, NilZero.string_of_int, NilZero.string_of_uint.
  destruct (Z.to_int i) as [d | d]; destruct d; try reflexivity;
    first [ apply (no_bang_in_digits (_ d))
          | cbn [contains_char Ascii.eqb]; apply (no_bang_in_digits (_ d)) ].
Qed.

(** ['%s' % i] can be read back: two integers are printed alike only when
    they are equal. *)
Lemma str_of_int_inj (i j : Z) : str_of_int i = str_of_int j -> i = j.
Proof.
  unfold str_of_int. intros H.
  assert (Hparse : forall z,
    NilZero.int_of_string (NilZero.string_of_int (Z.to_int z))
    = Some (Z.to_int z)).
  { intros z. apply NilZero.isi; destruct z; simpl; try discriminate;
      intros [= Hnil]; apply (DecimalPos.Unsigned.to_uint_nonnil _ Hnil). }
  apply (f_equal NilZero.int_of_string) in H.
  rewrite !Hparse in H. injection H as H.
  apply DecimalZ.to_int_inj, H.
Qed.

(** X18: the text of keyword [i] contains the character ['!'] exactly when
    [i] is even; so of the [n] keywords of an ad group, [(n + 1) / 2]
    contain it, which is half of them only when [n] is even. *)
Theorem keywords_with_a_bang (number_of_keywords : Z) :
  0 <= number_of_keywords ->
  (forall i, contains_char "!" (keyword_text i) = Z.even i) /\
  Z.of_nat (List.length
              (filter (fun i => contains_char "!" (keyword_text i))
                      (range number_of_keywords)))
  = (number_of_keywords + 1) / 2.
Proof.
  intros Hn.
  assert (Hbang : forall i, contains_char "!" (keyword_text i) = Z.even i).
  { intros i. unfold keyword_text.
    rewrite !contains_char_app, no_bang_in_str_of_int, even_mod_2.
    destruct (Z.even i); reflexivity. }
  split; [exact Hbang | ].
  rewrite <- (Z2Nat.id number_of_keywords Hn) at 2.
  unfold range. generalize (Z.to_nat number_of_keywords) as n. clear Hn.
  induction n as [ | n IH]; [reflexivity | ].
  rewrite seq_S, map_app, filter_app, length_app, Nat2Z.inj_add, IH.
  cbn [Nat.add map filter]. rewrite Hbang, Nat2Z.inj_succ.
  destruct (Z.even (Z.of_nat n)) eqn:Heven; cbn [List.length].
  - apply Z.even_spec in Heven as [m Hm]. rewrite Hm.
    Z.div_mod_to_equations. lia.
  - assert (Hodd : Z.odd (Z.of_nat n) = true)
      by (rewrite <- Z.negb_even, Heven; reflexivity).
    apply Z.odd_spec in Hodd as [m Hm]. rewrite Hm.
    Z.div_mod_to_equations. lia.
Qed.

Lemma keywords_with_a_bang_witness :
  (forall i, contains_char "!" (keyword_text i) = Z.even i) /\
  Z.of_nat (List.length
              (filter (fun i => contains_char "!" (keyword_text i))
                      (range NUMBER_OF_KEYWORDS_TO_ADD)))
  = (NUMBER_OF_KEYWORDS_TO_ADD + 1) / 2.
Proof.
  apply (keywords_with_a_bang NUMBER_OF_KEYWORDS_TO_ADD).
  unfold NUMBER_OF_KEYWORDS_TO_ADD. lia.
Defined.

(** X19: two keywords of an ad group never have the same text: keywords
    with different indices have different texts. *)
Theorem keyword_texts_are_distinct (i j : Z) :
  i <> j -> keyword_text i <> keyword_text j.
Proof.
  intros Hij H. apply Hij.
  assert (Heven : Z.even i = Z.even j).
  { apply (f_equal (contains_char "!")) in H.
    unfold keyword_text in H.
    rewrite !contains_char_app, !no_bang_in_str_of_int, !even_mod_2 in H.
    destruct (Z.even i), (Z.even j); try reflexivity; discriminate H. }
  unfold keyword_text in H. rewrite !even_mod_2, Heven in H.
  injection H as H.
  apply string_app_inv_tail in H. apply str_of_int_inj, H.
Qed.

Lemma keyword_texts_are_distinct_witness : keyword_text 2 <> keyword_text 12.
Proof. apply (keyword_texts_are_distinct 2 12). lia. Defined.

(** * The whole upload *)

(** ** The builders, from any state of the generator *)

Lemma In_nth_has_id (operations : list value) (n : nat) (ids : nat -> value) :
  List.length operations = n ->
  (forall i, (i < n)%nat ->
     exists operation, nth_error operations i = Some operation /\
                       has_id operation (ids i)) ->
  forall operation, In operation operations ->
    exists id_value, has_id operation id_value.
Proof.
  intros Hlength Hnth operation Hin.
  apply In_nth_error in Hin as [i Hi].
  assert (Hbound : (i < n)%nat).
  { rewrite <- Hlength. apply nth_error_Some. rewrite Hi. discriminate. }
  destruct (Hnth i Hbound) as (operation' & Hi' & Hid).
  exists (ids i). congruence.
Qed.

Lemma campaigns_layout (w0 w : World) (base : nat)
    (budget_operations : list value) (number_of_campaigns : Z)
    (first_operation : value) (others : list value) (budget_id : value) :
  advanced base w0 w ->
  budget_operations = first_operation :: others ->
  path first_operation ["operand"; "budgetId"] = Some budget_id ->
  let r := BuildCampaignOperations budget_operations number_of_campaigns w in
  let n := Z.to_nat number_of_campaigns in
  exists campaign_operations,
    outcome r = Return campaign_operations /\
    List.length campaign_operations = n /\
    advanced (base + n) w0 (world_after r) /\
    forall i, (i < n)%nat ->
      exists campaign_operation,
        nth_error campaign_operations i = Some campaign_operation /\
        has_id campaign_operation (VInt (temporary_ids w0 (base + i))) /\
        path campaign_operation ["operand"; "budget"; "budgetId"]
        = Some budget_id.
Proof.
  intros Hstart -> Hpath; cbv zeta.
  apply path_two in Hpath as (operand & Hoperand & Hbudget).
  unfold BuildCampaignOperations.
  rewrite (outcome_lift_inr _ first_operation),
    (world_after_lift_inr _ first_operation) by reflexivity.
  rewrite (outcome_lift_inr _ operand), (world_after_lift_inr _ operand)
    by exact Hoperand.
  rewrite (outcome_lift_inr _ budget_id), (world_after_lift_inr _ budget_id)
    by exact Hbudget.
  match goal with
  | |- context [for_each ?xs ?body w] =>
      destruct (for_each_invariant body
                  (fun i w' => advanced i w0 w')
                  (fun i (_ : Z) campaign_operation =>
                     has_id campaign_operation (VInt (temporary_ids w0 i)) /\
                     path campaign_operation ["operand"; "budget"; "budgetId"]
                     = Some budget_id)
                  xs base w)
        as (campaign_operations & Hreturn & Hend & Hlength & Hnth)
  end.
  { intros i x w' _ Hadvanced.
    destruct (advanced_step _ w0 w' Hadvanced) as (_ & Hnext & Hid & _).
    eexists. split; [reflexivity | ]. split; [split | ].
    - unfold has_id. cbn. rewrite Hid. reflexivity.
    - reflexivity.
    - rewrite <- Nat.add_1_r, Nat.add_assoc. exact Hnext. }
  { exact Hstart. }
  rewrite length_range in *.
  exists campaign_operations.
  split; [exact Hreturn | ]. split; [exact Hlength | ]. split; [exact Hend | ].
  intros i Hi.
  destruct (Hnth i (Z.of_nat i) (nth_error_range _ _ Hi))
    as (campaign_operation & Hhere & Hid & Hbudget_id).
  exists campaign_operation. repeat split; assumption.
Qed.

Lemma adgroups_layout (w0 w : World) (base : nat)
    (campaign_operations : list value) (number_of_adgroups : Z) :
  advanced base w0 w ->
  (forall campaign_operation, In campaign_operation campaign_operations ->
     exists campaign_id, has_id campaign_operation campaign_id) ->
  let r := BuildAdGroupOperations campaign_operations number_of_adgroups w in
  let n := Z.to_nat number_of_adgroups in
  exists adgroup_operations,
    outcome r = Return adgroup_operations /\
    List.length adgroup_operations = (List.length campaign_operations * n)%nat /\
    forall a i campaign_operation,
      nth_error campaign_operations a = Some campaign_operation ->
      (i < n)%nat ->
      exists adgroup_operation,
        nth_error adgroup_operations (a * n + i) = Some adgroup_operation /\
        path adgroup_operation ["operand"; "campaignId"]
        = path campaign_operation ["operand"; "id"] /\
        has_id adgroup_operation
          (VInt (temporary_ids w0 (base + (a * n + i)))).
Proof.
  intros Hstart Hids; cbv zeta. unfold BuildAdGroupOperations.
  match goal with
  | |- context [for_each2 ?xs ?ys ?body w] =>
      destruct (for_each2_invariant body
                  (fun k w' => advanced (base + k) w0 w')
                  (fun k campaign_operation (_ : Z) adgroup_operation =>
                     path adgroup_operation ["operand"; "campaignId"]
                     = path campaign_operation ["operand"; "id"] /\
                     has_id adgroup_operation
                       (VInt (temporary_ids w0 (base + k))))
                  xs ys w)
        as (adgroup_operations & Hreturn & _ & Hlength & Hnth)
  end.
  { intros a i campaign_operation y w' Ha _ Hadvanced.
    destruct (Hids campaign_operation (nth_error_In _ _ Ha))
      as [campaign_id Hid].
    unfold has_id in Hid. rewrite Hid.
    apply path_two in Hid as (operand & Hoperand & Hid).
    rewrite (outcome_lift_inr _ operand), (world_after_lift_inr _ operand)
      by exact Hoperand.
    rewrite (outcome_lift_inr _ campaign_id),
      (world_after_lift_inr _ campaign_id) by exact Hid.
    destruct (advanced_step _ w0 w' Hadvanced) as (Hnext & _ & Hhere & _).
    eexists. split; [reflexivity | ]. split; [split | ].
    - reflexivity.
    - unfold has_id. cbn. rewrite Hhere. reflexivity.
    - match goal with
      | |- advanced ?k _ _ =>
          match type of Hnext with
          | advanced ?k' _ _ => replace k with k' by lia
          end
      end.
      exact Hnext. }
  { rewrite Nat.add_0_r. exact Hstart. }
  rewrite length_range in *.
  exists adgroup_operations.
  split; [exact Hreturn | ]. split; [exact Hlength | ].
  intros a i campaign_operation Ha Hi.
  apply (Hnth a i campaign_operation (Z.of_nat i) Ha (nth_error_range _ _ Hi)).
Qed.

Lemma keywords_layout (w : World) (adgroup_operations : list value)
    (number_of_keywords : Z) :
  (forall adgroup_operation, In adgroup_operation adgroup_operations ->
     exists adgroup_id, has_id adgroup_operation adgroup_id) ->
  let r := BuildAdGroupCriterionOperations adgroup_operations
             number_of_keywords w in
  let n := Z.to_nat number_of_keywords in
  exists criterion_operations,
    outcome r = Return criterion_operations /\
    List.length criterion_operations
    = (List.length adgroup_operations * n)%nat /\
    forall a i adgroup_operation,
      nth_error adgroup_operations a = Some adgroup_operation ->
      (i < n)%nat ->
      exists criterion_operation,
        nth_error criterion_operations (a * n + i) = Some criterion_operation /\
        path criterion_operation ["operand"; "adGroupId"]
        = path adgroup_operation ["operand"; "id"] /\
        path criterion_operation ["operand"; "criterion"; "text"]
        = Some (VStr (keyword_text (Z.of_nat i))).
Proof.
  intros Hids; cbv zeta. unfold BuildAdGroupCriterionOperations.
  match goal with
  | |- context [for_each2 ?xs ?ys ?body w] =>
      destruct (for_each2_invariant body (fun _ _ => True)
                  (fun k adgroup_operation i criterion_operation =>
                     path criterion_operation ["operand"; "adGroupId"]
                     = path adgroup_operation ["operand"; "id"] /\
                     path criterion_operation ["operand"; "criterion"; "text"]
                     = Some (VStr (keyword_text i)))
                  xs ys w)
        as (criterion_operations & Hreturn & _ & Hlength & Hnth)
  end.
  { intros a i adgroup_operation y w' Ha _ _.
    destruct (Hids adgroup_operation (nth_error_In _ _ Ha))
      as [adgroup_id Hid].
    unfold has_id in Hid. rewrite Hid.
    apply path_two in Hid as (operand & Hoperand & Hid).
    rewrite (outcome_lift_inr _ operand) by exact Hoperand.
    rewrite (outcome_lift_inr _ adgroup_id) by exact Hid.
    eexists. split; [reflexivity | ]. split; [split; reflexivity | exact I]. }
  { exact I. }
  rewrite length_range in *.
  exists criterion_operations.
  split; [exact Hreturn | ]. split; [exact Hlength | ].
  intros a i adgroup_operation Ha Hi.
  apply (Hnth a i adgroup_operation (Z.of_nat i) Ha (nth_error_range _ _ Hi)).
Qed.

Lemma budget_layout (w : World) :
  exists budget_operation,
    outcome (BuildBudgetOperations w) = Return [budget_operation] /\
    path budget_operation ["operand"; "budgetId"]
    = Some (VInt (temporary_ids w 0%nat)) /\
    advanced 1 w (world_after (BuildBudgetOperations w)).
Proof.
  eexists. split; [reflexivity | ]. split; [reflexivity | ].
  apply (advanced_step 0 w w (advanced_refl w)).
Qed.

Lemma ads_layout (w : World) (adgroup_operations : list value) :
  (forall adgroup_operation, In adgroup_operation adgroup_operations ->
     exists adgroup_id, has_id adgroup_operation adgroup_id) ->
  exists ad_operations,
    outcome (BuildAdGroupAdOperations adgroup_operations w)
    = Return ad_operations /\
    List.length ad_operations = List.length adgroup_operations /\
    forall a adgroup_operation,
      nth_error adgroup_operations a = Some adgroup_operation ->
      exists ad_operation,
        nth_error ad_operations a = Some ad_operation /\
        path ad_operation ["operand"; "adGroupId"]
        = path adgroup_operation ["operand"; "id"].
Proof.
  intros Hids. unfold BuildAdGroupAdOperations.
  match goal with
  | |- context [for_each ?xs ?body w] =>
      destruct (for_each_invariant body (fun _ _ => True)
                  (fun _ adgroup_operation ad_operation =>
                     path ad_operation ["operand"; "adGroupId"]
                     = path adgroup_operation ["operand"; "id"])
                  xs 0%nat w)
        as (ad_operations & Hreturn & _ & Hlength & Hnth)
  end.
  { intros a adgroup_operation w' Ha _.
    destruct (Hids adgroup_operation (nth_error_In _ _ Ha))
      as [adgroup_id Hid].
    unfold has_id in Hid. rewrite Hid.
    apply path_two in Hid as (operand & Hoperand & Hid).
    rewrite (outcome_lift_inr _ operand) by exact Hoperand.
    rewrite (outcome_lift_inr _ adgroup_id) by exact Hid.
    eexists. split; [reflexivity | ]. split; [reflexivity | exact I]. }
  { exact I. }
  exists ad_operations. split; [exact Hreturn | ]. split; [exact Hlength | ].
  exact Hnth.
Qed.

Lemma negatives_layout (w : World) (campaign_operations : list value) :
  (forall campaign_operation, In campaign_operation campaign_operations ->
     exists campaign_id, has_id campaign_operation campaign_id) ->
  exists criterion_operations,
    outcome (BuildCampaignCriterionOperations campaign_operations w)
    = Return criterion_operations /\
    world_after (BuildCampaignCriterionOperations campaign_operations w) = w /\
    List.length criterion_operations = List.length campaign_operations /\
    forall a campaign_operation,
      nth_error campaign_operations a = Some campaign_operation ->
      exists criterion_operation,
        nth_error criterion_operations a = Some criterion_operation /\
        path criterion_operation ["operand"; "campaignId"]
        = path campaign_operation ["operand"; "id"].
Proof.
  intros Hids. unfold BuildCampaignCriterionOperations.
  match goal with
  | |- context [for_each ?xs ?body w] =>
      destruct (for_each_invariant body (fun _ _ => True)
                  (fun _ campaign_operation criterion_operation =>
                     path criterion_operation ["operand"; "campaignId"]
                     = path campaign_operation ["operand"; "id"])
                  xs 0%nat w)
        as (criterion_operations & Hreturn & _ & Hlength & Hnth)
  end.
  { intros a campaign_operation w' Ha _.
    destruct (Hids campaign_operation (nth_error_In _ _ Ha))
      as [campaign_id Hid].
    unfold has_id in Hid. rewrite Hid.
    apply path_two in Hid as (operand & Hoperand & Hid).
    rewrite (outcome_lift_inr _ operand) by exact Hoperand.
    rewrite (outcome_lift_inr _ campaign_id) by exact Hid.
    eexists. split; [reflexivity | ]. split; [reflexivity | exact I]. }
  { exact I. }
  exists criterion_operations. split; [exact Hreturn | ].
  split; [ | split; [exact Hlength | exact Hnth]].
  apply for_each_kept. intros x w'. apply lookup_id_then_kept. reflexivity.
Qed.

(** ** BuildUploadUrlOperations *)

(** X20: with a helper that does not fail, BuildUploadUrlOperations returns
    the six renderings of six lists of operations that refer to each other
    through the ids of one generator, taken in order: the budget has the
    first id; campaign [c] has id number [1 + c], the budget's id as
    budgetId, and one negative keyword; ad group [c * na + g] belongs to
    campaign [c], has id number [1 + nc + c * na + g], one text ad and [nk]
    keywords, all carrying that id.  Here [nc], [na], [nk] are the numbers
    of campaigns, of ad groups per campaign and of keywords per ad group (0
    when negative). *)
Theorem upload_operations_refer_to_each_other
    (GenerateRawRequestXML : list value -> string -> exn + string)
    (ExtractOperations : string -> exn + string)
    (w : World)
    (number_of_campaigns number_of_adgroups number_of_keywords : Z) :
  (forall operations service,
     exists request_xml,
       GenerateRawRequestXML operations service = inr request_xml) ->
  (forall request_xml,
     exists operations_xml,
       ExtractOperations request_xml = inr operations_xml) ->
  let r := BuildUploadUrlOperations GenerateRawRequestXML ExtractOperations
             number_of_campaigns number_of_adgroups number_of_keywords w in
  let nc := Z.to_nat number_of_campaigns in
  let na := Z.to_nat number_of_adgroups in
  let nk := Z.to_nat number_of_keywords in
  let id_number := fun k => Some (VInt (temporary_ids w k)) in
  let xml := rendered GenerateRawRequestXML ExtractOperations in
  exists budgets campaigns negatives adgroups keywords ads
         budgets_xml campaigns_xml negatives_xml adgroups_xml keywords_xml
         ads_xml,
    outcome r = Return (budgets_xml, campaigns_xml, negatives_xml,
                        adgroups_xml, keywords_xml, ads_xml) /\
    (xml budgets "BudgetService" budgets_xml /\
     xml campaigns "CampaignService" campaigns_xml /\
     xml negatives "CampaignCriterionService" negatives_xml /\
     xml adgroups "AdGroupService" adgroups_xml /\
     xml keywords "AdGroupCriterionService" keywords_xml /\
     xml ads "AdGroupAdService" ads_xml) /\
    (List.length budgets = 1%nat /\
     List.length campaigns = nc /\
     List.length negatives = nc /\
     List.length adgroups = (nc * na)%nat /\
     List.length keywords = (nc * na * nk)%nat /\
     List.length ads = (nc * na)%nat) /\
    (exists budget, budgets = [budget] /\
       path budget ["operand"; "budgetId"] = id_number 0%nat) /\
    (forall c, (c < nc)%nat ->
       exists campaign negative,
         nth_error campaigns c = Some campaign /\
         nth_error negatives c = Some negative /\
         path campaign ["operand"; "id"] = id_number (1 + c)%nat /\
         path campaign ["operand"; "budget"; "budgetId"] = id_number 0%nat /\
         path negative ["operand"; "campaignId"] = id_number (1 + c)%nat) /\
    (forall c g, (c < nc)%nat -> (g < na)%nat ->
       exists adgroup ad,
         nth_error adgroups (c * na + g) = Some adgroup /\
         nth_error ads (c * na + g) = Some ad /\
         path adgroup ["operand"; "campaignId"] = id_number (1 + c)%nat /\
         path adgroup ["operand"; "id"]
         = id_number (1 + nc + (c * na + g))%nat /\
         path ad ["operand"; "adGroupId"]
         = id_number (1 + nc + (c * na + g))%nat) /\
    (forall a k, (a < nc * na)%nat -> (k < nk)%nat ->
       exists keyword,
         nth_error keywords (a * nk + k) = Some keyword /\
         path keyword ["operand"; "adGroupId"] = id_number (1 + nc + a)%nat /\
         path keyword ["operand"; "criterion"; "text"]
         = Some (VStr (keyword_text (Z.of_nat k)))).
Proof.
  intros Hgenerate Hextract; cbv zeta.
  unfold BuildUploadUrlOperations.
  (* the budget *)
  destruct (budget_layout w) as (budget & Hbudgets & Hbudget_id & Hadvanced1).
  rewrite (outcome_bind_return _ _ _ _ Hbudgets).
  set (w1 := world_after (BuildBudgetOperations w)) in *.
  destruct (Hgenerate [budget] "BudgetService") as [request1 Hrequest1].
  rewrite (outcome_lift_inr _ request1) by exact Hrequest1.
  destruct (Hextract request1) as [budgets_xml Hxml1].
  rewrite (outcome_lift_inr _ budgets_xml) by exact Hxml1.
  (* the campaigns *)
  destruct (campaigns_layout w w1 1 [budget] number_of_campaigns budget []
              (VInt (temporary_ids w 0%nat)) Hadvanced1 eq_refl Hbudget_id)
    as (campaigns & Hcampaigns & Hlength_c & Hadvanced2 & Hnth_c).
  rewrite (outcome_bind_return _ _ _ _ Hcampaigns).
  set (w2 := world_after (BuildCampaignOperations [budget]
                            number_of_campaigns w1)) in *.
  destruct (Hgenerate campaigns "CampaignService") as [request2 Hrequest2].
  rewrite (outcome_lift_inr _ request2) by exact Hrequest2.
  destruct (Hextract request2) as [campaigns_xml Hxml2].
  rewrite (outcome_lift_inr _ campaigns_xml) by exact Hxml2.
  assert (Hids_c : forall campaign, In campaign campaigns ->
                     exists campaign_id, has_id campaign campaign_id).
  { apply (In_nth_has_id campaigns (Z.to_nat number_of_campaigns)
             (fun i => VInt (temporary_ids w (1 + i)))); [exact Hlength_c | ].
    intros i Hi. destruct (Hnth_c i Hi) as (campaign & Hhere & Hid & _).
    exists campaign. split; assumption. }
  (* the negative keywords *)
  destruct (negatives_layout w2 campaigns Hids_c)
    as (negatives & Hnegatives & Hkept & Hlength_n & Hnth_n).
  rewrite (outcome_bind_return _ _ _ _ Hnegatives), Hkept.
  destruct (Hgenerate negatives "CampaignCriterionService")
    as [request3 Hrequest3].
  rewrite (outcome_lift_inr _ request3) by exact Hrequest3.
  destruct (Hextract request3) as [negatives_xml Hxml3].
  rewrite (outcome_lift_inr _ negatives_xml) by exact Hxml3.
  (* the ad groups *)
  destruct (adgroups_layout w w2 (1 + Z.to_nat number_of_campaigns) campaigns
              number_of_adgroups Hadvanced2 Hids_c)
    as (adgroups & Hadgroups & Hlength_a & Hnth_a).
  rewrite (outcome_bind_return _ _ _ _ Hadgroups).
  set (w3 := world_after (BuildAdGroupOperations campaigns number_of_adgroups
                            w2)) in *.
  destruct (Hgenerate adgroups "AdGroupService") as [request4 Hrequest4].
  rewrite (outcome_lift_inr _ request4) by exact Hrequest4.
  destruct (Hextract request4) as [adgroups_xml Hxml4].
  rewrite (outcome_lift_inr _ adgroups_xml) by exact Hxml4.
  rewrite Hlength_c in Hlength_a.
  assert (Hnth_a' : forall a, (a < Z.to_nat number_of_campaigns
                                   * Z.to_nat number_of_adgroups)%nat ->
    exists adgroup, nth_error adgroups a = Some adgroup /\
      has_id adgroup
        (VInt (temporary_ids w (1 + Z.to_nat number_of_campaigns + a)))).
  { intros a Ha.
    assert (Hna : (0 < Z.to_nat number_of_adgroups)%nat) by nia.
    pose proof (Nat.div_mod_eq a (Z.to_nat number_of_adgroups)) as Hdiv.
    pose proof (Nat.mod_upper_bound a (Z.to_nat number_of_adgroups)
                  ltac:(lia)) as Hmod.
    set (c := (a / Z.to_nat number_of_adgroups)%nat) in *.
    set (g := (a mod Z.to_nat number_of_adgroups)%nat) in *.
    assert (Hc : (c < Z.to_nat number_of_campaigns)%nat) by nia.
    destruct (Hnth_c c Hc) as (campaign & Hcampaign & _).
    destruct (Hnth_a c g campaign Hcampaign Hmod)
      as (adgroup & Hadgroup & _ & Hid).
    exists adgroup.
    replace a with (c * Z.to_nat number_of_adgroups + g)%nat by lia.
    split; assumption. }
  assert (Hids_a : forall adgroup, In adgroup adgroups ->
                     exists adgroup_id, has_id adgroup adgroup_id).
  { apply (In_nth_has_id adgroups _
             (fun a => VInt (temporary_ids w
                               (1 + Z.to_nat number_of_campaigns + a)))
             Hlength_a Hnth_a'). }
  (* the keywords *)
  destruct (keywords_layout w3 adgroups number_of_keywords Hids_a)
    as (keywords & Hkeywords & Hlength_k & Hnth_k).
  rewrite (outcome_bind_return _ _ _ _ Hkeywords).
  destruct (Hgenerate keywords "AdGroupCriterionService")
    as [request5 Hrequest5].
  rewrite (outcome_lift_inr _ request5) by exact Hrequest5.
  destruct (Hextract request5) as [keywords_xml Hxml5].
  rewrite (outcome_lift_inr _ keywords_xml) by exact Hxml5.
  (* the text ads *)
  match goal with
  | |- context [bind (BuildAdGroupAdOperations adgroups) _ ?w4] =>
      destruct (ads_layout w4 adgroups Hids_a)
        as (ads & Hads & Hlength_ads & Hnth_ads)
  end.
  rewrite (outcome_bind_return _ _ _ _ Hads).
  destruct (Hgenerate ads "AdGroupAdService") as [request6 Hrequest6].
  rewrite (outcome_lift_inr _ request6) by exact Hrequest6.
  destruct (Hextract request6) as [ads_xml Hxml6].
  rewrite (outcome_lift_inr _ ads_xml) by exact Hxml6.
  cbn [ret outcome].
  exists [budget], campaigns, negatives, adgroups, keywords, ads,
    budgets_xml, campaigns_xml, negatives_xml, adgroups_xml, keywords_xml,
    ads_xml.
  split; [reflexivity | ].
  split.
  { unfold rendered. repeat split; eexists; split; eassumption. }
  split.
  { rewrite Hlength_k, Hlength_ads, Hlength_n, Hlength_a, Hlength_c.
    repeat split. }
  split.
  { exists budget. split; [reflexivity | exact Hbudget_id]. }
  split.
  { intros c Hc.
    destruct (Hnth_c c Hc) as (campaign & Hcampaign & Hid & Hbudget).
    destruct (Hnth_n c campaign Hcampaign) as (negative & Hnegative & Hof).
    exists campaign, negative. unfold has_id in Hid.
    rewrite Hof, Hid. repeat split; assumption. }
  split.
  { intros c g Hc Hg.
    destruct (Hnth_c c Hc) as (campaign & Hcampaign & Hid & _).
    destruct (Hnth_a c g campaign Hcampaign Hg)
      as (adgroup & Hadgroup & Hof & Hadgroup_id).
    destruct (Hnth_ads _ adgroup Hadgroup) as (ad & Had & Had_of).
    exists adgroup, ad. unfold has_id in Hid, Hadgroup_id.
    rewrite Had_of, Hof, Hid, Hadgroup_id. repeat split; assumption. }
  intros a k Ha Hk.
  destruct (Hnth_a' a Ha) as (adgroup & Hadgroup & Hid).
  destruct (Hnth_k a k adgroup Hadgroup Hk)
    as (keyword & Hkeyword & Hof & Htext).
  exists keyword. unfold has_id in Hid. rewrite Hof, Hid.
  repeat split; assumption.
Qed.

Lemma upload_operations_refer_to_each_other_witness :
  exists operations_xml,
    outcome (BuildUploadUrlOperations counting_GenerateRawRequestXML
               plain_ExtractOperations NUMBER_OF_CAMPAIGNS_TO_ADD
               NUMBER_OF_ADGROUPS_TO_ADD NUMBER_OF_KEYWORDS_TO_ADD test_world)
    = Return operations_xml.
Proof.
  destruct (upload_operations_refer_to_each_other
              counting_GenerateRawRequestXML plain_ExtractOperations
              test_world NUMBER_OF_CAMPAIGNS_TO_ADD NUMBER_OF_ADGROUPS_TO_ADD
              NUMBER_OF_KEYWORDS_TO_ADD)
    as (budgets & campaigns & negatives & adgroups & keywords & ads
        & x1 & x2 & x3 & x4 & x5 & x6 & Hreturn & _).
  - intros operations service. eexists. reflexivity.
  - intros request_xml. eexists. reflexivity.
  - eexists. exact Hreturn.
Defined.

(** With the numbers of the script: 1 budget, 2 campaigns, 2 negative
    keywords, 4 ad groups, 20 keywords and 4 text ads. *)
Example upload_of_the_script :
  outcome (BuildUploadUrlOperations counting_GenerateRawRequestXML
             plain_ExtractOperations NUMBER_OF_CAMPAIGNS_TO_ADD
             NUMBER_OF_ADGROUPS_TO_ADD NUMBER_OF_KEYWORDS_TO_ADD test_world)
  = Return ("BudgetService:1", "CampaignService:2",
            "CampaignCriterionService:2", "AdGroupService:4",
            "AdGroupCriterionService:20", "AdGroupAdService:4").
Proof. vm_compute. reflexivity. Qed.

(** * The driver *)

(** ** The builders write no event *)

Lemma events_bind_silent {A B : Type} (m : M A) (k : A -> M B) (w : World) :
  events (m w) = [] ->
  (forall a w', events (k a w') = []) ->
  events (bind m k w) = [].
Proof.
  unfold bind. intros Hm Hk.
  destruct (outcome (m w)) as [a | e | ]; cbn [events]; rewrite Hm;
    [apply Hk | reflexivity | reflexivity].
Qed.

Lemma events_lift {A : Type} (r : exn + A) (w : World) : events (lift r w) = [].
Proof. destruct r; reflexivity. Qed.

Lemma for_each_silent {A B : Type} (body : A -> M B) (xs : list A) :
  (forall x w, events (body x w) = []) ->
  forall w, events (for_each xs body w) = [].
Proof.
  intros Hbody. induction xs as [ | x xs IH]; intros w; cbn [for_each].
  - reflexivity.
  - apply events_bind_silent; [apply Hbody | ].
    intros y w'. apply events_bind_silent; [apply IH | reflexivity].
Qed.

Ltac silent :=
  repeat first
    [ reflexivity
    | apply events_lift
    | apply events_bind_silent; [ | intros ? ?]
    | apply for_each_silent; intros ? ?
    | unfold for_each2 ].

Lemma BuildUploadUrlOperations_silent
    (GenerateRawRequestXML : list value -> string -> exn + string)
    (ExtractOperations : string -> exn + string)
    (number_of_campaigns number_of_adgroups number_of_keywords : Z)
    (w : World) :
  events (BuildUploadUrlOperations GenerateRawRequestXML ExtractOperations
            number_of_campaigns number_of_adgroups number_of_keywords w) = [].
Proof.
  unfold BuildUploadUrlOperations, BuildCampaignOperations,
    BuildCampaignCriterionOperations, BuildAdGroupOperations,
    BuildAdGroupCriterionOperations, BuildAdGroupAdOperations.
  silent.
Qed.

(** ** The builders leave the service and the random draws alone *)

Lemma same_service_bind {A B : Type} (m : M A) (k : A -> M B) (w : World) :
  same_service w (world_after (m w)) ->
  (forall a w', same_service w' (world_after (k a w'))) ->
  same_service w (world_after (bind m k w)).
Proof.
  unfold bind. intros Hm Hk.
  destruct (outcome (m w)) as [a | e | ]; cbn [world_after]; try exact Hm.
  destruct Hm as [Hm1 Hm2].
  destruct (Hk a (world_after (m w))) as [Hk1 Hk2].
  split; congruence.
Qed.

Lemma same_service_lift {A : Type} (r : exn + A) (w : World) :
  same_service w (world_after (lift r w)).
Proof. destruct r; split; reflexivity. Qed.

Lemma same_service_for_each {A B : Type} (body : A -> M B) (xs : list A) :
  (forall x w, same_service w (world_after (body x w))) ->
  forall w, same_service w (world_after (for_each xs body w)).
Proof.
  intros Hbody. induction xs as [ | x xs IH]; intros w; cbn [for_each].
  - split; reflexivity.
  - apply same_service_bind; [apply Hbody | ].
    intros y w'. apply same_service_bind; [apply IH | split; reflexivity].
Qed.

Ltac keeps_service :=
  repeat first
    [ solve [split; reflexivity]
    | apply same_service_lift
    | apply same_service_bind; [ | intros ? ?]
    | apply same_service_for_each; intros ? ?
    | unfold for_each2 ].

Lemma BuildUploadUrlOperations_keeps_service
    (GenerateRawRequestXML : list value -> string -> exn + string)
    (ExtractOperations : string -> exn + string)
    (number_of_campaigns number_of_adgroups number_of_keywords : Z)
    (w : World) :
  same_service w
    (world_after (BuildUploadUrlOperations GenerateRawRequestXML
                    ExtractOperations number_of_campaigns number_of_adgroups
                    number_of_keywords w)).
Proof.
  unfold BuildUploadUrlOperations, BuildBudgetOperations,
    BuildCampaignOperations, BuildCampaignCriterionOperations,
    BuildAdGroupOperations, BuildAdGroupCriterionOperations,
    BuildAdGroupAdOperations.
  keeps_service.
Qed.

(** ** The poller, once more *)

Lemma poller_bounds (w : World) (batch_job_id max_poll_attempts : Z) :
  0 <= max_poll_attempts ->
  let trace :=
    events (GetBatchJobDownloadUrlWhenReady batch_job_id max_poll_attempts w) in
  Z.of_nat (fetch_count trace) <= max_poll_attempts + 1 /\
  Z.of_nat (sleep_count trace) <= max_poll_attempts /\
  ((forall k, 0 <= randint_draws w k <= 10000) ->
   total_sleep trace
   <= 30 * (2 ^ max_poll_attempts - 1) + 10 * max_poll_attempts).
Proof.
  intros Hbudget; cbv zeta. rewrite poller_run.
  assert (Hpow : 0 < 2 ^ max_poll_attempts) by (apply Z.pow_pos_nonneg; lia).
  destruct (fetched w 0) as [e | batch_job]; cbv zeta; cbn [events].
  { change (total_sleep [_]) with 0. change (sleep_count [_]) with 0%nat.
    change (fetch_count [_]) with 1%nat. lia. }
  pose proof (poll_loop_counts batch_job_id max_poll_attempts
                (S (Z.to_nat max_poll_attempts)) batch_job 0 (after_get w))
    as [Hsleeps Hfetches].
  rewrite Z.sub_0_r in Hfetches.
  rewrite fetch_count_cons_get, sleep_count_cons_get.
  split; [lia | ]. split; [lia | ]. intros Hdraws.
  pose proof (poll_loop_total_sleep batch_job_id max_poll_attempts
                (S (Z.to_nat max_poll_attempts)) batch_job 0 (after_get w)
                (Z.le_refl 0) Hdraws) as Hloop.
  cbv zeta in Hloop.
  set (rest := events (poll_loop (S (Z.to_nat max_poll_attempts)) batch_job_id
                         max_poll_attempts batch_job 0 (after_get w))) in *.
  change (total_sleep (?e :: rest)) with (total_sleep rest).
  change (2 ^ 0) with 1 in Hloop.
  assert (Hturns : Z.of_nat (sleep_count rest) <= max_poll_attempts) by lia.
  assert (Hle : 2 ^ Z.of_nat (sleep_count rest) <= 2 ^ max_poll_attempts)
    by (apply Z.pow_le_mono_r; lia).
  lia.
Qed.

Lemma poller_returned_fetch (w : World) (batch_job_id max_poll_attempts : Z)
    (location : string) :
  let r := GetBatchJobDownloadUrlWhenReady batch_job_id max_poll_attempts w in
  outcome r = Return location ->
  exists last others,
    In (EvGet (GetBatchJob_selector batch_job_id) (inr (last :: others)))
       (events r) /\
    has_url last location.
Proof.
  cbv zeta. rewrite poller_run.
  destruct (fetched w 0) as [e | batch_job]; [discriminate | ].
  cbv zeta; cbn [outcome events]. intros Hret.
  apply poll_loop_returned_url in Hret
    as (before & last & others & Hevents & Hlast).
  exists last, others. split; [ | exact Hlast].
  right. rewrite Hevents. apply in_or_app. right. left. reflexivity.
Qed.

(** ** Running [main] *)

Section MainRuns.

Variable GenerateRawRequestXML : list value -> string -> exn + string.
Variable ExtractOperations : string -> exn + string.
Variables number_of_campaigns number_of_adgroups number_of_keywords : Z.

Local Abbreviation the_main :=
  (main GenerateRawRequestXML ExtractOperations number_of_campaigns
     number_of_adgroups number_of_keywords) (only parsing).

Local Abbreviation the_build w :=
  (BuildUploadUrlOperations GenerateRawRequestXML ExtractOperations
     number_of_campaigns number_of_adgroups number_of_keywords w)
  (only parsing).

Lemma bind_N_run {A B : Type} (m : N A) (k : A -> N B) (s : Session) :
  bind_N m k s =
  match main_outcome (m s) with
  | Return a =>
      {| main_outcome := main_outcome (k a (session_after (m s)));
         session_after := session_after (k a (session_after (m s)));
         main_events := main_events (m s)
                        ++ main_events (k a (session_after (m s))) |}
  | Raise e =>
      {| main_outcome := Raise e; session_after := session_after (m s);
         main_events := main_events (m s) |}
  | OutOfFuel =>
      {| main_outcome := OutOfFuel; session_after := session_after (m s);
         main_events := main_events (m s) |}
  end.
Proof. reflexivity. Qed.

Ltac main_stage :=
  rewrite ?bind_N_run; cbv beta;
  cbn [main_outcome session_after main_events session_world mutate_answer
       upload_answer urlopen_answer lift_N within BatchJobService_mutate
       logging_info_N UploadBatchJobOperations urlopen_read app map].

(** When no job with an upload URL comes back. *)
Lemma main_run_not_created (s : Session) :
  (forall batch_job, created s = inr batch_job ->
     Created.uploadUrl batch_job = None) ->
  the_main s =
  {| main_outcome := match created s with
                     | inl e => Raise e
                     | inr _ => Raise (KeyError "uploadUrl")
                     end;
     session_after := s;
     main_events := [EvMutate add_job_operations] |}.
Proof.
  unfold created, main, AddBatchJob, bind_N at 1 2, BatchJobService_mutate.
  cbn [main_outcome session_after main_events].
  destruct (mutate_answer s) as [e | [ | batch_job others]];
    cbn [first_item lift_N main_outcome session_after main_events app];
    try reflexivity.
  intros Hnone. specialize (Hnone batch_job eq_refl).
  unfold bind_N at 1, upload_url_of.
  cbn [lift_N main_outcome session_after main_events].
  rewrite Hnone. reflexivity.
Qed.

(** When a job with an upload URL comes back: what happens next is decided
    by the build, the upload, the poller and the download, in this
    order. *)
Lemma main_run_created (s : Session) (batch_job : Created.t)
    (upload_url : string) :
  created s = inr batch_job ->
  upload_url_of batch_job = inr upload_url ->
  let built := the_build (session_world s) in
  let polled := GetBatchJobDownloadUrlWhenReady (Created.id batch_job)
                  MAX_POLL_ATTEMPTS (world_after built) in
  let created_record :=
    EvInfo created_format
      [VInt (Created.id batch_job); VStr (Created.status batch_job);
       VStr upload_url] in
  the_main s =
  match outcome built with
  | Return operations =>
      match upload_answer s with
      | inr _ =>
          match outcome polled with
          | Return download_url =>
              match urlopen_answer s with
              | inr response =>
                  {| main_outcome := Return tt;
                     session_after := with_world s (world_after polled);
                     main_events :=
                       EvMutate add_job_operations :: created_record
                       :: EvUpload upload_url operations
                       :: (map EvWithin (events polled) ++
                           [EvUrlopen download_url;
                            EvInfo downloaded_format [VStr response]]) |}
              | inl e =>
                  {| main_outcome := Raise e;
                     session_after := with_world s (world_after polled);
                     main_events :=
                       EvMutate add_job_operations :: created_record
                       :: EvUpload upload_url operations
                       :: (map EvWithin (events polled) ++
                           [EvUrlopen download_url]) |}
              end
          | Raise e =>
              {| main_outcome := Raise e;
                 session_after := with_world s (world_after polled);
                 main_events :=
                   EvMutate add_job_operations :: created_record
                   :: EvUpload upload_url operations
                   :: map EvWithin (events polled) |}
          | OutOfFuel =>
              {| main_outcome := OutOfFuel;
                 session_after := with_world s (world_after polled);
                 main_events :=
                   EvMutate add_job_operations :: created_record
                   :: EvUpload upload_url operations
                   :: map EvWithin (events polled) |}
          end
      | inl e =>
          {| main_outcome := Raise e;
             session_after := with_world s (world_after built);
             main_events :=
               [EvMutate add_job_operations; created_record;
                EvUpload upload_url operations] |}
      end
  | Raise e =>
      {| main_outcome := Raise e;
         session_after := with_world s (world_after built);
         main_events := [EvMutate add_job_operations; created_record] |}
  | OutOfFuel =>
      {| main_outcome := OutOfFuel;
         session_after := with_world s (world_after built);
         main_events := [EvMutate add_job_operations; created_record] |}
  end.
Proof.
  intros Hcreated Hurl; cbv zeta.
  destruct s as [w mutated uploaded opened].
  unfold created in Hcreated.
  cbn [session_world mutate_answer upload_answer urlopen_answer] in *.
  pose proof (BuildUploadUrlOperations_silent GenerateRawRequestXML
                ExtractOperations number_of_campaigns number_of_adgroups
                number_of_keywords w) as Hsilent.
  unfold main, AddBatchJob, with_world. main_stage.
  destruct mutated as [e | entries]; [discriminate | ].
  main_stage. rewrite Hcreated. main_stage. rewrite Hurl. main_stage.
  rewrite Hsilent. cbn [map app].
  destruct (outcome (the_build w)) as [operations | e | ]; try reflexivity.
  main_stage.
  destruct uploaded as [e | []]; [reflexivity | ].
  main_stage.
  destruct (outcome (GetBatchJobDownloadUrlWhenReady (Created.id batch_job)
                       MAX_POLL_ATTEMPTS (world_after (the_build w))))
    as [download_url | e | ]; try reflexivity.
  main_stage.
  destruct opened as [e | response]; reflexivity.
Qed.

End MainRuns.

(** ** What [main] does, step by step *)

Lemma events_within_polled (trace : list Event) (rest : list MainEvent) :
  events_within (map EvWithin trace ++ rest)
  = (trace ++ events_within rest)%list.
Proof.
  induction trace as [ | e trace IH]; [reflexivity | ].
  cbn [map app events_within]. rewrite IH. reflexivity.
Qed.

Lemma events_within_map (trace : list Event) :
  events_within (map EvWithin trace) = trace.
Proof.
  rewrite <- (app_nil_r (map EvWithin trace)), events_within_polled.
  apply app_nil_r.
Qed.

Lemma urls_opened_polled (trace : list Event) (rest : list MainEvent) :
  urls_opened (map EvWithin trace ++ rest) = urls_opened rest.
Proof.
  induction trace as [ | e trace IH]; [reflexivity | ].
  cbn [map app urls_opened]. exact IH.
Qed.

Lemma upload_url_of_inl (batch_job : Created.t) (e : exn) :
  upload_url_of batch_job = inl e -> Created.uploadUrl batch_job = None.
Proof.
  unfold upload_url_of.
  destruct (Created.uploadUrl batch_job); [discriminate | reflexivity].
Qed.

Section MainProperties.

Variable GenerateRawRequestXML : list value -> string -> exn + string.
Variable ExtractOperations : string -> exn + string.
Variables number_of_campaigns number_of_adgroups number_of_keywords : Z.

Local Abbreviation the_main :=
  (main GenerateRawRequestXML ExtractOperations number_of_campaigns
     number_of_adgroups number_of_keywords) (only parsing).

Local Abbreviation the_build w :=
  (BuildUploadUrlOperations GenerateRawRequestXML ExtractOperations
     number_of_campaigns number_of_adgroups number_of_keywords w)
  (only parsing).

(** Either no job with an upload URL was created, or one was. *)
Ltac main_cases s batch_job upload_url Hcreated Hurl :=
  destruct (created s) as [? | batch_job] eqn:Hcreated;
  [ rewrite main_run_not_created by (intros ? ?; congruence);
    rewrite ?Hcreated
  | destruct (upload_url_of batch_job) as [? | upload_url] eqn:Hurl;
    [ apply upload_url_of_inl in Hurl;
      rewrite main_run_not_created by (intros ? ?; congruence);
      rewrite ?Hcreated
    | rewrite (main_run_created _ _ _ _ _ s batch_job upload_url Hcreated
                 Hurl) ] ].

(** X21: when the service gives no job with an upload URL ([mutate] raises,
    returns no value, or the job has no uploadUrl), [main] raises at once
    (that error, IndexError, or a KeyError): it has sent the one ADD
    operation and does nothing else; no operation is built, nothing is
    uploaded, polled or downloaded. *)
Theorem main_stops_when_no_job_is_created (s : Session) :
  (forall batch_job, created s = inr batch_job ->
     Created.uploadUrl batch_job = None) ->
  let r := the_main s in
  main_events r
  = [EvMutate [VDict [("operand", VDict []); ("operator", VStr "ADD")]]] /\
  session_after r = s /\
  (forall e, mutate_answer s = inl e -> main_outcome r = Raise e) /\
  (mutate_answer s = inr [] -> main_outcome r = Raise IndexError) /\
  (forall batch_job others, mutate_answer s = inr (batch_job :: others) ->
     main_outcome r = Raise (KeyError "uploadUrl")).
Proof.
  intros Hnone; cbv zeta.
  rewrite (main_run_not_created _ _ _ _ _ s Hnone).
  cbn [main_events session_after main_outcome]. unfold created.
  split; [reflexivity | ]. split; [reflexivity | ].
  split; [intros e -> | split; [intros -> | intros batch_job others ->]];
    reflexivity.
Qed.

(** X22: [main] polls only once the operations it built have been uploaded
    to the upload URL of the job it created; the polling is then a run of
    the poller for the id of that job with MAX_POLL_ATTEMPTS attempts, on
    the answers of the service from the first one. *)
Theorem main_polls_after_the_upload (s : Session) :
  let r := the_main s in
  events_within (main_events r) <> [] ->
  exists batch_job upload_url operations after,
    created s = inr batch_job /\
    upload_url_of batch_job = inr upload_url /\
    outcome (the_build (session_world s)) = Return operations /\
    upload_answer s = inr tt /\
    main_events r
    = EvMutate add_job_operations
      :: EvInfo created_format
           [VInt (Created.id batch_job); VStr (Created.status batch_job);
            VStr upload_url]
      :: EvUpload upload_url operations :: after /\
    events_within after
    = events (GetBatchJobDownloadUrlWhenReady (Created.id batch_job)
                MAX_POLL_ATTEMPTS (world_after (the_build (session_world s))))
    /\ same_service (session_world s)
         (world_after (the_build (session_world s))).
Proof.
  cbv zeta.
  main_cases s batch_job upload_url Hcreated Hurl;
    try (intros H; contradiction H; reflexivity).
  destruct (outcome (the_build (session_world s))) as [operations | e | ]
    eqn:Hbuilt; try (intros H; contradiction H; reflexivity).
  destruct (upload_answer s) as [e | []] eqn:Hupload;
    try (intros H; contradiction H; reflexivity).
  intros _. exists batch_job, upload_url, operations.
  assert (Hservice := BuildUploadUrlOperations_keeps_service
            GenerateRawRequestXML ExtractOperations number_of_campaigns
            number_of_adgroups number_of_keywords (session_world s)).
  destruct (outcome (GetBatchJobDownloadUrlWhenReady _ _ _))
    as [download_url | e | ]; [destruct (urlopen_answer s) | | ];
    cbn [main_events]; eexists;
    (split; [first [reflexivity | assumption] | ]);
    (split; [first [reflexivity | assumption] | ]);
    (split; [first [reflexivity | assumption] | ]);
    (split; [first [reflexivity | assumption] | ]);
    (split; [reflexivity | ]); (split; [ | exact Hservice]);
    rewrite ?events_within_polled, ?events_within_map;
    cbn [events_within]; rewrite ?app_nil_r; reflexivity.
Qed.

(** X23: [main] opens at most one URL, and only the download URL that the
    poller returned for the job it created, which is the URL carried by a
    job that was fetched with the id of the created job. *)
Theorem main_opens_only_the_returned_url (s : Session)
    (download_url : string) :
  let r := the_main s in
  In download_url (urls_opened (main_events r)) ->
  urls_opened (main_events r) = [download_url] /\
  exists batch_job,
    created s = inr batch_job /\
    outcome (GetBatchJobDownloadUrlWhenReady (Created.id batch_job)
               MAX_POLL_ATTEMPTS (world_after (the_build (session_world s))))
    = Return download_url /\
    exists last others,
      In (EvGet (GetBatchJob_selector (Created.id batch_job))
            (inr (last :: others)))
         (events_within (main_events r)) /\
      has_url last download_url.
Proof.
  cbv zeta.
  main_cases s batch_job upload_url Hcreated Hurl; try (intros []).
  destruct (outcome (the_build (session_world s))) as [operations | e | ];
    try (intros []).
  destruct (upload_answer s) as [e | []]; try (intros []).
  match goal with
  | |- In _ (urls_opened (main_events ?r)) -> _ =>
      enough (Hrun : In download_url (urls_opened (main_events r)) ->
                urls_opened (main_events r) = [download_url] /\
                outcome (GetBatchJobDownloadUrlWhenReady (Created.id batch_job)
                           MAX_POLL_ATTEMPTS
                           (world_after (the_build (session_world s))))
                = Return download_url /\
                exists last others,
                  In (EvGet (GetBatchJob_selector (Created.id batch_job))
                        (inr (last :: others)))
                     (events_within (main_events r)) /\
                  has_url last download_url)
  end.
  { intros Hin. destruct (Hrun Hin) as (Hopened & Hreturned & Hfetched).
    split; [exact Hopened | ]. exists batch_job.
    split; [reflexivity | ]. split; [exact Hreturned | exact Hfetched]. }
  pose proof (poller_returned_fetch (world_after (the_build (session_world s)))
                (Created.id batch_job) MAX_POLL_ATTEMPTS) as Hfetch.
  cbv zeta in Hfetch.
  destruct (GetBatchJobDownloadUrlWhenReady (Created.id batch_job)
              MAX_POLL_ATTEMPTS _) as [polled_outcome w' trace].
  cbn [outcome events world_after] in Hfetch |- *.
  destruct polled_outcome as [returned_url | e | ];
    [ destruct (urlopen_answer s) | | ];
    cbn [main_events urls_opened events_within];
    rewrite ?urls_opened_polled, ?events_within_polled, ?events_within_map;
    cbn [urls_opened events_within]; rewrite ?app_nil_r;
    try (rewrite <- (app_nil_r (map EvWithin _)), urls_opened_polled;
         intros []);
    intros [<- | []];
    (split; [reflexivity | ]); (split; [reflexivity | ]);
    apply (Hfetch _ eq_refl).
Qed.

(** X24: whatever happens, [main] fetches the job at most 6 times and
    sleeps at most 5 times; and when [random.randint(0, 10000)] keeps to its
    range, it sleeps at most 980 seconds in all. *)
Theorem main_polling_is_bounded (s : Session) :
  let trace := events_within (main_events (the_main s)) in
  (fetch_count trace <= 6)%nat /\
  (sleep_count trace <= 5)%nat /\
  ((forall k, 0 <= randint_draws (session_world s) k <= 10000) ->
   total_sleep trace <= 980).
Proof.
  cbv zeta.
  assert (Hnone : (fetch_count [] <= 6)%nat /\ (sleep_count [] <= 5)%nat /\
            ((forall k, 0 <= randint_draws (session_world s) k <= 10000) ->
             total_sleep [] <= 980)).
  { split; [apply Nat.le_0_l | ]. split; [apply Nat.le_0_l | ].
    intros _. discriminate. }
  main_cases s batch_job upload_url Hcreated Hurl; try exact Hnone.
  destruct (outcome (the_build (session_world s))) as [operations | e | ];
    try exact Hnone.
  destruct (upload_answer s) as [e | []]; try exact Hnone.
  destruct (BuildUploadUrlOperations_keeps_service GenerateRawRequestXML
              ExtractOperations number_of_campaigns number_of_adgroups
              number_of_keywords (session_world s)) as [_ Hdraws].
  pose proof (poller_bounds (world_after (the_build (session_world s)))
                (Created.id batch_job) MAX_POLL_ATTEMPTS ltac:(discriminate))
    as (Hfetches & Hsleeps & Htotal).
  cbv zeta in Hfetches, Hsleeps, Htotal. rewrite Hdraws in Htotal.
  change (30 * (2 ^ MAX_POLL_ATTEMPTS - 1) + 10 * MAX_POLL_ATTEMPTS)
    with 980 in Htotal.
  assert (Hmax : MAX_POLL_ATTEMPTS = 5) by reflexivity.
  destruct (GetBatchJobDownloadUrlWhenReady (Created.id batch_job)
              MAX_POLL_ATTEMPTS _) as [polled_outcome w' trace].
  cbn [outcome events world_after] in Hfetches, Hsleeps, Htotal |- *.
  destruct polled_outcome as [returned_url | e | ];
    [ destruct (urlopen_answer s) | | ];
    cbn [main_events events_within];
    rewrite ?events_within_polled, ?events_within_map;
    cbn [events_within]; rewrite ?app_nil_r;
    (split; [lia | split; [lia | exact Htotal]]).
Qed.

End MainProperties.

Lemma main_stops_when_no_job_is_created_witness :
  let s := {| session_world := test_world;
              mutate_answer := inl (TransportError "connection reset");
              upload_answer := inr tt;
              urlopen_answer := inr "" |} in
  let r := main counting_GenerateRawRequestXML plain_ExtractOperations
             NUMBER_OF_CAMPAIGNS_TO_ADD NUMBER_OF_ADGROUPS_TO_ADD
             NUMBER_OF_KEYWORDS_TO_ADD s in
  main_events r
  = [EvMutate [VDict [("operand", VDict []); ("operator", VStr "ADD")]]] /\
  session_after r = s /\
  (forall e, mutate_answer s = inl e -> main_outcome r = Raise e) /\
  (mutate_answer s = inr [] -> main_outcome r = Raise IndexError) /\
  (forall batch_job others, mutate_answer s = inr (batch_job :: others) ->
     main_outcome r = Raise (KeyError "uploadUrl")).
Proof.
  apply (main_stops_when_no_job_is_created counting_GenerateRawRequestXML
           plain_ExtractOperations NUMBER_OF_CAMPAIGNS_TO_ADD
           NUMBER_OF_ADGROUPS_TO_ADD NUMBER_OF_KEYWORDS_TO_ADD
           {| session_world := test_world;
              mutate_answer := inl (TransportError "connection reset");
              upload_answer := inr tt;
              urlopen_answer := inr "" |}).
  intros batch_job H. discriminate H.
Defined.

Lemma main_polls_after_the_upload_witness :
  let s := session_of (scripted [pending_stub; pending_stub]
                         (ready_stub "https://batch/result") (fun _ => 0)) in
  exists batch_job upload_url operations after,
    created s = inr batch_job /\
    upload_url_of batch_job = inr upload_url /\
    outcome (BuildUploadUrlOperations counting_GenerateRawRequestXML
               plain_ExtractOperations NUMBER_OF_CAMPAIGNS_TO_ADD
               NUMBER_OF_ADGROUPS_TO_ADD NUMBER_OF_KEYWORDS_TO_ADD
               (session_world s)) = Return operations /\
    upload_answer s = inr tt /\
    main_events (main counting_GenerateRawRequestXML plain_ExtractOperations
                   NUMBER_OF_CAMPAIGNS_TO_ADD NUMBER_OF_ADGROUPS_TO_ADD
                   NUMBER_OF_KEYWORDS_TO_ADD s)
    = EvMutate add_job_operations
      :: EvInfo created_format
           [VInt (Created.id batch_job); VStr (Created.status batch_job);
            VStr upload_url]
      :: EvUpload upload_url operations :: after /\
    events_within after
    = events (GetBatchJobDownloadUrlWhenReady (Created.id batch_job)
                MAX_POLL_ATTEMPTS
                (world_after
                   (BuildUploadUrlOperations counting_GenerateRawRequestXML
                      plain_ExtractOperations NUMBER_OF_CAMPAIGNS_TO_ADD
                      NUMBER_OF_ADGROUPS_TO_ADD NUMBER_OF_KEYWORDS_TO_ADD
                      (session_world s))))
    /\ same_service (session_world s)
         (world_after
            (BuildUploadUrlOperations counting_GenerateRawRequestXML
               plain_ExtractOperations NUMBER_OF_CAMPAIGNS_TO_ADD
               NUMBER_OF_ADGROUPS_TO_ADD NUMBER_OF_KEYWORDS_TO_ADD
               (session_world s))).
Proof.
  apply (main_polls_after_the_upload counting_GenerateRawRequestXML
           plain_ExtractOperations NUMBER_OF_CAMPAIGNS_TO_ADD
           NUMBER_OF_ADGROUPS_TO_ADD NUMBER_OF_KEYWORDS_TO_ADD
           (session_of (scripted [pending_stub; pending_stub]
                          (ready_stub "https://batch/result") (fun _ => 0)))).
  vm_compute. discriminate.
Defined.

Lemma main_opens_only_the_returned_url_witness :
  let s := session_of (scripted [pending_stub; pending_stub]
                         (ready_stub "https://batch/result") (fun _ => 0)) in
  urls_opened
    (main_events (main counting_GenerateRawRequestXML plain_ExtractOperations
                    NUMBER_OF_CAMPAIGNS_TO_ADD NUMBER_OF_ADGROUPS_TO_ADD
                    NUMBER_OF_KEYWORDS_TO_ADD s))
  = ["https://batch/result"].
Proof.
  apply (main_opens_only_the_returned_url counting_GenerateRawRequestXML
           plain_ExtractOperations NUMBER_OF_CAMPAIGNS_TO_ADD
           NUMBER_OF_ADGROUPS_TO_ADD NUMBER_OF_KEYWORDS_TO_ADD
           (session_of (scripted [pending_stub; pending_stub]
                          (ready_stub "https://batch/result") (fun _ => 0)))
           "https://batch/result").
  vm_compute. left. reflexivity.
Defined.

(** A session of the script in which the job is ready at the third fetch. *)
Example main_of_the_script :
  let s := session_of (scripted [pending_stub; pending_stub]
                         (ready_stub "https://batch/result") (fun _ => 0)) in
  let r := main counting_GenerateRawRequestXML plain_ExtractOperations
             NUMBER_OF_CAMPAIGNS_TO_ADD NUMBER_OF_ADGROUPS_TO_ADD
             NUMBER_OF_KEYWORDS_TO_ADD s in
  main_outcome r = Return tt /\
  urls_opened (main_events r) = ["https://batch/result"] /\
  map fst (uploads (main_events r)) = ["https://batch/upload"] /\
  fetch_count (events_within (main_events r)) = 3%nat /\
  total_sleep (events_within (main_events r)) = 90.
Proof. vm_compute. repeat split. Qed.
